(** * Resampling and contrast correction of the image editor

    A shallow embedding of [lib/image_transforms/img_format_transformer.py]
    (the four resamplers of [ImgFormatTransformer]) and of
    [lib/painters/hist_painter.py] (the histogram and the contrast
    correction of [ImageHistPlotter]), with the properties of the
    specification that concern them.

    - Python [int] is [Z].
    - Python [float] and NumPy [float64] are IEEE 754 binary64 numbers.  A
      finite one is the rational it denotes, and every operation is the
      exact operation followed by rounding to 53 significant bits, ties to
      even ([F64.rnd]).  [F64.rnd] has no exponent range; the one product
      the user can push beyond the finite floats, [ignore_range * 100], is
      tested for it ([F64.overflows]) where Python would raise.
    - A NumPy array is its shape together with a total item function;
      indexing checks bounds the way NumPy does and raises [IndexError].
    - A Python exception is the [Raise] case of [result]. *)

From Stdlib Require Import ZArith QArith Qcanon Qround Qabs List Bool Lia Floats.
Import ListNotations.
Open Scope Z_scope.

(** ** Exceptions *)

Inductive exn : Type :=
| ValueError
| IndexError
| ZeroDivisionError
| OverflowError.

Inductive result (A : Type) : Type :=
| Ok (a : A)
| Raise (e : exn).
Arguments Ok {A} a.
Arguments Raise {A} e.

Definition bind {A B : Type} (m : result A) (k : A -> result B) : result B :=
  match m with
  | Ok a => k a
  | Raise e => Raise e
  end.

Definition is_ok {A : Type} (m : result A) : bool :=
  match m with
  | Ok _ => true
  | Raise _ => false
  end.

Notation "x <- m ;; k" := (bind m (fun x => k))
  (at level 61, m at next level, right associativity).

(** [for x in xs: s = body(s, x)] with the first exception ending the loop. *)
Fixpoint for_each {S X : Type} (xs : list X) (body : S -> X -> result S)
  (s : S) : result S :=
  match xs with
  | [] => Ok s
  | x :: xs' => s' <- body s x ;; for_each xs' body s'
  end.

(** [range(n)]: empty when [n <= 0]. *)
Definition range (n : Z) : list Z := map Z.of_nat (seq 0 (Z.to_nat n)).

(** ** binary64 arithmetic *)

Module F64.

(** The integer nearest to [n / d] ([0 < d]), ties to the even one. *)
Definition round_half_even (n d : Z) : Z :=
  let q := n / d in
  let r := n mod d in
  if 2 * r <? d then q
  else if d <? 2 * r then q + 1
  else if Z.even q then q else q + 1.

(** [n / d] divided by [2 ^ e], as a fraction. *)
Definition scale2 (n d e : Z) : Z * Z :=
  if 0 <=? e then (n, d * 2 ^ e) else (n * 2 ^ (- e), d).

(** [floor (log2 (n / d))] for [0 < n], [0 < d]. *)
Definition ilog2 (n d : Z) : Z :=
  let k := Z.log2 n - Z.log2 d in
  let '(n', d') := scale2 n d k in
  if d' <=? n' then k else k - 1.

(** [m * 2 ^ e] as a reduced fraction. *)
Definition ldexp (m e : Z) : Q :=
  if 0 <=? e then inject_Z (m * 2 ^ e)
  else Qred (m # Z.to_pos (2 ^ (- e))).

(** Rounding of a positive fraction to 53 significant bits. *)
Definition rnd_pos (n d : Z) : Q :=
  let e := ilog2 n d - 52 in
  let '(n', d') := scale2 n d e in
  ldexp (round_half_even n' d') e.

Definition rnd (x : Q) : Q :=
  let y := Qred x in
  match Qnum y with
  | Z0 => 0%Q
  | Zpos n => rnd_pos (Zpos n) (Zpos (Qden y))
  | Zneg n => Qopp (rnd_pos (Zpos n) (Zpos (Qden y)))
  end.

Definition add (x y : Q) : Q := rnd (x + y).
Definition sub (x y : Q) : Q := rnd (x - y).
Definition mul (x y : Q) : Q := rnd (x * y).
(** Only used with [y] nonzero; Python raises and NumPy yields nan or
    inf on a zero divisor, which the callers decide before dividing. *)
Definition div (x y : Q) : Q := rnd (x / y).

(** [float(z)], and the conversion of an [int] operand that meets a
    [float] one. *)
Definition of_int (z : Z) : Q := rnd (inject_Z z).

(** The finite binary64 numbers lie below [2 ^ 1024] in magnitude: a
    result rounded to 53 bits that reaches it is an infinity. *)
Definition overflows (x : Q) : bool :=
  Qle_bool (inject_Z (2 ^ 1024)) (Qabs x).

(** [math.floor], [math.ceil], [int(...)] (truncation toward zero). *)
Definition floor (x : Q) : Z := Qfloor x.
Definition ceil (x : Q) : Z := Qceiling x.
Definition trunc (x : Q) : Z :=
  if Qle_bool 0 x then Qfloor x else Qceiling x.

(** The value of a hardware binary64 number, for comparing this model
    with the machine's arithmetic on the inputs used below. *)
Definition of_hw (f : float) : option Q :=
  match Prim2SF f with
  | S754_zero _ => Some 0%Q
  | S754_finite s m e =>
      Some (ldexp (if s then Zneg m else Zpos m) e)
  | _ => None
  end.

Definition hw_of_int (z : Z) : float :=
  if z <? 0 then PrimFloat.opp (PrimFloat.of_uint63 (Uint63.of_Z (- z)))
  else PrimFloat.of_uint63 (Uint63.of_Z z).

End F64.

(** ** NumPy arrays *)

Module Np.

(** An index into an axis of length [n]: negative indices count from the
    end, anything outside [-n, n) raises. *)
Definition index (n i : Z) : result Z :=
  if (0 <=? i) && (i <? n) then Ok i
  else if (- n <=? i) && (i <? 0) then Ok (i + n)
  else Raise IndexError.

Fixpoint indices (n : Z) (ixs : list Z) : result (list Z) :=
  match ixs with
  | [] => Ok []
  | i :: ixs' => i' <- index n i ;; r <- indices n ixs' ;; Ok (i' :: r)
  end.

(** A two-dimensional view, such as [img_array[:, :, c]]. *)
Record array2 (A : Type) : Type := mk_array2 {
  rows : Z;
  cols : Z;
  item2 : Z -> Z -> A
}.
Arguments mk_array2 {A}.
Arguments rows {A}.
Arguments cols {A}.
Arguments item2 {A}.

Record array3 (A : Type) : Type := mk_array3 {
  dim0 : Z;
  dim1 : Z;
  dim2 : Z;
  item : Z -> Z -> Z -> A
}.
Arguments mk_array3 {A}.
Arguments dim0 {A}.
Arguments dim1 {A}.
Arguments dim2 {A}.
Arguments item {A}.

(** [np.zeros((d0, d1, d2))]: a negative dimension is a [ValueError]. *)
Definition zeros {A : Type} (zero : A) (d0 d1 d2 : Z) : result (array3 A) :=
  if (d0 <? 0) || (d1 <? 0) || (d2 <? 0) then Raise ValueError
  else Ok (mk_array3 d0 d1 d2 (fun _ _ _ => zero)).

(** [a[i, j, k]] *)
Definition get {A : Type} (a : array3 A) (i j k : Z) : result A :=
  i' <- index (dim0 a) i ;;
  j' <- index (dim1 a) j ;;
  k' <- index (dim2 a) k ;;
  Ok (item a i' j' k').

(** [a[i, j, k] = v] *)
Definition set {A : Type} (a : array3 A) (i j k : Z) (v : A)
  : result (array3 A) :=
  i' <- index (dim0 a) i ;;
  j' <- index (dim1 a) j ;;
  k' <- index (dim2 a) k ;;
  Ok (mk_array3 (dim0 a) (dim1 a) (dim2 a)
        (fun x y z =>
           if (x =? i') && (y =? j') && (z =? k') then v
           else item a x y z)).

(** [a[:, :, c]] *)
Definition plane {A : Type} (a : array3 A) (c : Z) : result (array2 A) :=
  c' <- index (dim2 a) c ;;
  Ok (mk_array2 (dim0 a) (dim1 a) (fun i j => item a i j c')).

(** [p[idx, :]] and [p[:, idx]] with an integer index array. *)
Definition take_rows {A : Type} (p : array2 A) (idx : list Z)
  : result (array2 A) :=
  idx' <- indices (rows p) idx ;;
  Ok (mk_array2 (Z.of_nat (length idx')) (cols p)
        (fun i j => item2 p (nth (Z.to_nat i) idx' 0) j)).

Definition take_cols {A : Type} (p : array2 A) (idx : list Z)
  : result (array2 A) :=
  idx' <- indices (cols p) idx ;;
  Ok (mk_array2 (rows p) (Z.of_nat (length idx'))
        (fun i j => item2 p i (nth (Z.to_nat j) idx' 0))).

(** An axis of length [s] broadcasts to one of length [d]. *)
Definition broadcasts (s d : Z) : bool := (s =? d) || (s =? 1).

(** [a[:, :, c] = p], every item converted by [cast]. *)
Definition set_plane {A B : Type} (cast : B -> A) (a : array3 A) (c : Z)
  (p : array2 B) : result (array3 A) :=
  c' <- index (dim2 a) c ;;
  if broadcasts (rows p) (dim0 a) && broadcasts (cols p) (dim1 a) then
    Ok (mk_array3 (dim0 a) (dim1 a) (dim2 a)
          (fun i j k =>
             if k =? c' then
               cast (item2 p (if rows p =? 1 then 0 else i)
                             (if cols p =? 1 then 0 else j))
             else item a i j k))
  else Raise ValueError.

(** [a[i, j]]: the samples of one pixel, one per channel. *)
Definition get_pixel {A : Type} (a : array3 A) (i j : Z)
  : result (Z -> A) :=
  i' <- index (dim0 a) i ;;
  j' <- index (dim1 a) j ;;
  Ok (fun k => item a i' j' k).

(** [a[i][j] = pixel] for a [pixel] of [n] samples, converted by [cast]. *)
Definition set_pixel {A B : Type} (cast : B -> A) (a : array3 A)
  (i j : Z) (n : Z) (pixel : Z -> B) : result (array3 A) :=
  i' <- index (dim0 a) i ;;
  j' <- index (dim1 a) j ;;
  if broadcasts n (dim2 a) then
    Ok (mk_array3 (dim0 a) (dim1 a) (dim2 a)
          (fun x y z =>
             if (x =? i') && (y =? j') then
               cast (pixel (if n =? 1 then 0 else z))
             else item a x y z))
  else Raise ValueError.

Definition has_shape {A : Type} (d0 d1 d2 : Z) (a : array3 A) : Prop :=
  dim0 a = d0 /\ dim1 a = d1 /\ dim2 a = d2.

(** The two integer sample types of a decoded image. *)
Inductive dtype : Type := uint8 | uint16.

Definition bits (t : dtype) : Z :=
  match t with uint8 => 8 | uint16 => 16 end.

Record ndarray : Type := mk_ndarray {
  dt : dtype;
  data : array3 Z
}.

(** Rows, columns, channels and sample depth of an image, the way
    [bilinear_resize], [mitchell], [lanczos] and PIL read the shape
    [(H, W, C)]. *)
Definition height_of (g : ndarray) : Z := dim0 (data g).
Definition width_of (g : ndarray) : Z := dim1 (data g).
Definition channels_of (g : ndarray) : Z := dim2 (data g).
Definition depth_of (g : ndarray) : Z := bits (dt g).

(** Every sample inside the shape fits the sample type, and no
    dimension is negative. *)
Definition well_formed (g : ndarray) : bool :=
  let a := data g in
  (0 <=? dim0 a) && (0 <=? dim1 a) && (0 <=? dim2 a)
  && forallb
       (fun i =>
          forallb
            (fun j =>
               forallb
                 (fun k =>
                    (0 <=? item a i j k) && (item a i j k <? 2 ^ bits (dt g)))
                 (range (dim2 a)))
            (range (dim1 a)))
       (range (dim0 a)).

(** Conversion of an integer sample to [uint8]: the low eight bits. *)
Definition int_to_uint8 (v : Z) : Z := v mod 256.

(** An array of the given shape whose items are all [uint8] values. *)
Definition uint8_shaped (d0 d1 d2 : Z) (a : array3 Z) : Prop :=
  dim0 a = d0 /\ dim1 a = d1 /\ dim2 a = d2
  /\ forall i j k, 0 <= item a i j k < 256.

(** Conversion of a [float64] to [uint8], the C cast NumPy performs:
    truncation toward zero, then the low eight bits.  A value whose
    truncation does not fit a 32-bit integer gives 0 on x86-64. *)
Definition float_to_uint8 (x : Q) : Z :=
  let z := F64.trunc x in
  if (- 2 ^ 31 <=? z) && (z <? 2 ^ 31) then z mod 256 else 0.

(** The down-cast as the specification words it: the value is clamped
    to [0, 2^depth - 1] first. *)
Definition spec_clamped_cast (depth : Z) (x : Q) : Z :=
  Z.max 0 (Z.min (2 ^ depth - 1) (F64.trunc x)).

(** [a.astype(np.uint8)] of a float array. *)
Definition astype_uint8 (a : array3 Q) : ndarray :=
  mk_ndarray uint8
    (mk_array3 (dim0 a) (dim1 a) (dim2 a)
       (fun i j k => float_to_uint8 (item a i j k))).

(** [np.arange(0, stop, step)] with a float step: the length is
    [ceil((stop - 0) / step)]; the first two items are [0] and
    [0 + step], item [i >= 2] is [first + i * (second - first)]. *)
Definition arange (stop : Z) (step : Q) : result (list Q) :=
  if Qeq_bool step 0 then Raise ZeroDivisionError
  else
    let len := F64.ceil (F64.div (F64.of_int stop) step) in
    let first := 0%Q in
    let second := F64.add 0 step in
    let delta := F64.sub second first in
    Ok (map (fun i =>
               if i =? 0 then first
               else if i =? 1 then second
               else F64.add first (F64.mul (F64.of_int i) delta))
            (range len)).

End Np.

(** [a / b] on two Python ints: the correctly rounded quotient. *)
Definition py_truediv (a b : Z) : result Q :=
  if b =? 0 then Raise ZeroDivisionError
  else Ok (F64.rnd (inject_Z a / inject_Z b)).

(** ** The process-wide current image *)

Record ImageObjectSingleton : Type := mk_singleton {
  img_array : Np.ndarray
}.

(** A transform computes a new array from the current one and assigns it
    to [ImageObjectSingleton.img_array] as its last step; an exception
    raised before that leaves the attribute as it was. *)
Definition assign_img_array (s : ImageObjectSingleton)
  (r : result Np.ndarray) : result unit * ImageObjectSingleton :=
  match r with
  | Ok a => (Ok tt, mk_singleton a)
  | Raise e => (Raise e, s)
  end.

(** ** lib/image_transforms/img_format_transformer.py *)

Module ImgFormatTransformer.

(** *** [resize_neighbour] *)

(** [np.ceil(np.arange(0, original, scale)).astype(int)], then the items
    equal to [original] lowered by one. *)
Definition resize_index (original : Z) (scale : Q) : result (list Z) :=
  xs <- Np.arange original scale ;;
  Ok (map (fun v => if v =? original then v - 1 else v)
          (map F64.ceil xs)).

Definition resize_neighbour_array (img_array : Np.ndarray)
  (height width : Z) : result Np.ndarray :=
  let a := Np.data img_array in
  let original_width := Np.dim0 a in
  let original_height := Np.dim1 a in
  let channel := Np.dim2 a in
  red_channel <- Np.plane a 0 ;;
  green_channel <- Np.plane a 1 ;;
  blue_channel <- Np.plane a 2 ;;
  resized_image <- Np.zeros 0 width height channel ;;
  x_scale <- py_truediv original_width width ;;
  y_scale <- py_truediv original_height height ;;
  resize_index_x <- resize_index original_width x_scale ;;
  resize_index_y <- resize_index original_height y_scale ;;
  r <- Np.take_rows red_channel resize_index_x ;;
  r <- Np.take_cols r resize_index_y ;;
  resized_image <- Np.set_plane Np.int_to_uint8 resized_image 0 r ;;
  g <- Np.take_rows green_channel resize_index_x ;;
  g <- Np.take_cols g resize_index_y ;;
  resized_image <- Np.set_plane Np.int_to_uint8 resized_image 1 g ;;
  b <- Np.take_rows blue_channel resize_index_x ;;
  b <- Np.take_cols b resize_index_y ;;
  resized_image <- Np.set_plane Np.int_to_uint8 resized_image 2 b ;;
  Ok (Np.mk_ndarray Np.uint8 resized_image).

Definition resize_neighbour (s : ImageObjectSingleton) (height width : Z)
  : result unit * ImageObjectSingleton :=
  assign_img_array s (resize_neighbour_array (img_array s) height width).

(** *** [bilinear_resize] *)

(** [float(src - 1) / (dst - 1) if dst > 1 else 0] *)
Definition ratio (src dst : Z) : Q :=
  if 1 <? dst then F64.div (F64.of_int (src - 1)) (F64.of_int (dst - 1))
  else 0%Q.

(** [np.array(Image.new('RGB', (width, height)))]: PIL refuses a negative
    size; the array has [height] rows of [width] black RGB pixels. *)
Definition image_new_rgb (width height : Z) : result (Np.array3 Z) :=
  if (width <? 0) || (height <? 0) then Raise ValueError
  else Np.zeros 0 height width 3.

(** One channel of
    [a*(1-xw)*(1-yw) + b*xw*(1-yw) + c*yw*(1-xw) + d*xw*yw]. *)
Definition bilinear_pixel (x_weight y_weight : Q) (a b c d : Z) : Q :=
  F64.add
    (F64.add
       (F64.add
          (F64.mul (F64.mul (F64.of_int a) (F64.sub 1 x_weight))
                   (F64.sub 1 y_weight))
          (F64.mul (F64.mul (F64.of_int b) x_weight)
                   (F64.sub 1 y_weight)))
       (F64.mul (F64.mul (F64.of_int c) y_weight) (F64.sub 1 x_weight)))
    (F64.mul (F64.mul (F64.of_int d) x_weight) y_weight).

Definition bilinear_step (image : Np.array3 Z) (x_ratio y_ratio : Q)
  (i : Z) (resized : Np.array3 Z) (j : Z) : result (Np.array3 Z) :=
  let x_l := F64.floor (F64.mul x_ratio (F64.of_int j)) in
  let y_l := F64.floor (F64.mul y_ratio (F64.of_int i)) in
  let x_h := F64.ceil (F64.mul x_ratio (F64.of_int j)) in
  let y_h := F64.ceil (F64.mul y_ratio (F64.of_int i)) in
  let x_weight :=
    F64.sub (F64.mul x_ratio (F64.of_int j)) (F64.of_int x_l) in
  let y_weight :=
    F64.sub (F64.mul y_ratio (F64.of_int i)) (F64.of_int y_l) in
  a <- Np.get_pixel image y_l x_l ;;
  b <- Np.get_pixel image y_l x_h ;;
  c <- Np.get_pixel image y_h x_l ;;
  d <- Np.get_pixel image y_h x_h ;;
  let pixel := fun k =>
    bilinear_pixel x_weight y_weight (a k) (b k) (c k) (d k) in
  Np.set_pixel Np.float_to_uint8 resized i j (Np.dim2 image) pixel.

(** The pixel one pass computes for the target position [(i, j)], before
    it is assigned to [resized[i][j]]. *)
Definition bilinear_sample (image : Np.array3 Z) (x_ratio y_ratio : Q)
  (i j : Z) : result (Z -> Q) :=
  let x_l := F64.floor (F64.mul x_ratio (F64.of_int j)) in
  let y_l := F64.floor (F64.mul y_ratio (F64.of_int i)) in
  let x_h := F64.ceil (F64.mul x_ratio (F64.of_int j)) in
  let y_h := F64.ceil (F64.mul y_ratio (F64.of_int i)) in
  let x_weight :=
    F64.sub (F64.mul x_ratio (F64.of_int j)) (F64.of_int x_l) in
  let y_weight :=
    F64.sub (F64.mul y_ratio (F64.of_int i)) (F64.of_int y_l) in
  a <- Np.get_pixel image y_l x_l ;;
  b <- Np.get_pixel image y_l x_h ;;
  c <- Np.get_pixel image y_h x_l ;;
  d <- Np.get_pixel image y_h x_h ;;
  Ok (fun k => bilinear_pixel x_weight y_weight (a k) (b k) (c k) (d k)).

Definition bilinear_resize_array (img : Np.ndarray) (height width : Z)
  : result Np.ndarray :=
  let image := Np.data img in
  let img_height := Np.dim0 image in
  let img_width := Np.dim1 image in
  resized <- image_new_rgb width height ;;
  let x_ratio := ratio img_width width in
  let y_ratio := ratio img_height height in
  resized <-
    for_each (range height)
      (fun resized i =>
         for_each (range width)
           (bilinear_step image x_ratio y_ratio i) resized)
      resized ;;
  Ok (Np.mk_ndarray Np.uint8 resized).

Definition bilinear_resize (s : ImageObjectSingleton) (height width : Z)
  : result unit * ImageObjectSingleton :=
  assign_img_array s (bilinear_resize_array (img_array s) height width).

(** *** [mitchell] and [lanczos]

    The two functions differ in the kernel only.  [padding],
    [bicubic_kernel] and [lanczos_filter] come from
    [lib/image_transforms/image_kernels.py]. *)

Section FourTap.

Variable padding : Np.array3 Z -> Z -> Z -> Z -> Np.array3 Q.
Variable kernel : Q -> Q.

(** The sum of the products, left to right. *)
Definition dot (u v : list Q) : Q :=
  fold_left (fun acc p => F64.add acc (F64.mul (fst p) (snd p)))
    (combine u v) 0%Q.

Fixpoint gather {X Y : Type} (f : X -> result Y) (xs : list X)
  : result (list Y) :=
  match xs with
  | [] => Ok []
  | x :: xs' => y <- f x ;; ys <- gather f xs' ;; Ok (y :: ys)
  end.

(** The value of [dst[j, i, c]] at the source coordinates [x], [y]. *)
Definition four_tap_sample (img : Np.array3 Q) (x y : Q) (c : Z)
  : result Q :=
  let x1 := F64.sub (F64.add 1 x) (F64.of_int (F64.floor x)) in
  let x2 := F64.sub x (F64.of_int (F64.floor x)) in
  let x3 := F64.sub (F64.of_int (F64.floor x + 1)) x in
  let x4 := F64.sub (F64.of_int (F64.floor x + 2)) x in
  let y1 := F64.sub (F64.add 1 y) (F64.of_int (F64.floor y)) in
  let y2 := F64.sub y (F64.of_int (F64.floor y)) in
  let y3 := F64.sub (F64.of_int (F64.floor y + 1)) y in
  let y4 := F64.sub (F64.of_int (F64.floor y + 2)) y in
  let mat_l := [kernel x1; kernel x2; kernel x3; kernel x4] in
  let xs := [F64.trunc (F64.sub x x1); F64.trunc (F64.sub x x2);
             F64.trunc (F64.add x x3); F64.trunc (F64.add x x4)] in
  let ys := [F64.trunc (F64.sub y y1); F64.trunc (F64.sub y y2);
             F64.trunc (F64.add y y3); F64.trunc (F64.add y y4)] in
  mat_m <- gather (fun xa => gather (fun yb => Np.get img yb xa c) ys)
             xs ;;
  let mat_r := [kernel y1; kernel y2; kernel y3; kernel y4] in
  let l_m := map (fun b => dot mat_l (map (fun row => nth b row 0%Q) mat_m))
               [0%nat; 1%nat; 2%nat; 3%nat] in
  Ok (dot l_m mat_r).

Definition four_tap_step (img : Np.array3 Q) (h_x h_y : Q) (c j : Z)
  (dst : Np.array3 Q) (i : Z) : result (Np.array3 Q) :=
  let x := F64.add (F64.mul (F64.of_int i) h_x) 2 in
  let y := F64.add (F64.mul (F64.of_int j) h_y) 2 in
  v <- four_tap_sample img x y c ;;
  Np.set dst j i c v.

(** The destination before the final [astype(np.uint8)]. *)
Definition four_tap_dst (img_array : Np.ndarray) (height width : Z)
  : result (Np.array3 Q) :=
  let img := Np.data img_array in
  let H := Np.dim0 img in
  let W := Np.dim1 img in
  let C := Np.dim2 img in
  let x_ratio := ratio W width in
  let y_ratio := ratio H height in
  let img := padding img H W C in
  let dH := height in
  let dW := width in
  dst <- Np.zeros 0%Q dH dW 3 ;;
  let h_x := F64.mul 1 x_ratio in
  let h_y := F64.mul 1 y_ratio in
  for_each (range C)
    (fun dst c =>
       for_each (range dH)
         (fun dst j =>
            for_each (range dW) (four_tap_step img h_x h_y c j) dst)
         dst)
    dst.

Definition four_tap_array (img_array : Np.ndarray) (height width : Z)
  : result Np.ndarray :=
  dst <- four_tap_dst img_array height width ;;
  Ok (Np.astype_uint8 dst).

End FourTap.

Section Kernels.

Variable padding : Np.array3 Z -> Z -> Z -> Z -> Np.array3 Q.
Variable bicubic_kernel : Q -> Q -> Q -> Q.
Variable lanczos_filter : Q -> Q.

Definition mitchell_array (img_array : Np.ndarray)
  (height width : Z) (B_m C_m : Q) : result Np.ndarray :=
  four_tap_array padding (fun x => bicubic_kernel x B_m C_m)
    img_array height width.

Definition mitchell (s : ImageObjectSingleton) (height width : Z)
  (B_m C_m : Q) : result unit * ImageObjectSingleton :=
  assign_img_array s
    (mitchell_array (img_array s) height width B_m C_m).

Definition lanczos_array (img_array : Np.ndarray) (height width : Z)
  : result Np.ndarray :=
  four_tap_array padding lanczos_filter img_array height width.

Definition lanczos (s : ImageObjectSingleton) (height width : Z)
  : result unit * ImageObjectSingleton :=
  assign_img_array s (lanczos_array (img_array s) height width).

(** The four resamplers, named as a resampling request selects them. *)
Inductive resampler : Type :=
| Nearest
| Bilinear
| Cubic (B_m C_m : Q)
| Lanczos.

Definition resample_array (k : resampler) (img_array : Np.ndarray)
  (height width : Z) : result Np.ndarray :=
  match k with
  | Nearest => resize_neighbour_array img_array height width
  | Bilinear => bilinear_resize_array img_array height width
  | Cubic B_m C_m => mitchell_array img_array height width B_m C_m
  | Lanczos => lanczos_array img_array height width
  end.

Definition resample (k : resampler) (s : ImageObjectSingleton)
  (height width : Z) : result unit * ImageObjectSingleton :=
  match k with
  | Nearest => resize_neighbour s height width
  | Bilinear => bilinear_resize s height width
  | Cubic B_m C_m => mitchell s height width B_m C_m
  | Lanczos => lanczos s height width
  end.

End Kernels.

End ImgFormatTransformer.

(** ** lib/image_transforms/image_kernels.py *)

Module ImageKernels.

Definition clamp (lo hi v : Z) : Z := Z.max lo (Z.min hi v).

(** Modelled from the spec: [padding] is not among the sources.  The
    plane is "padded by 2 samples on each border using edge
    replication": the result has [H + 4] rows and [W + 4] columns, and
    the item at [(r, c)] is the source item nearest to [(r - 2, c - 2)]. *)
Definition padding (img : Np.array3 Z) (H W C : Z) : Np.array3 Q :=
  Np.mk_array3 (H + 4) (W + 4) C
    (fun r c ch =>
       F64.of_int
         (Np.item img (clamp 0 (H - 1) (r - 2)) (clamp 0 (W - 1) (c - 2))
            ch)).

(** Modelled from the spec: [bicubic_kernel] is not among the sources.
    "The piecewise Mitchell-Netravali cubic polynomial evaluated on
    [|x|], zero outside support radius 2", with its two branches for
    [|x| < 1] and [1 <= |x| < 2]; the value is the polynomial's, rounded
    once. *)
Definition bicubic_kernel (x B C : Q) : Q :=
  let t := Qabs x in
  if Qle_bool 1 t then
    if Qle_bool 2 t then 0%Q
    else
      F64.rnd (((- B - 6 * C) * (t * t * t) + (6 * B + 30 * C) * (t * t)
                + (- (12) * B - 48 * C) * t + (8 * B + 24 * C)) / 6)%Q
  else
    F64.rnd (((12 - 9 * B - 6 * C) * (t * t * t)
              + (- (18) + 12 * B + 6 * C) * (t * t) + (6 - 2 * B)) / 6)%Q.

End ImageKernels.

(** ** lib/painters/hist_painter.py *)

Module ImageHistPlotter.

(** *** NumPy scalars and functions used by the painter *)

(** A [float64] that may be nan or infinite: NumPy divides by zero
    without raising. *)
Inductive float64 : Type :=
| Finite (q : Q)
| Nan
| Inf (negative : bool).

(** [a / b] on integer scalars or arrays: both become [float64]. *)
Definition true_divide (a b : Z) : float64 :=
  if b =? 0 then
    if a =? 0 then Nan else Inf (a <? 0)
  else Finite (F64.div (F64.of_int a) (F64.of_int b)).

(** [a + x] for an integer [a] and a [float64] [x]. *)
Definition add_int (a : Z) (x : float64) : float64 :=
  match x with
  | Finite q => Finite (F64.add (F64.of_int a) q)
  | _ => x
  end.

(** [astype(np.uint8)] of one [float64]: nan and the infinities give 0
    on x86-64. *)
Definition float64_to_uint8 (x : float64) : Z :=
  match x with
  | Finite q => Np.float_to_uint8 q
  | _ => 0
  end.

Fixpoint update_nth {A : Type} (n : nat) (f : A -> A) (l : list A)
  : list A :=
  match l, n with
  | [], _ => []
  | x :: l', O => f x :: l'
  | x :: l', S n' => x :: update_nth n' f l'
  end.

Fixpoint insert_sorted (x : Z) (l : list Z) : list Z :=
  match l with
  | [] => [x]
  | y :: l' => if x <=? y then x :: l else y :: insert_sorted x l'
  end.

Definition sorted (l : list Z) : list Z := fold_right insert_sorted [] l.

(** [_lerp(a, b, t)] of NumPy's quantile code. *)
Definition lerp (a b : Z) (t : Q) : Q :=
  let diff_b_a := F64.of_int (b - a) in
  if Qle_bool (1 # 2) t then
    F64.sub (F64.of_int b) (F64.mul diff_b_a (F64.sub 1 t))
  else F64.add (F64.of_int a) (F64.mul diff_b_a t).

(** [np.percentile(a, q)] with the default linear interpolation: the
    virtual index [(n - 1) * (q / 100)] is split into its floor and its
    fraction, and the two order statistics around it are interpolated. *)
Definition percentile (a : list Z) (q : Q) : result Q :=
  if Qle_bool 0 q && Qle_bool q 100 then
    let n := Z.of_nat (length a) in
    let arr := sorted a in
    let virtual_index := F64.mul (F64.of_int (n - 1)) (F64.div q 100) in
    let previous := F64.floor virtual_index in
    let gamma := F64.sub virtual_index (F64.of_int previous) in
    let last := Z.to_nat (n - 1) in
    if n - 1 <=? previous then Ok (F64.of_int (nth last arr 0))
    else
      Ok (lerp (nth (Z.to_nat previous) arr 0)
               (nth (Z.to_nat (previous + 1)) arr 0) gamma)
  else Raise ValueError.

(** Python's [min] and [max] of a list; the empty list is refused. *)
Definition py_min (l : list Z) : result Z :=
  match l with
  | [] => Raise ValueError
  | x :: l' => Ok (fold_left Z.min l' x)
  end.

Definition py_max (l : list Z) : result Z :=
  match l with
  | [] => Raise ValueError
  | x :: l' => Ok (fold_left Z.max l' x)
  end.

(** [np.cumsum] of a [uint8] array accumulates in [uint64]. *)
Fixpoint cumsum_from (acc : Z) (l : list Z) : list Z :=
  match l with
  | [] => []
  | x :: l' =>
      let acc' := (acc + x) mod 2 ^ 64 in acc' :: cumsum_from acc' l'
  end.

Definition cumsum (l : list Z) : list Z := cumsum_from 0 l.

(** *** [compute_hist_for_channel] *)

(** [hist[i] += 1].  The function is compiled by numba, which does not
    check bounds: for a sample outside the 256 buckets (a 16-bit sample
    above 255) the write lands outside the array, nothing is raised and
    the histogram returned does not show the count. *)
Definition increment (hist : list Q) (i : Z) : result (list Q) :=
  if (0 <=? i) && (i <? Z.of_nat (length hist)) then
    Ok (update_nth (Z.to_nat i) (fun h => F64.add h 1) hist)
  else Ok hist.

Definition compute_hist_for_channel (image : Np.array2 Z)
  : result (list Q) :=
  let image_h := Np.rows image in
  let image_w := Np.cols image in
  let hist := repeat 0%Q 256 in
  for_each (range image_h)
    (fun hist x =>
       for_each (range image_w)
         (fun hist y => increment hist (Np.item2 image x y))
         hist)
    hist.

(** *** [auto_contrast_correction] *)

(** What [formula] returns: [a_min] and [a_max] are [uint8] scalars, the
    linear branch yields a [float64]. *)
Inductive scalar : Type :=
| U8 (v : Z)
| F64v (x : float64).

(** The three branches of [formula]; [pixel > a_high] is all that is
    left for the last one.  [a_max - a_min] and [a_high - a_low] are
    [uint8] differences, the product with the Python int
    [pixel - a_low] is a 64-bit integer. *)
Definition formula (a_min a_max a_low a_high : Z) (pixel : Z) : scalar :=
  if pixel <? a_low then U8 a_min
  else if (a_low <=? pixel) && (pixel <=? a_high) then
    F64v (add_int a_min
            (true_divide ((pixel - a_low) * ((a_max - a_min) mod 256))
                         ((a_high - a_low) mod 256)))
  else U8 a_max.

Definition to_float64 (o : scalar) : float64 :=
  match o with
  | U8 v => Finite (F64.of_int v)
  | F64v x => x
  end.

(** Conversion of one output object to [uint8]: a [uint8] scalar is
    kept, a [float64] scalar is cast the way [astype] casts it; nothing
    is raised, nan and the infinities give 0. *)
Definition object_to_uint8 (o : scalar) : Z :=
  match o with
  | U8 v => v
  | F64v x => float64_to_uint8 x
  end.

(** [np.vectorize(f)(hist).astype(np.uint8)]: the output type is the
    type of [f] on the first item; the outputs are then converted from
    objects to that type. *)
Definition vectorize_astype_uint8 (f : Z -> scalar) (hist : list Z)
  : result (list Z) :=
  match hist with
  | [] => Raise ValueError
  | first :: _ =>
      let outputs := map f hist in
      match f first with
      | F64v _ => Ok (map (fun o => float64_to_uint8 (to_float64 o)) outputs)
      | U8 _ => Ok (map object_to_uint8 outputs)
      end
  end.

(** [if ignore_range:] holds for a float other than zero. *)
Definition truthy (ignore_range : option Q) : bool :=
  match ignore_range with
  | None => false
  | Some r => negb (Qeq_bool r 0)
  end.

(** [int(x)] of a float: truncation toward zero; an infinity raises
    [OverflowError]. *)
Definition py_int (x : Q) : result Z :=
  if F64.overflows x then Raise OverflowError else Ok (F64.trunc x).

(** [int(ignore_range * 100)] and [int((1 - ignore_range) * 100)], for a
    finite [ignore_range]. *)
Definition persentile_min (ignore_range : Q) : result Z :=
  py_int (F64.mul ignore_range 100).

Definition persentile_max (ignore_range : Q) : result Z :=
  py_int (F64.mul (F64.sub 1 ignore_range) 100).

(** The histogram the rest of the function works on:
    [compute_hist_for_channel(img).astype(np.uint8)]. *)
Definition hist_uint8 (img : Np.array2 Z) : result (list Z) :=
  hist <- compute_hist_for_channel img ;;
  Ok (map Np.float_to_uint8 hist).

(** The two ranks, then
    [q_low, q_high = np.percentile(hist, [persentile_min, persentile_max])] *)
Definition quantiles (hist : list Z) (ignore_range : Q) : result (Q * Q) :=
  p_min <- persentile_min ignore_range ;;
  p_max <- persentile_max ignore_range ;;
  q_low <- percentile hist (inject_Z p_min) ;;
  q_high <- percentile hist (inject_Z p_max) ;;
  Ok (q_low, q_high).

(** [a_min], [a_max], [a_low] and [a_high]. *)
Definition bounds (hist : list Z) (q_low q_high : Q)
  : result (Z * Z * Z * Z) :=
  a_min <- py_min hist ;;
  a_max <- py_max hist ;;
  a_low <- py_min (filter (fun h => Qle_bool q_low (inject_Z h)) hist) ;;
  a_high <- py_max (filter (fun h => Qle_bool (inject_Z h) q_high) hist) ;;
  Ok (a_min, a_max, a_low, a_high).

(** The percentile clip on the [uint8] histogram. *)
Definition clip (hist : list Z) (ignore_range : Q) : result (list Z) :=
  q <- quantiles hist ignore_range ;;
  b <- bounds hist (fst q) (snd q) ;;
  let '(a_min, a_max, a_low, a_high) := b in
  vectorize_astype_uint8 (formula a_min a_max a_low a_high) hist.

Definition auto_contrast_correction (img : Np.array2 Z)
  (ignore_range : option Q) : result (list Z) :=
  hist <- hist_uint8 img ;;
  match ignore_range with
  | Some r => if truthy ignore_range then clip hist r else Ok hist
  | None => Ok hist
  end.

(** *** [image_channel_from_hist] *)

(** The lookup table: the cumulative sum stretched to [0, 255]. *)
Definition tone_curve (hist : list Z) : result (list float64) :=
  let cs := cumsum hist in
  cs_min <- py_min cs ;;
  cs_max <- py_max cs ;;
  Ok (map (fun c =>
             true_divide (((c - cs_min) mod 2 ^ 64 * 255) mod 2 ^ 64)
                         ((cs_max - cs_min) mod 2 ^ 64))
          cs).

(** [cs[img_channel.flatten()].reshape(img_channel.shape)] *)
Definition lookup (cs : list Z) (img_channel : Np.array2 Z)
  : result (Np.array2 Z) :=
  let n := Z.of_nat (length cs) in
  _ <- for_each (range (Np.rows img_channel))
         (fun _ x =>
            for_each (range (Np.cols img_channel))
              (fun _ y =>
                 _ <- Np.index n (Np.item2 img_channel x y) ;; Ok tt)
              tt)
         tt ;;
  Ok (Np.mk_array2 (Np.rows img_channel) (Np.cols img_channel)
        (fun x y =>
           match Np.index n (Np.item2 img_channel x y) with
           | Ok i => nth (Z.to_nat i) cs 0
           | Raise _ => 0
           end)).

Definition image_channel_from_hist (hist : list Z)
  (img_channel : Np.array2 Z) : result (Np.array2 Z) :=
  cs <- tone_curve hist ;;
  let cs := map float64_to_uint8 cs in
  lookup cs img_channel.

(** *** [apply_contrast_correction] *)

(** One pass of the loop over the three channels. *)
Definition correct_channel (img_c : Np.array2 Z) (ignore_range : option Q)
  : result (Np.array2 Z) :=
  hist_corrected <- auto_contrast_correction img_c ignore_range ;;
  image_channel_from_hist hist_corrected img_c.

Definition apply_contrast_correction_array (img_array : Np.ndarray)
  (ignore_range : option Q) : result Np.ndarray :=
  let a := Np.data img_array in
  new_img <- Np.zeros 0 (Np.dim0 a) (Np.dim1 a) (Np.dim2 a) ;;
  new_img <-
    for_each [0; 1; 2]
      (fun new_img channel =>
         img_c <- Np.plane a channel ;;
         img_c <- correct_channel img_c ignore_range ;;
         Np.set_plane Np.int_to_uint8 new_img channel img_c)
      new_img ;;
  Ok (Np.mk_ndarray Np.uint8 new_img).

Definition apply_contrast_correction (s : ImageObjectSingleton)
  (ignore_range : option Q) : result unit * ImageObjectSingleton :=
  assign_img_array s
    (apply_contrast_correction_array (img_array s) ignore_range).

(** *** Quantities the properties are stated with *)

(** The samples of a plane in the order the loops visit them. *)
Definition samples (image : Np.array2 Z) : list Z :=
  flat_map (fun x => map (fun y => Np.item2 image x y)
                       (range (Np.cols image)))
           (range (Np.rows image)).

(** How many samples of the plane have the value [v]. *)
Definition occurrences (image : Np.array2 Z) (v : Z) : Z :=
  Z.of_nat (count_occ Z.eq_dec (samples image) v).

Definition sum_Z (l : list Z) : Z := fold_right Z.add 0 l.

(** The buckets [cs] after one more count for every item of [l]. *)
Fixpoint tally (l : list Z) (cs : list Z) : list Z :=
  match l with
  | [] => cs
  | i :: l' => tally l' (update_nth (Z.to_nat i) Z.succ cs)
  end.

(** The true bucket counts of a plane. *)
Definition counts (image : Np.array2 Z) : list Z :=
  map (occurrences image) (range 256).

(** A plane of [uint8] samples. *)
Definition uint8_plane (image : Np.array2 Z) : bool :=
  (0 <=? Np.rows image) && (0 <=? Np.cols image)
  && forallb (fun v => (0 <=? v) && (v <? 256)) (samples image).

(** The bounds as the specification words them: the [ignoreRange * 100]
    and [(1 - ignoreRange) * 100] percentiles. *)
Definition spec_quantiles (hist : list Z) (ignore_range : Q)
  : result (Q * Q) :=
  q_low <- percentile hist (ignore_range * 100)%Q ;;
  q_high <- percentile hist ((1 - ignore_range) * 100)%Q ;;
  Ok (q_low, q_high).

(** The piecewise-linear stretch of one bucket count, truncated to an
    integer. *)
Definition remap (a_min a_max a_low a_high : Z) (count : Z) : Z :=
  if count <? a_low then a_min
  else if count <=? a_high then
    F64.trunc
      (F64.add (F64.of_int a_min)
         (F64.div (F64.of_int ((count - a_low) * (a_max - a_min)))
                  (F64.of_int (a_high - a_low))))
  else a_max.

End ImageHistPlotter.

(** ** Inputs of the examples *)

Definition plane_2x3 : Np.array2 Z :=
  Np.mk_array2 2 3 (fun x y => if x =? 0 then 7 else 200 + y).

Definition plane_1x300 : Np.array2 Z := Np.mk_array2 1 300 (fun _ _ => 9).

Definition grid_2x3 : Np.ndarray :=
  Np.mk_ndarray Np.uint8
    (Np.mk_array3 2 3 3 (fun i j k => 100 * i + 10 * j + k)).

(** A 16-bit grid, as the reader decodes a P6 file whose maxval exceeds
    255. *)
Definition grid16_1x1 : Np.ndarray :=
  Np.mk_ndarray Np.uint16 (Np.mk_array3 1 1 3 (fun _ _ _ => 256)).

(** A square grid of four RGB pixels. *)
Definition grid_2x2 : Np.ndarray :=
  Np.mk_ndarray Np.uint8
    (Np.mk_array3 2 2 3 (fun i j k => 100 * i + 10 * j + k)).

(** A plane of a 16-bit grid: the samples 7 and 256. *)
Definition plane16_1x2 : Np.array2 Z :=
  Np.mk_array2 1 2 (fun _ y => if y =? 0 then 7 else 256).

Definition grid_1x1 : Np.ndarray :=
  Np.mk_ndarray Np.uint8 (Np.mk_array3 1 1 3 (fun _ _ _ => 40)).

(** One row of three RGB pixels: white, white, black. *)
Definition grid_1x3 : Np.ndarray :=
  Np.mk_ndarray Np.uint8
    (Np.mk_array3 1 3 3 (fun _ j _ => if j <? 2 then 255 else 0)).

(** One row of four grey pixels. *)
Definition grid_1x4 : Np.ndarray :=
  Np.mk_ndarray Np.uint8 (Np.mk_array3 1 4 3 (fun _ _ _ => 7)).

Definition current_1x3 : ImageObjectSingleton := mk_singleton grid_1x3.

(** One sample 0 followed by 256 samples 255. *)
Definition plane_1x257 : Np.array2 Z :=
  Np.mk_array2 1 257 (fun _ y => if y =? 0 then 0 else 255).

(** Ten samples: one 10, two 20, three 30 and four 40. *)
Definition plane_1x10 : Np.array2 Z :=
  Np.mk_array2 1 10
    (fun _ y => if y <? 1 then 10 else if y <? 3 then 20
                else if y <? 6 then 30 else 40).

(** ** Further functions of the two files *)

Module ImgFormatTransformerMore.

(** [p[i][j]] on a two-dimensional array. *)
Definition item_at {A : Type} (p : Np.array2 A) (i j : Z) : result A :=
  i' <- Np.index (Np.rows p) i ;;
  j' <- Np.index (Np.cols p) j ;;
  Ok (Np.item2 p i' j').

(** [get_pixel(source, col, row)]: the three planes are sliced and turned
    into floats, then read at [[col][row]]. *)
Definition get_pixel (source : Np.ndarray) (col row : Z)
  : result (Q * Q * Q) :=
  r <- Np.plane (Np.data source) 0 ;;
  g <- Np.plane (Np.data source) 1 ;;
  b <- Np.plane (Np.data source) 2 ;;
  rv <- item_at r col row ;;
  gv <- item_at g col row ;;
  bv <- item_at b col row ;;
  Ok (F64.of_int rv, F64.of_int gv, F64.of_int bv).

End ImgFormatTransformerMore.

Module ImageHistPlotterMore.

(** [np.cumsum] of a [float64] array: a running sum, rounded at every
    step. *)
Fixpoint cumsum_f64_from (acc : Q) (l : list Q) : list Q :=
  match l with
  | [] => []
  | x :: l' => let acc' := F64.add acc x in acc' :: cumsum_f64_from acc' l'
  end.

Definition cumsum_f64 (l : list Q) : list Q :=
  match l with
  | [] => []
  | x :: l' => x :: cumsum_f64_from x l'
  end.

(** What [create_hist_plot] hands to [get_hist_array] for a channel other
    than [-1]: the plane [img_array[:, :, channel]] and the cumulative sum
    of its histogram.  The histogram itself is not handed on: the bars of
    the first plot are matplotlib's own 90 bins of the plane.  (Channel
    [-1] goes through [cv2.cvtColor] and is not modelled.) *)
Definition create_hist_plot_data (img_array : Np.ndarray) (channel : Z)
  : result (Np.array2 Z * list Q) :=
  new_img_array <- Np.plane (Np.data img_array) channel ;;
  hist <- ImageHistPlotter.compute_hist_for_channel new_img_array ;;
  Ok (new_img_array, cumsum_f64 hist).

(** The running sums of a list of integers. *)
Fixpoint prefix_sums_from (acc : Z) (l : list Z) : list Z :=
  match l with
  | [] => []
  | x :: l' => (acc + x) :: prefix_sums_from (acc + x) l'
  end.

Definition prefix_sums (l : list Z) : list Z := prefix_sums_from 0 l.

(** Channel [c] of [out] holds what [image_channel_from_hist] makes of
    the same channel of [source] and of its bucket counts, each count
    reduced to eight bits. *)
Definition equalised (source out : Np.array3 Z) (c : Z) : Prop :=
  exists plane corrected,
    Np.plane source c = Ok plane
    /\ ImageHistPlotter.image_channel_from_hist
         (map (fun n => n mod 256) (ImageHistPlotter.counts plane)) plane
       = Ok corrected
    /\ forall i j, 0 <= i < Np.dim0 source -> 0 <= j < Np.dim1 source ->
         Np.item out i j c = Np.item2 corrected i j.

End ImageHistPlotterMore.

(** ** Inputs of the further examples *)

Definition hist_ones : list Z := 3 :: repeat 1 255.

Definition hist_first_only : list Z := 5 :: repeat 0 255.

Definition plane_0_255 : Np.array2 Z :=
  Np.mk_array2 1 2 (fun _ y => if y =? 0 then 0 else 255).

Definition grid_rgba_2x2 : Np.ndarray :=
  Np.mk_ndarray Np.uint8
    (Np.mk_array3 2 2 4
       (fun i j k => if k =? 3 then 255 else 60 * i + 20 * j + k)).

Definition hist_ramp : list Z :=
  map (fun k => k mod 7 * 10) (range 256).

(** A histogram whose first bucket is 4 and whose last is 2, all the
    others being empty. *)
Definition hist_sparse : list Z := 4 :: repeat 0 254 ++ [2].

Definition current_1x1_grey : ImageObjectSingleton :=
  mk_singleton
    (Np.mk_ndarray Np.uint8 (Np.mk_array3 1 1 1 (fun _ _ _ => 9))).

Definition grid_2x2_corner : Np.ndarray :=
  Np.mk_ndarray Np.uint8
    (Np.mk_array3 2 2 3
       (fun i j _ => if (i =? 1) && (j =? 1) then 255 else 0)).

Definition current_rgba : ImageObjectSingleton :=
  mk_singleton
    (Np.mk_ndarray Np.uint8 (Np.mk_array3 2 2 4 (fun _ _ _ => 200))).

(** * Properties *)

(** ** binary64 arithmetic on integers *)

Lemma rnd_compat (x y : Q) : (x == y)%Q -> F64.rnd x = F64.rnd y.
Proof.
  intros H. unfold F64.rnd. now rewrite (Qred_complete _ _ H).
Qed.

Lemma Qred_inject_Z (z : Z) : Qred (inject_Z z) = inject_Z z.
Proof.
  apply Qred_identity. simpl. apply Z.gcd_1_r.
Qed.

Lemma round_half_even_1 (n : Z) : F64.round_half_even n 1 = n.
Proof.
  unfold F64.round_half_even. rewrite Z.div_1_r, Z.mod_1_r. reflexivity.
Qed.

Lemma ldexp_exact (n e : Z) :
  e <= 0 -> F64.ldexp (n * 2 ^ (- e)) e = inject_Z n.
Proof.
  intros He. unfold F64.ldexp.
  destruct (Z.leb_spec 0 e) as [H0|H0].
  - assert (e = 0) by lia. subst e. change (- 0) with 0.
    now rewrite Z.pow_0_r, !Z.mul_1_r.
  - rewrite <- (Qred_inject_Z n). apply Qred_complete.
    unfold Qeq, inject_Z. simpl.
    assert (0 < 2 ^ (- e)) by (apply Z.pow_pos_nonneg; lia).
    rewrite Z2Pos.id by lia. lia.
Qed.

Lemma rnd_pos_int (n : Z) :
  0 < n < 2 ^ 53 -> F64.rnd_pos n 1 = inject_Z n.
Proof.
  intros [Hn Hlt].
  assert (Hk : 0 <= Z.log2 n < 53).
  { split; [apply Z.log2_nonneg|]. apply Z.log2_lt_pow2; lia. }
  assert (Hpow : 2 ^ Z.log2 n <= n) by (apply Z.log2_spec; lia).
  unfold F64.rnd_pos, F64.ilog2, F64.scale2.
  change (Z.log2 1) with 0. rewrite Z.sub_0_r.
  destruct (Z.leb_spec 0 (Z.log2 n)) as [_|]; [|lia].
  rewrite Z.mul_1_l.
  destruct (Z.leb_spec (2 ^ Z.log2 n) n) as [_|]; [|lia].
  destruct (Z.leb_spec 0 (Z.log2 n - 52)) as [H0|H0].
  - assert (He : Z.log2 n - 52 = 0) by lia. rewrite He.
    change (1 * 2 ^ 0) with 1. rewrite round_half_even_1.
    unfold F64.ldexp. change (0 <=? 0) with true. cbv iota.
    now rewrite Z.pow_0_r, Z.mul_1_r.
  - rewrite round_half_even_1. apply ldexp_exact. lia.
Qed.

(** An integer below 2^53 in magnitude is a binary64 number. *)
Lemma rnd_inject_Z (z : Z) :
  Z.abs z < 2 ^ 53 -> F64.rnd (inject_Z z) = inject_Z z.
Proof.
  intros Hz. unfold F64.rnd. rewrite Qred_inject_Z.
  destruct z as [|p|p]; simpl Qnum; simpl Qden; cbv iota.
  - reflexivity.
  - apply rnd_pos_int. lia.
  - rewrite rnd_pos_int by lia. reflexivity.
Qed.

Lemma of_int_exact (z : Z) : Z.abs z < 2 ^ 53 -> F64.of_int z = inject_Z z.
Proof. apply rnd_inject_Z. Qed.

Lemma add_int_exact (a b : Z) :
  Z.abs (a + b) < 2 ^ 53 ->
  F64.add (inject_Z a) (inject_Z b) = inject_Z (a + b).
Proof.
  intros H. unfold F64.add.
  rewrite (rnd_compat _ (inject_Z (a + b))) by (now rewrite inject_Z_plus).
  now apply rnd_inject_Z.
Qed.

Lemma mul_int_exact (a b : Z) :
  Z.abs (a * b) < 2 ^ 53 ->
  F64.mul (inject_Z a) (inject_Z b) = inject_Z (a * b).
Proof.
  intros H. unfold F64.mul.
  rewrite (rnd_compat _ (inject_Z (a * b))) by (now rewrite inject_Z_mult).
  now apply rnd_inject_Z.
Qed.

Lemma floor_inject_Z (z : Z) : F64.floor (inject_Z z) = z.
Proof. apply Qfloor_Z. Qed.

Lemma ceil_inject_Z (z : Z) : F64.ceil (inject_Z z) = z.
Proof. apply Qceiling_Z. Qed.

Lemma trunc_inject_Z (z : Z) : F64.trunc (inject_Z z) = z.
Proof.
  unfold F64.trunc. destruct (Qle_bool 0 (inject_Z z));
    [apply Qfloor_Z | apply Qceiling_Z].
Qed.

(** ** Rounding does not cross an integer *)

Lemma round_half_even_ge (n d k : Z) :
  0 < d -> k * d <= n -> k <= F64.round_half_even n d.
Proof.
  intros Hd Hk. unfold F64.round_half_even.
  pose proof (Z.div_mod n d ltac:(lia)) as E.
  pose proof (Z.mod_pos_bound n d Hd) as B.
  assert (k <= n / d) by nia.
  repeat match goal with |- context [if ?c then _ else _] => destruct c end;
    lia.
Qed.

Lemma round_half_even_le (n d k : Z) :
  0 < d -> n <= k * d -> F64.round_half_even n d <= k.
Proof.
  intros Hd Hk. unfold F64.round_half_even.
  pose proof (Z.div_mod n d ltac:(lia)) as E.
  pose proof (Z.mod_pos_bound n d Hd) as B.
  assert (n / d <= k) by nia.
  destruct (Z.ltb_spec (2 * (n mod d)) d) as [H1|H1]; [lia|].
  assert (n / d < k) by nia.
  repeat match goal with |- context [if ?c then _ else _] => destruct c end;
    lia.
Qed.

Lemma ilog2_le_52 (n d : Z) :
  0 < n -> 0 < d -> n < 2 ^ 53 * d -> F64.ilog2 n d <= 52.
Proof.
  intros Hn Hd Hlt. unfold F64.ilog2, F64.scale2.
  pose proof (Z.log2_spec n Hn) as [Hn1 Hn2].
  pose proof (Z.log2_spec d Hd) as [Hd1 Hd2].
  pose proof (Z.log2_nonneg n). pose proof (Z.log2_nonneg d).
  set (k := Z.log2 n - Z.log2 d).
  destruct (Z.le_gt_cases k 53) as [Hk|Hk].
  - destruct (Z.leb_spec 0 k) as [Hk0|Hk0].
    + destruct (Z.leb_spec (d * 2 ^ k) n) as [Hc|Hc]; [|lia].
      destruct (Z.eq_dec k 53) as [->|]; [|lia]. nia.
    + destruct (n * 2 ^ (- k) <? d); destruct (d <=? n * 2 ^ (- k)); lia.
  - exfalso.
    assert (E : Z.log2 n = Z.log2 d + 1 + (k - 1)) by (unfold k; lia).
    rewrite E in Hn1. rewrite Z.pow_add_r in Hn1 by lia.
    assert (2 ^ 53 <= 2 ^ (k - 1)) by (apply Z.pow_le_mono_r; lia).
    rewrite Z.add_1_r, <- Z.add_1_r in Hn1. nia.
Qed.

Lemma ldexp_value (m e : Z) :
  e <= 0 -> (F64.ldexp m e == m # Z.to_pos (2 ^ (- e)))%Q.
Proof.
  intros He. unfold F64.ldexp. destruct (Z.leb_spec 0 e).
  - assert (e = 0) by lia. subst e. simpl. unfold Qeq. simpl. lia.
  - apply Qred_correct.
Qed.

Lemma rnd_pos_bounds (n d a b : Z) :
  0 < n -> 0 < d -> 0 <= a -> b < 2 ^ 53 ->
  a * d <= n -> n <= b * d ->
  (inject_Z a <= F64.rnd_pos n d <= inject_Z b)%Q.
Proof.
  intros Hn Hd Ha Hb Hlo Hhi.
  assert (He : F64.ilog2 n d - 52 <= 0).
  { enough (F64.ilog2 n d <= 52) by lia. apply ilog2_le_52; nia. }
  unfold F64.rnd_pos. set (e := F64.ilog2 n d - 52) in *.
  assert (HP : 0 < 2 ^ (- e)) by (apply Z.pow_pos_nonneg; lia).
  set (P := 2 ^ (- e)) in *.
  assert (Hm : a * P <= F64.round_half_even
                 (fst (F64.scale2 n d e)) (snd (F64.scale2 n d e)) <= b * P).
  { unfold F64.scale2. destruct (Z.leb_spec 0 e).
    - assert (e = 0) by lia. subst P. replace e with 0 in * by lia.
      change (- 0) with 0. rewrite !Z.pow_0_r, !Z.mul_1_r. simpl fst; simpl snd.
      split; [apply round_half_even_ge | apply round_half_even_le]; lia.
    - simpl fst; simpl snd. fold P.
      split; [apply round_half_even_ge | apply round_half_even_le]; nia. }
  destruct (F64.scale2 n d e) as [n' d']. simpl fst in Hm; simpl snd in Hm.
  rewrite (ldexp_value _ _ He). fold P.
  unfold Qle, inject_Z. simpl Qnum; simpl Qden.
  rewrite Z2Pos.id by lia. lia.
Qed.

(** Rounding stays between two integers that enclose the exact value. *)
Lemma rnd_int_bounds (x : Q) (a b : Z) :
  Z.abs a < 2 ^ 53 -> Z.abs b < 2 ^ 53 ->
  (inject_Z a <= x <= inject_Z b)%Q ->
  (inject_Z a <= F64.rnd x <= inject_Z b)%Q.
Proof.
  intros Ha Hb [Hlo Hhi].
  rewrite <- (Qred_correct x) in Hlo, Hhi.
  unfold F64.rnd. destruct (Qred x) as [n d].
  unfold Qle, inject_Z in Hlo, Hhi. simpl in Hlo, Hhi.
  simpl Qnum; simpl Qden.
  destruct n as [|p|p].
  - unfold Qle, inject_Z; simpl. lia.
  - destruct (rnd_pos_bounds (Zpos p) (Zpos d) (Z.max 0 a) b) as [H1 H2];
      try lia.
    split; [|exact H2].
    eapply Qle_trans; [|exact H1].
    rewrite <- Zle_Qle. lia.
  - destruct (rnd_pos_bounds (Zpos p) (Zpos d) (Z.max 0 (- b)) (- a))
      as [H1 H2]; try lia.
    split.
    + apply Qopp_le_compat in H2.
      eapply Qle_trans; [|exact H2].
      unfold Qle, inject_Z; simpl. lia.
    + apply Qopp_le_compat in H1.
      eapply Qle_trans; [exact H1|].
      unfold Qle, inject_Z; simpl. lia.
Qed.

(** ** Loops *)



Lemma bind_ok {A B : Type} (m : result A) (k : A -> result B) (b : B) :
  bind m k = Ok b -> exists a, m = Ok a /\ k a = Ok b.
Proof.
  destruct m as [a|e]; simpl; intros H; [eauto | discriminate].
Qed.

Lemma for_each_app {S X : Type} (l1 l2 : list X) (f : S -> X -> result S)
  (s : S) :
  for_each (l1 ++ l2) f s = bind (for_each l1 f s) (for_each l2 f).
Proof.
  revert s. induction l1 as [|x l1 IH]; intros s; simpl; [reflexivity|].
  destruct (f s x); simpl; auto.
Qed.

Lemma for_each_map {S X Y : Type} (g : X -> Y) (l : list X)
  (f : S -> Y -> result S) (s : S) :
  for_each (map g l) f s = for_each l (fun s x => f s (g x)) s.
Proof.
  revert s. induction l as [|x l IH]; intros s; simpl; [reflexivity|].
  destruct (f s (g x)); simpl; auto.
Qed.

Lemma for_each_flat_map {S X Y : Type} (g : X -> list Y) (l : list X)
  (f : S -> Y -> result S) (s : S) :
  for_each (flat_map g l) f s = for_each l (fun s x => for_each (g x) f s) s.
Proof.
  revert s. induction l as [|x l IH]; intros s; simpl; [reflexivity|].
  rewrite for_each_app. destruct (for_each (g x) f s); simpl; auto.
Qed.

Lemma for_each_ext {S X : Type} (l : list X) (f g : S -> X -> result S) :
  (forall s x, In x l -> f s x = g s x) ->
  forall s, for_each l f s = for_each l g s.
Proof.
  induction l as [|x l IH]; intros H s; simpl; [reflexivity|].
  rewrite H by (simpl; auto). destruct (g s x); simpl; auto.
  apply IH. intros; apply H; simpl; auto.
Qed.

(** An invariant kept by every pass of the body holds after the loop. *)
Lemma for_each_invariant {S X : Type} (P : S -> Prop) (l : list X)
  (f : S -> X -> result S) :
  (forall s x s', In x l -> P s -> f s x = Ok s' -> P s') ->
  forall s s', P s -> for_each l f s = Ok s' -> P s'.
Proof.
  induction l as [|x l IH]; intros Hf s s' Hs H; simpl in H.
  - now inversion H; subst.
  - apply bind_ok in H as (s1 & H1 & H2).
    apply (IH (fun s x s' Hx => Hf s x s' (or_intror Hx)) s1 s');
      [|exact H2].
    apply (Hf s x s1); simpl; auto.
Qed.

Lemma range_length (n : Z) : length (range n) = Z.to_nat n.
Proof. unfold range. now rewrite length_map, length_seq. Qed.

Lemma in_range (n i : Z) : In i (range n) <-> 0 <= i < n.
Proof.
  unfold range. rewrite in_map_iff. split.
  - intros (k & <- & Hk). apply in_seq in Hk. lia.
  - intros H. exists (Z.to_nat i). split; [lia|]. apply in_seq. lia.
Qed.

Lemma nth_range (n : Z) (k : nat) :
  (k < Z.to_nat n)%nat -> nth k (range n) 0 = Z.of_nat k.
Proof.
  intros H. unfold range.
  change 0 with (Z.of_nat 0). rewrite map_nth, seq_nth by lia. reflexivity.
Qed.

Lemma nth_map_range {A : Type} (f : Z -> A) (n : Z) (k : nat) (d : A) :
  (k < Z.to_nat n)%nat -> nth k (map f (range n)) d = f (Z.of_nat k).
Proof.
  intros H.
  rewrite (nth_indep _ d (f 0)) by (now rewrite length_map, range_length).
  now rewrite map_nth, nth_range.
Qed.

(** ** The histogram *)

Import ImageHistPlotter.

Lemma update_nth_length {A : Type} (n : nat) (f : A -> A) (l : list A) :
  length (update_nth n f l) = length l.
Proof.
  revert n. induction l as [|x l IH]; intros [|n]; simpl; auto.
Qed.

Lemma update_nth_map {A B : Type} (g : A -> B) (f : B -> B) (f' : A -> A)
  (n : nat) (l : list A) :
  (forall x, In x l -> f (g x) = g (f' x)) ->
  update_nth n f (map g l) = map g (update_nth n f' l).
Proof.
  revert n. induction l as [|x l IH]; intros [|n] H; simpl; auto.
  - rewrite H by (simpl; auto). reflexivity.
  - rewrite IH; [reflexivity|]. intros y Hy. apply H. simpl; auto.
Qed.

Lemma update_nth_nth (n k : nat) (f : Z -> Z) (l : list Z) :
  (n < length l)%nat ->
  nth k (update_nth n f l) 0 = if Nat.eqb k n then f (nth k l 0) else nth k l 0.
Proof.
  revert n k. induction l as [|x l IH]; intros n k Hn; simpl in Hn; [lia|].
  destruct n as [|n], k as [|k]; simpl; auto.
  apply IH. lia.
Qed.

Lemma update_nth_in (n : nat) (f : Z -> Z) (l : list Z) (y : Z) :
  In y (update_nth n f l) -> In y l \/ exists x, In x l /\ y = f x.
Proof.
  revert n. induction l as [|x l IH]; intros [|n]; simpl; auto.
  - intros [<-|H]; eauto.
  - intros [<-|H]; auto. destruct (IH _ H) as [|(z & Hz & ->)]; eauto.
Qed.

Lemma sum_Z_update_nth (n : nat) (l : list Z) :
  (n < length l)%nat -> sum_Z (update_nth n Z.succ l) = sum_Z l + 1.
Proof.
  revert n. induction l as [|x l IH]; intros [|n] H; simpl in *; try lia.
  rewrite IH by lia. lia.
Qed.

Lemma tally_length (l cs : list Z) : length (tally l cs) = length cs.
Proof.
  revert cs. induction l as [|i l IH]; intros cs; simpl; [reflexivity|].
  now rewrite IH, update_nth_length.
Qed.

Lemma tally_sum (l cs : list Z) :
  Forall (fun i => 0 <= i < Z.of_nat (length cs)) l ->
  sum_Z (tally l cs) = sum_Z cs + Z.of_nat (length l).
Proof.
  revert cs. induction l as [|i l IH]; intros cs H; simpl tally.
  - simpl. lia.
  - inversion H as [|? ? Hi Hl]; subst.
    rewrite IH by (now rewrite update_nth_length).
    rewrite sum_Z_update_nth by lia. simpl length. lia.
Qed.

Lemma tally_nth (l cs : list Z) (v : Z) :
  Forall (fun i => 0 <= i < Z.of_nat (length cs)) l ->
  0 <= v ->
  nth (Z.to_nat v) (tally l cs) 0
  = nth (Z.to_nat v) cs 0 + Z.of_nat (count_occ Z.eq_dec l v).
Proof.
  revert cs. induction l as [|i l IH]; intros cs H Hv; simpl tally.
  - simpl. lia.
  - inversion H as [|? ? Hi Hl]; subst.
    rewrite IH by (rewrite ?update_nth_length; auto).
    rewrite update_nth_nth by lia. simpl count_occ.
    destruct (Z.eq_dec i v) as [->|Hne].
    + rewrite Nat.eqb_refl. lia.
    + destruct (Nat.eqb_spec (Z.to_nat v) (Z.to_nat i)); lia.
Qed.

(** The loop of [compute_hist_for_channel] keeps the buckets integral. *)
Lemma for_each_increment (l cs : list Z) :
  Forall (fun i => 0 <= i < Z.of_nat (length cs)) l ->
  Forall (fun c => 0 <= c /\ c + Z.of_nat (length l) < 2 ^ 53) cs ->
  for_each l increment (map inject_Z cs) = Ok (map inject_Z (tally l cs)).
Proof.
  revert cs. induction l as [|i l IH]; intros cs Hl Hcs; simpl; [reflexivity|].
  inversion Hl as [|? ? Hi Hl']; subst.
  unfold increment at 1. rewrite length_map.
  destruct (Z.leb_spec 0 i); [|lia].
  destruct (Z.ltb_spec i (Z.of_nat (length cs))); [|lia].
  simpl andb. cbv iota. simpl bind.
  rewrite (update_nth_map inject_Z _ Z.succ).
  - apply IH.
    + now rewrite update_nth_length.
    + rewrite Forall_forall in Hcs |- *. intros y Hy.
      simpl length in Hcs.
      destruct (update_nth_in _ _ _ _ Hy) as [Hin|(x & Hin & ->)];
        specialize (Hcs _ Hin); lia.
  - intros x Hx. rewrite Forall_forall in Hcs. specialize (Hcs _ Hx).
    simpl length in Hcs.
    change 1%Q with (inject_Z 1). rewrite add_int_exact by lia.
    f_equal; lia.
Qed.

Lemma samples_length (image : Np.array2 Z) :
  0 <= Np.rows image -> 0 <= Np.cols image ->
  Z.of_nat (length (samples image)) = Np.rows image * Np.cols image.
Proof.
  intros Hr Hc. unfold samples.
  assert (E : forall xs : list Z,
             length (flat_map (fun x => map (fun y => Np.item2 image x y)
                                          (range (Np.cols image))) xs)
             = (length xs * Z.to_nat (Np.cols image))%nat).
  { induction xs as [|x xs IH]; simpl; [reflexivity|].
    now rewrite length_app, length_map, range_length, IH. }
  rewrite E, range_length. nia.
Qed.

Lemma uint8_plane_spec (image : Np.array2 Z) :
  uint8_plane image = true ->
  0 <= Np.rows image /\ 0 <= Np.cols image
  /\ Forall (fun v => 0 <= v < 256) (samples image).
Proof.
  unfold uint8_plane. rewrite !andb_true_iff, forallb_forall, Forall_forall.
  intros [[Hr Hc] Hs]. repeat split; try lia;
    specialize (Hs _ H); rewrite andb_true_iff in Hs; lia.
Qed.

Lemma compute_hist_as_loop (image : Np.array2 Z) :
  compute_hist_for_channel image
  = for_each (samples image) increment (repeat 0%Q 256).
Proof.
  unfold compute_hist_for_channel, samples.
  rewrite for_each_flat_map.
  apply for_each_ext. intros s x _. now rewrite for_each_map.
Qed.

Lemma tally_samples (image : Np.array2 Z) :
  Forall (fun v => 0 <= v < 256) (samples image) ->
  tally (samples image) (repeat 0 256) = counts image.
Proof.
  intros Hs. apply (nth_ext _ _ 0 0).
  - unfold counts. now rewrite tally_length, length_map, range_length.
  - intros k Hk. rewrite tally_length, repeat_length in Hk.
    rewrite <- (Nat2Z.id k) at 1.
    rewrite tally_nth by (rewrite ?repeat_length; auto; lia).
    rewrite Nat2Z.id, nth_repeat. unfold counts.
    rewrite nth_map_range by (simpl; lia).
    unfold occurrences. lia.
Qed.

Lemma counts_length (image : Np.array2 Z) : length (counts image) = 256%nat.
Proof. unfold counts. now rewrite length_map, range_length. Qed.

Lemma counts_sum (image : Np.array2 Z) :
  uint8_plane image = true ->
  sum_Z (counts image) = Np.rows image * Np.cols image.
Proof.
  intros H. apply uint8_plane_spec in H as (Hr & Hc & Hs).
  rewrite <- tally_samples by exact Hs.
  rewrite tally_sum by (rewrite repeat_length; exact Hs).
  rewrite samples_length by lia. reflexivity.
Qed.

Lemma occurrences_bounds (image : Np.array2 Z) (v : Z) :
  0 <= Np.rows image -> 0 <= Np.cols image ->
  0 <= occurrences image v <= Np.rows image * Np.cols image.
Proof.
  intros Hr Hc. rewrite <- samples_length by lia. unfold occurrences.
  pose proof (count_occ_bound Z.eq_dec v (samples image)). lia.
Qed.

Lemma in_counts (image : Np.array2 Z) (c : Z) :
  In c (counts image) -> exists v, 0 <= v < 256 /\ c = occurrences image v.
Proof.
  unfold counts. rewrite in_map_iff. intros (v & <- & Hv).
  apply in_range in Hv. eauto.
Qed.

Lemma compute_hist_counts (image : Np.array2 Z) :
  uint8_plane image = true ->
  Np.rows image * Np.cols image < 2 ^ 53 ->
  compute_hist_for_channel image = Ok (map inject_Z (counts image)).
Proof.
  intros H Hsize. apply uint8_plane_spec in H as (Hr & Hc & Hs).
  rewrite compute_hist_as_loop, <- tally_samples by exact Hs.
  apply (for_each_increment (samples image) (repeat 0 256)).
  - now rewrite repeat_length.
  - apply Forall_forall. intros c Hin. apply repeat_spec in Hin. subst c.
    rewrite samples_length by lia. lia.
Qed.

(** C7, as amended: on a plane of 8-bit samples the histogram has 256
    buckets, bucket [v] holds the number of samples equal to [v] (every
    sample adds one to the bucket of its value and to no other), and the
    buckets sum to [width * height].  The buckets are [float64] numbers,
    which count exactly below 2^53. *)
Theorem compute_hist_sums_to_size (image : Np.array2 Z) :
  uint8_plane image = true ->
  Np.rows image * Np.cols image < 2 ^ 53 ->
  compute_hist_for_channel image = Ok (map inject_Z (counts image))
  /\ length (counts image) = 256%nat
  /\ (forall v, 0 <= v < 256 ->
        nth (Z.to_nat v) (counts image) 0 = occurrences image v)
  /\ sum_Z (counts image) = Np.rows image * Np.cols image.
Proof.
  intros H Hsize. split; [|split; [|split]].
  - now apply compute_hist_counts.
  - apply counts_length.
  - intros v Hv. unfold counts.
    rewrite nth_map_range by lia. f_equal. lia.
  - now apply counts_sum.
Qed.

Lemma compute_hist_sums_to_size_witness :
  compute_hist_for_channel plane_2x3 = Ok (map inject_Z (counts plane_2x3))
  /\ length (counts plane_2x3) = 256%nat
  /\ (forall v, 0 <= v < 256 ->
        nth (Z.to_nat v) (counts plane_2x3) 0 = occurrences plane_2x3 v)
  /\ sum_Z (counts plane_2x3) = Np.rows plane_2x3 * Np.cols plane_2x3.
Proof.
  apply (compute_hist_sums_to_size plane_2x3); [reflexivity | simpl; lia].
Defined.

(** C7, as stated, fails on a plane of a 16-bit grid: the sample 256 has
    no bucket, the loop does not check the index, and the histogram
    returned holds one count for the two samples. *)
Lemma compute_hist_misses_16_bit_sample :
  compute_hist_for_channel plane16_1x2
  = Ok (map inject_Z (update_nth 7 (fun _ => 1) (repeat 0 256)))
  /\ sum_Z (update_nth 7 (fun _ => 1) (repeat 0 256)) = 1
  /\ Np.rows plane16_1x2 * Np.cols plane16_1x2 = 2.
Proof. split; [|split]; vm_compute; reflexivity. Qed.

Lemma sum_Z_map_le (f : Z -> Z) (l : list Z) :
  (forall x, In x l -> f x <= x) -> sum_Z (map f l) <= sum_Z l.
Proof.
  induction l as [|x l IH]; intros H; simpl; [lia|].
  specialize (IH (fun y Hy => H y (or_intror Hy))).
  specialize (H x (or_introl eq_refl)). lia.
Qed.

Lemma sum_Z_map_lt (f : Z -> Z) (l : list Z) (y : Z) :
  (forall x, In x l -> f x <= x) -> In y l -> f y < y ->
  sum_Z (map f l) < sum_Z l.
Proof.
  induction l as [|x l IH]; intros H Hin Hy; simpl in *; [contradiction|].
  pose proof (H x (or_introl eq_refl)).
  destruct Hin as [->|Hin].
  - pose proof (sum_Z_map_le f l (fun z Hz => H z (or_intror Hz))). lia.
  - specialize (IH (fun z Hz => H z (or_intror Hz)) Hin Hy). lia.
Qed.

Lemma float_to_uint8_int (c : Z) :
  0 <= c < 2 ^ 31 -> Np.float_to_uint8 (inject_Z c) = c mod 256.
Proof.
  intros H. unfold Np.float_to_uint8. rewrite trunc_inject_Z.
  destruct (Z.leb_spec (- 2 ^ 31) c); [|lia].
  destruct (Z.ltb_spec c (2 ^ 31)); [|lia]. reflexivity.
Qed.

Lemma hist_uint8_counts (image : Np.array2 Z) :
  uint8_plane image = true ->
  Np.rows image * Np.cols image < 2 ^ 31 ->
  hist_uint8 image = Ok (map (fun c => c mod 256) (counts image)).
Proof.
  intros H Hsize. unfold hist_uint8.
  rewrite compute_hist_counts by (auto; lia). unfold bind.
  rewrite map_map. f_equal. apply map_ext_in. intros c Hc.
  apply in_counts in Hc as (v & _ & ->).
  apply uint8_plane_spec in H as (Hr & Hc & _).
  pose proof (occurrences_bounds image v Hr Hc).
  apply float_to_uint8_int. lia.
Qed.

(** C10: inside the contrast correction the histogram is cast to [uint8]
    before anything else uses it, so the clip and the tone curve work on
    the true counts modulo 256; as soon as one intensity occurs 256 times
    or more, these counts no longer sum to [width * height]. *)
Theorem contrast_histogram_wraps (image : Np.array2 Z) :
  uint8_plane image = true ->
  Np.rows image * Np.cols image < 2 ^ 31 ->
  let hist := map (fun c => c mod 256) (counts image) in
  hist_uint8 image = Ok hist
  /\ (forall v, 0 <= v < 256 ->
        nth (Z.to_nat v) hist 0 = occurrences image v mod 256)
  /\ (forall r, truthy (Some r) = true ->
        auto_contrast_correction image (Some r) = clip hist r)
  /\ (forall r, truthy r = false ->
        correct_channel image r = image_channel_from_hist hist image)
  /\ ((exists v, 0 <= v < 256 /\ 256 <= occurrences image v) ->
      sum_Z hist < Np.rows image * Np.cols image).
Proof.
  intros H Hsize hist.
  pose proof (hist_uint8_counts image H Hsize) as E. fold hist in E.
  pose proof H as Hwf. apply uint8_plane_spec in Hwf as (Hr & Hc & _).
  split; [|split; [|split; [|split]]].
  - exact E.
  - intros v Hv. unfold hist, counts. rewrite map_map.
    rewrite nth_map_range by lia. do 2 f_equal. lia.
  - intros r Hr'. unfold auto_contrast_correction. rewrite E.
    unfold bind. now rewrite Hr'.
  - intros r Hr'. unfold correct_channel, auto_contrast_correction.
    rewrite E. unfold bind. destruct r as [r|]; [rewrite Hr'|]; reflexivity.
  - intros (v & Hv & Hbig).
    rewrite <- (counts_sum image H). unfold hist.
    apply (sum_Z_map_lt _ _ (occurrences image v)).
    + intros c Hin. apply in_counts in Hin as (u & _ & ->).
      pose proof (occurrences_bounds image u Hr Hc).
      apply Z.mod_le; lia.
    + unfold counts. apply in_map. apply in_range. lia.
    + pose proof (Z.mod_pos_bound (occurrences image v) 256). lia.
Qed.

Lemma contrast_histogram_wraps_witness :
  let hist := map (fun c => c mod 256) (counts plane_1x300) in
  hist_uint8 plane_1x300 = Ok hist
  /\ (forall v, 0 <= v < 256 ->
        nth (Z.to_nat v) hist 0 = occurrences plane_1x300 v mod 256)
  /\ (forall r, truthy (Some r) = true ->
        auto_contrast_correction plane_1x300 (Some r) = clip hist r)
  /\ (forall r, truthy r = false ->
        correct_channel plane_1x300 r
        = image_channel_from_hist hist plane_1x300)
  /\ ((exists v, 0 <= v < 256 /\ 256 <= occurrences plane_1x300 v) ->
      sum_Z hist < Np.rows plane_1x300 * Np.cols plane_1x300).
Proof.
  apply (contrast_histogram_wraps plane_1x300); [reflexivity | simpl; lia].
Defined.

Example plane_1x300_wrapped :
  hist_uint8 plane_1x300 = Ok (update_nth 9 (fun _ => 44) (repeat 0 256)).
Proof. vm_compute. reflexivity. Qed.

(** ** Nearest neighbour *)

Import ImgFormatTransformer.

Lemma well_formed_spec (g : Np.ndarray) :
  Np.well_formed g = true ->
  forall i j k,
    0 <= i < Np.dim0 (Np.data g) -> 0 <= j < Np.dim1 (Np.data g) ->
    0 <= k < Np.dim2 (Np.data g) ->
    0 <= Np.item (Np.data g) i j k < 2 ^ Np.bits (Np.dt g).
Proof.
  unfold Np.well_formed. rewrite !andb_true_iff.
  intros [_ H] i j k Hi Hj Hk.
  rewrite forallb_forall in H. specialize (H i (proj2 (in_range _ _) Hi)).
  rewrite forallb_forall in H. specialize (H j (proj2 (in_range _ _) Hj)).
  rewrite forallb_forall in H. specialize (H k (proj2 (in_range _ _) Hk)).
  rewrite andb_true_iff in H. lia.
Qed.

Lemma py_truediv_self (n : Z) : n <> 0 -> py_truediv n n = Ok 1%Q.
Proof.
  intros Hn. unfold py_truediv.
  destruct (Z.eqb_spec n 0); [contradiction|].
  f_equal. rewrite (rnd_compat _ (inject_Z 1)).
  - now apply rnd_inject_Z.
  - change (inject_Z 1) with 1%Q. apply Qmult_inv_r.
    unfold Qeq; simpl. lia.
Qed.

Lemma arange_unit_step (n : Z) :
  1 <= n < 2 ^ 53 -> Np.arange n 1 = Ok (map inject_Z (range n)).
Proof.
  intros Hn. unfold Np.arange. change (Qeq_bool 1 0) with false. cbv iota.
  assert (Elen : F64.ceil (F64.div (F64.of_int n) 1) = n).
  { rewrite of_int_exact by lia. unfold F64.div.
    rewrite (rnd_compat _ (inject_Z n)) by (unfold Qeq; simpl; lia).
    rewrite rnd_inject_Z by lia. apply ceil_inject_Z. }
  rewrite Elen. f_equal. apply map_ext_in. intros i Hi.
  apply in_range in Hi.
  assert (E1 : F64.add 0 1 = 1%Q) by (vm_compute; reflexivity).
  assert (Ed : F64.sub (F64.add 0 1) 0 = 1%Q) by (vm_compute; reflexivity).
  destruct (Z.eqb_spec i 0) as [->|H0]; [reflexivity|].
  destruct (Z.eqb_spec i 1) as [->|H1]; [exact E1|].
  rewrite Ed, of_int_exact by lia.
  change 1%Q with (inject_Z 1). rewrite mul_int_exact by lia.
  change 0%Q with (inject_Z 0). rewrite add_int_exact by lia.
  f_equal. lia.
Qed.

Lemma resize_index_unit (n : Z) :
  1 <= n < 2 ^ 53 -> resize_index n 1 = Ok (range n).
Proof.
  intros Hn. unfold resize_index. rewrite arange_unit_step by exact Hn.
  unfold bind. f_equal. rewrite !map_map.
  rewrite <- (map_id (range n)) at 2. apply map_ext_in. intros i Hi.
  apply in_range in Hi. rewrite ceil_inject_Z.
  destruct (Z.eqb_spec i n); lia.
Qed.

Lemma index_in_bounds (n i : Z) : 0 <= i < n -> Np.index n i = Ok i.
Proof.
  intros H. unfold Np.index.
  destruct (Z.leb_spec 0 i); [|lia]. destruct (Z.ltb_spec i n); [|lia].
  reflexivity.
Qed.

Lemma indices_in_bounds (n : Z) (l : list Z) :
  Forall (fun i => 0 <= i < n) l -> Np.indices n l = Ok l.
Proof.
  induction 1 as [|i l Hi Hl IH]; simpl; [reflexivity|].
  now rewrite index_in_bounds, IH.
Qed.

Lemma indices_range (n : Z) : Np.indices n (range n) = Ok (range n).
Proof.
  apply indices_in_bounds, Forall_forall. intros i. apply in_range.
Qed.

Lemma int_to_uint8_id (v : Z) : 0 <= v < 256 -> Np.int_to_uint8 v = v.
Proof. intros H. unfold Np.int_to_uint8. now apply Z.mod_small. Qed.

(** The plane picked by [p[range(rows), :][:, range(cols)]] is [p]. *)
Lemma take_all (p : Np.array2 Z) :
  0 <= Np.rows p -> 0 <= Np.cols p ->
  exists q,
    bind (Np.take_rows p (range (Np.rows p)))
         (fun r => Np.take_cols r (range (Np.cols p))) = Ok q
    /\ Np.rows q = Np.rows p /\ Np.cols q = Np.cols p
    /\ forall i j, 0 <= i < Np.rows p -> 0 <= j < Np.cols p ->
         Np.item2 q i j = Np.item2 p i j.
Proof.
  intros Hr Hc. unfold Np.take_rows. rewrite indices_range. unfold bind.
  unfold Np.take_cols. simpl Np.cols. rewrite indices_range. unfold bind.
  eexists. split; [reflexivity|]. simpl.
  rewrite !range_length. repeat split; try lia.
  intros i j Hi Hj. rewrite !nth_range by lia. f_equal; lia.
Qed.

Lemma plane_in_bounds {A : Type} (a : Np.array3 A) (c : Z) :
  0 <= c < Np.dim2 a ->
  Np.plane a c
  = Ok (Np.mk_array2 (Np.dim0 a) (Np.dim1 a) (fun i j => Np.item a i j c)).
Proof.
  intros H. unfold Np.plane. now rewrite index_in_bounds.
Qed.

Lemma take_rows_range {A : Type} (p : Np.array2 A) :
  Np.take_rows p (range (Np.rows p))
  = Ok (Np.mk_array2 (Z.of_nat (length (range (Np.rows p)))) (Np.cols p)
          (fun i j => Np.item2 p (nth (Z.to_nat i) (range (Np.rows p)) 0) j)).
Proof. unfold Np.take_rows. now rewrite indices_range. Qed.

Lemma take_cols_range {A : Type} (p : Np.array2 A) :
  Np.take_cols p (range (Np.cols p))
  = Ok (Np.mk_array2 (Np.rows p) (Z.of_nat (length (range (Np.cols p))))
          (fun i j => Np.item2 p i (nth (Z.to_nat j) (range (Np.cols p)) 0))).
Proof. unfold Np.take_cols. now rewrite indices_range. Qed.

Lemma zeros_ok {A : Type} (zero : A) (d0 d1 d2 : Z) :
  0 <= d0 -> 0 <= d1 -> 0 <= d2 ->
  Np.zeros zero d0 d1 d2 = Ok (Np.mk_array3 d0 d1 d2 (fun _ _ _ => zero)).
Proof.
  intros H0 H1 H2. unfold Np.zeros.
  destruct (Z.ltb_spec d0 0); [lia|]. destruct (Z.ltb_spec d1 0); [lia|].
  destruct (Z.ltb_spec d2 0); [lia|]. reflexivity.
Qed.

(** With the length of the first axis for [width] and the length of the
    second for [height], the nearest-neighbour resampler returns an 8-bit
    grid of three channels sample for sample. *)
Lemma resize_neighbour_own_axes (g : Np.ndarray) :
  Np.dt g = Np.uint8 ->
  Np.well_formed g = true ->
  Np.dim2 (Np.data g) = 3 ->
  1 <= Np.dim0 (Np.data g) < 2 ^ 53 ->
  1 <= Np.dim1 (Np.data g) < 2 ^ 53 ->
  exists r,
    resize_neighbour_array g (Np.dim1 (Np.data g)) (Np.dim0 (Np.data g))
    = Ok r
    /\ Np.dt r = Np.uint8
    /\ Np.dim0 (Np.data r) = Np.dim0 (Np.data g)
    /\ Np.dim1 (Np.data r) = Np.dim1 (Np.data g)
    /\ Np.dim2 (Np.data r) = Np.dim2 (Np.data g)
    /\ forall i j k,
         0 <= i < Np.dim0 (Np.data g) -> 0 <= j < Np.dim1 (Np.data g) ->
         0 <= k < Np.dim2 (Np.data g) ->
         Np.item (Np.data r) i j k = Np.item (Np.data g) i j k.
Proof.
  intros Hdt Hwf Hc Hw Hh.
  pose proof (well_formed_spec g Hwf) as Hs. rewrite Hdt in Hs.
  change (2 ^ Np.bits Np.uint8) with 256 in Hs.
  destruct g as [t [W H C src]].
  cbn [Np.data Np.dt Np.dim0 Np.dim1 Np.dim2 Np.item] in *. subst t C.
  unfold resize_neighbour_array.
  cbn [Np.data Np.dim0 Np.dim1 Np.dim2].
  rewrite !plane_in_bounds by (cbn [Np.dim2]; lia). cbn [bind].
  rewrite zeros_ok by lia. cbn [bind].
  rewrite !py_truediv_self by lia. cbn [bind].
  rewrite !resize_index_unit by lia. cbn [bind].
  cbn [Np.dim0 Np.dim1 Np.dim2 Np.item].
  repeat (rewrite (take_rows_range (Np.mk_array2 W H _)); cbn [bind];
          cbn [Np.rows Np.cols];
          rewrite (take_cols_range (Np.mk_array2 _ H _)); cbn [bind];
          cbn [Np.rows Np.cols Np.item2];
          unfold Np.set_plane; cbn [Np.dim0 Np.dim1 Np.dim2];
          rewrite index_in_bounds by lia; cbn [bind];
          cbn [Np.rows Np.cols];
          unfold Np.broadcasts; rewrite !range_length, !Z2Nat.id by lia;
          rewrite !Z.eqb_refl; cbn [orb andb]).
  eexists. split; [reflexivity|].
  cbn [Np.data Np.dt Np.dim0 Np.dim1 Np.dim2 Np.item Np.item2].
  split; [reflexivity|]. split; [reflexivity|]. split; [reflexivity|].
  split; [reflexivity|].
  intros i j k Hi Hj Hk.
  assert (Ei : (if W =? 1 then 0 else i) = i)
    by (destruct (Z.eqb_spec W 1); lia).
  assert (Ej : (if H =? 1 then 0 else j) = j)
    by (destruct (Z.eqb_spec H 1); lia).
  rewrite Ei, Ej, !nth_range by lia. rewrite !Z2Nat.id by lia.
  assert (k = 0 \/ k = 1 \/ k = 2) as [-> | [-> | ->]] by lia;
    cbn [Z.eqb Pos.eqb]; apply int_to_uint8_id, Hs; lia.
Qed.

(** C3, as amended: on an 8-bit grid of three channels whose width equals
    its height, nearest-neighbour resampling to the grid's own width and
    height returns a grid of the same shape whose every sample is the
    source's. *)
Theorem resize_neighbour_same_size (g : Np.ndarray) :
  Np.dt g = Np.uint8 ->
  Np.well_formed g = true ->
  Np.channels_of g = 3 ->
  1 <= Np.height_of g < 2 ^ 53 ->
  Np.width_of g = Np.height_of g ->
  exists r,
    resize_neighbour_array g (Np.height_of g) (Np.width_of g) = Ok r
    /\ Np.dt r = Np.uint8
    /\ Np.height_of r = Np.height_of g
    /\ Np.width_of r = Np.width_of g
    /\ Np.channels_of r = Np.channels_of g
    /\ forall i j k,
         0 <= i < Np.height_of g -> 0 <= j < Np.width_of g ->
         0 <= k < Np.channels_of g ->
         Np.item (Np.data r) i j k = Np.item (Np.data g) i j k.
Proof.
  unfold Np.channels_of, Np.height_of, Np.width_of.
  intros Hdt Hwf Hc Hh Hsq.
  destruct (resize_neighbour_own_axes g Hdt Hwf Hc Hh ltac:(lia))
    as (r & Hr).
  rewrite Hsq in Hr. exists r. rewrite Hsq. exact Hr.
Qed.

Lemma resize_neighbour_same_size_witness :
  exists r,
    resize_neighbour_array grid_2x2 2 2 = Ok r
    /\ Np.dt r = Np.uint8
    /\ Np.height_of r = 2
    /\ Np.width_of r = 2
    /\ Np.channels_of r = 3
    /\ forall i j k,
         0 <= i < 2 -> 0 <= j < 2 -> 0 <= k < 3 ->
         Np.item (Np.data r) i j k = 100 * i + 10 * j + k.
Proof.
  apply (resize_neighbour_same_size grid_2x2);
    [reflexivity | reflexivity | reflexivity
    | unfold Np.height_of; simpl; lia | reflexivity].
Defined.

(** C3, as stated, fails on a 16-bit grid: the destination is [uint8], and
    the sample 256 comes back as 0. *)
Lemma resize_neighbour_same_size_16_bit :
  Np.well_formed grid16_1x1 = true
  /\ match
       resize_neighbour_array grid16_1x1
         (Np.height_of grid16_1x1) (Np.width_of grid16_1x1)
     with
     | Ok r =>
         Np.item (Np.data grid16_1x1) 0 0 0 = 256
         /\ Np.item (Np.data r) 0 0 0 = 0
     | Raise _ => False
     end.
Proof.
  split; [reflexivity|]. vm_compute. split; reflexivity.
Qed.

(** ** Shape and range of the resampled grid *)

Lemma float_to_uint8_range (x : Q) : 0 <= Np.float_to_uint8 x < 256.
Proof.
  unfold Np.float_to_uint8.
  destruct ((- 2 ^ 31 <=? F64.trunc x) && (F64.trunc x <? 2 ^ 31));
    [apply Z.mod_pos_bound|]; lia.
Qed.

Lemma int_to_uint8_range (v : Z) : 0 <= Np.int_to_uint8 v < 256.
Proof. unfold Np.int_to_uint8. apply Z.mod_pos_bound. lia. Qed.

Lemma zeros_uint8_shaped (d0 d1 d2 : Z) (a : Np.array3 Z) :
  Np.zeros 0 d0 d1 d2 = Ok a -> Np.uint8_shaped d0 d1 d2 a.
Proof.
  unfold Np.zeros.
  destruct ((d0 <? 0) || (d1 <? 0) || (d2 <? 0)); [discriminate|].
  intros E. inversion E; subst. repeat split; simpl; lia.
Qed.

Lemma set_pixel_uint8_shaped (d0 d1 d2 : Z) (a a' : Np.array3 Z)
  (i j n : Z) (pixel : Z -> Q) :
  Np.uint8_shaped d0 d1 d2 a ->
  Np.set_pixel Np.float_to_uint8 a i j n pixel = Ok a' ->
  Np.uint8_shaped d0 d1 d2 a'.
Proof.
  intros (H0 & H1 & H2 & Hr) E. unfold Np.set_pixel in E.
  apply bind_ok in E as (i' & _ & E). apply bind_ok in E as (j' & _ & E).
  destruct (Np.broadcasts n (Np.dim2 a)); [|discriminate].
  inversion E; subst. repeat split; simpl; auto.
  - destruct ((i0 =? i') && (j0 =? j')); [apply float_to_uint8_range|apply Hr].
  - destruct ((i0 =? i') && (j0 =? j')); [apply float_to_uint8_range|apply Hr].
Qed.

Lemma set_plane_uint8_shaped (d0 d1 d2 : Z) (a a' : Np.array3 Z) (c : Z)
  (p : Np.array2 Z) :
  Np.uint8_shaped d0 d1 d2 a ->
  Np.set_plane Np.int_to_uint8 a c p = Ok a' ->
  Np.uint8_shaped d0 d1 d2 a'.
Proof.
  intros (H0 & H1 & H2 & Hr) E. unfold Np.set_plane in E.
  apply bind_ok in E as (c' & _ & E).
  destruct (Np.broadcasts (Np.rows p) (Np.dim0 a)
            && Np.broadcasts (Np.cols p) (Np.dim1 a)); [|discriminate].
  inversion E; subst. repeat split; simpl; auto.
  - destruct (k =? c'); [apply int_to_uint8_range|apply Hr].
  - destruct (k =? c'); [apply int_to_uint8_range|apply Hr].
Qed.

Lemma resize_neighbour_uint8_shaped (g r : Np.ndarray) (height width : Z) :
  resize_neighbour_array g height width = Ok r ->
  Np.dt r = Np.uint8
  /\ Np.uint8_shaped width height (Np.dim2 (Np.data g)) (Np.data r).
Proof.
  unfold resize_neighbour_array. intros E.
  repeat (apply bind_ok in E as (? & ? & E)).
  inversion E; subst. split; [reflexivity|]. simpl Np.data.
  repeat match goal with
         | H : Np.set_plane _ _ _ _ = Ok ?a |- Np.uint8_shaped _ _ _ ?a =>
             apply (set_plane_uint8_shaped _ _ _ _ _ _ _) with (2 := H)
         end.
  now apply zeros_uint8_shaped.
Qed.

Lemma bilinear_uint8_shaped (g r : Np.ndarray) (height width : Z) :
  bilinear_resize_array g height width = Ok r ->
  Np.dt r = Np.uint8 /\ Np.uint8_shaped height width 3 (Np.data r).
Proof.
  unfold bilinear_resize_array. intros E.
  apply bind_ok in E as (a0 & E0 & E). apply bind_ok in E as (a1 & E1 & E).
  inversion E; subst. split; [reflexivity|]. simpl Np.data.
  assert (P0 : Np.uint8_shaped height width 3 a0).
  { unfold image_new_rgb in E0.
    destruct ((width <? 0) || (height <? 0)); [discriminate|].
    now apply zeros_uint8_shaped. }
  eapply (for_each_invariant (Np.uint8_shaped height width 3));
    [|exact P0|exact E1].
  intros s i s' _ Hs Ei. cbv beta in Ei.
  eapply (for_each_invariant (Np.uint8_shaped height width 3));
    [|exact Hs|exact Ei].
  intros t j t' _ Ht Estep. unfold bilinear_step in Estep.
  do 4 (apply bind_ok in Estep as (? & _ & Estep)).
  eapply set_pixel_uint8_shaped; eauto.
Qed.

Lemma set_dims {A : Type} (a a' : Np.array3 A) (i j k : Z) (v : A) :
  Np.set a i j k v = Ok a' ->
  Np.dim0 a' = Np.dim0 a /\ Np.dim1 a' = Np.dim1 a /\ Np.dim2 a' = Np.dim2 a.
Proof.
  unfold Np.set. intros E. repeat (apply bind_ok in E as (? & _ & E)).
  inversion E; subst. simpl. auto.
Qed.

(** The body of [four_tap_step], stated from the expanded side so that
    checking it unfolds [four_tap_step] and nothing below it. *)
Lemma four_tap_step_unfold (kernel : Q -> Q) (img : Np.array3 Q)
  (h_x h_y : Q) (c j : Z) (dst : Np.array3 Q) (i : Z) :
  bind (four_tap_sample kernel img
          (F64.add (F64.mul (F64.of_int i) h_x) 2)
          (F64.add (F64.mul (F64.of_int j) h_y) 2) c)
       (fun v => Np.set dst j i c v)
  = four_tap_step kernel img h_x h_y c j dst i.
Proof. exact (eq_refl (bind _ _)). Qed.

Lemma four_tap_step_shape (kernel : Q -> Q) (img : Np.array3 Q)
  (h_x h_y : Q) (c j i d0 d1 d2 : Z) (u u' : Np.array3 Q) :
  Np.has_shape d0 d1 d2 u ->
  four_tap_step kernel img h_x h_y c j u i = Ok u' ->
  Np.has_shape d0 d1 d2 u'.
Proof.
  intros Hu Estep. rewrite <- four_tap_step_unfold in Estep.
  apply bind_ok in Estep as (v & _ & Estep).
  apply set_dims in Estep.
  destruct Hu as (A0 & A1 & A2), Estep as (B0 & B1 & B2).
  repeat split; congruence.
Qed.

Lemma four_tap_dst_dims (padding : Np.array3 Z -> Z -> Z -> Z -> Np.array3 Q)
  (kernel : Q -> Q) (g : Np.ndarray) (height width : Z) (dst : Np.array3 Q) :
  four_tap_dst padding kernel g height width = Ok dst ->
  Np.dim0 dst = height /\ Np.dim1 dst = width /\ Np.dim2 dst = 3.
Proof.
  unfold four_tap_dst. intros E. apply bind_ok in E as (a0 & E0 & E).
  assert (P0 : Np.has_shape height width 3 a0).
  { unfold Np.zeros in E0.
    destruct ((height <? 0) || (width <? 0) || (3 <? 0)); [discriminate|].
    inversion E0; subst. repeat split. }
  eapply (for_each_invariant (Np.has_shape height width 3));
    [|exact P0|exact E].
  intros s c s' _ Hs Ec. cbv beta in Ec.
  eapply (for_each_invariant (Np.has_shape height width 3));
    [|exact Hs|exact Ec].
  intros t j t' _ Ht Ej. cbv beta in Ej.
  eapply (for_each_invariant (Np.has_shape height width 3));
    [|exact Ht|exact Ej].
  intros u i u' _ Hu Estep. eapply four_tap_step_shape; eauto.
Qed.

Lemma four_tap_uint8_shaped
  (padding : Np.array3 Z -> Z -> Z -> Z -> Np.array3 Q) (kernel : Q -> Q)
  (g r : Np.ndarray) (height width : Z) :
  four_tap_array padding kernel g height width = Ok r ->
  Np.dt r = Np.uint8 /\ Np.uint8_shaped height width 3 (Np.data r).
Proof.
  unfold four_tap_array. intros E. apply bind_ok in E as (dst & Ed & E).
  inversion E; subst. split; [reflexivity|].
  apply four_tap_dst_dims in Ed as (H0 & H1 & H2).
  repeat split; simpl; auto; apply float_to_uint8_range.
Qed.

(** ** Nearest neighbour: where the samples come from *)

Lemma index_ok (n i i' : Z) : Np.index n i = Ok i' -> 0 <= i' < n.
Proof.
  unfold Np.index.
  destruct (Z.leb_spec 0 i); destruct (Z.ltb_spec i n); cbn [andb];
    try (intros E; inversion E; lia);
    destruct (Z.leb_spec (- n) i); destruct (Z.ltb_spec i 0); cbn [andb];
    intros E; inversion E; lia.
Qed.

Lemma index_ok_nonneg (n i i' : Z) :
  0 <= i -> Np.index n i = Ok i' -> i' = i /\ i < n.
Proof.
  intros Hi. unfold Np.index.
  destruct (Z.leb_spec 0 i); [|lia]. destruct (Z.ltb_spec i n); cbn [andb].
  - intros E. inversion E. lia.
  - destruct (Z.ltb_spec i 0); [lia|]. rewrite andb_false_r. discriminate.
Qed.

Lemma indices_ok (n : Z) (l l' : list Z) :
  Np.indices n l = Ok l' -> Forall (fun i => 0 <= i < n) l'.
Proof.
  revert l'. induction l as [|i l IH]; intros l' E; simpl in E.
  - inversion E. constructor.
  - apply bind_ok in E as (i' & Ei & E). apply bind_ok in E as (r & Er & E).
    inversion E; subst. constructor; [now apply index_ok in Ei|auto].
Qed.

Lemma nth_in_range (n : Z) (l : list Z) (k : Z) :
  Forall (fun i => 0 <= i < n) l -> 0 <= k < Z.of_nat (length l) ->
  0 <= nth (Z.to_nat k) l 0 < n.
Proof.
  intros Hl Hk. rewrite Forall_forall in Hl. apply Hl. apply nth_In. lia.
Qed.

Lemma take_rows_source {A : Type} (p r : Np.array2 A) (idx : list Z) :
  Np.take_rows p idx = Ok r ->
  Np.cols r = Np.cols p
  /\ forall i j, 0 <= i < Np.rows r ->
       exists i', 0 <= i' < Np.rows p /\ Np.item2 r i j = Np.item2 p i' j.
Proof.
  unfold Np.take_rows. intros E. apply bind_ok in E as (idx' & Ei & E).
  apply indices_ok in Ei. inversion E; subst. cbn. split; [reflexivity|].
  intros i j Hi. exists (nth (Z.to_nat i) idx' 0).
  split; [now apply nth_in_range|reflexivity].
Qed.

Lemma take_cols_source {A : Type} (p r : Np.array2 A) (idx : list Z) :
  Np.take_cols p idx = Ok r ->
  Np.rows r = Np.rows p
  /\ forall i j, 0 <= j < Np.cols r ->
       exists j', 0 <= j' < Np.cols p /\ Np.item2 r i j = Np.item2 p i j'.
Proof.
  unfold Np.take_cols. intros E. apply bind_ok in E as (idx' & Ei & E).
  apply indices_ok in Ei. inversion E; subst. cbn. split; [reflexivity|].
  intros i j Hj. exists (nth (Z.to_nat j) idx' 0).
  split; [now apply nth_in_range|reflexivity].
Qed.

Lemma set_plane_source {A B : Type} (cast : B -> A) (a a' : Np.array3 A)
  (c : Z) (p : Np.array2 B) :
  0 <= c ->
  Np.set_plane cast a c p = Ok a' ->
  Np.has_shape (Np.dim0 a) (Np.dim1 a) (Np.dim2 a) a'
  /\ c < Np.dim2 a
  /\ (forall i j, 0 <= i < Np.dim0 a -> 0 <= j < Np.dim1 a ->
        exists i' j',
          0 <= i' < Np.rows p /\ 0 <= j' < Np.cols p
          /\ Np.item a' i j c = cast (Np.item2 p i' j'))
  /\ (forall i j k, k <> c -> Np.item a' i j k = Np.item a i j k).
Proof.
  intros Hc. unfold Np.set_plane. intros E.
  apply bind_ok in E as (c' & Ec & E).
  apply index_ok_nonneg in Ec as (-> & Hlt); [|exact Hc].
  unfold Np.broadcasts in E.
  destruct (Z.eqb_spec (Np.rows p) (Np.dim0 a)) as [Hr|Hr];
    destruct (Z.eqb_spec (Np.rows p) 1) as [Hr1|Hr1];
    destruct (Z.eqb_spec (Np.cols p) (Np.dim1 a)) as [Hq|Hq];
    destruct (Z.eqb_spec (Np.cols p) 1) as [Hq1|Hq1];
    cbn [orb andb] in E; try discriminate E;
    inversion E; subst a'; cbn [Np.item];
    (split; [repeat split|]); (split; [exact Hlt|]);
    (split;
     [intros i j Hi Hj; rewrite Z.eqb_refl;
      first [ exists 0, 0; split; [lia|]; split; [lia|]; reflexivity
            | exists 0, j; split; [lia|]; split; [lia|]; reflexivity
            | exists i, 0; split; [lia|]; split; [lia|]; reflexivity
            | exists i, j; split; [lia|]; split; [lia|]; reflexivity ]
     |intros i j k Hk; destruct (Z.eqb_spec k c); [contradiction|reflexivity]]).
Qed.

(** Every sample the nearest-neighbour resampler writes is a sample of the
    same channel of the source, reduced to eight bits. *)
Lemma resize_neighbour_samples (g r : Np.ndarray)
  (height width : Z) :
  resize_neighbour_array g height width = Ok r ->
  forall i j c,
    0 <= i < width -> 0 <= j < height -> 0 <= c < 3 ->
    exists i' j',
      0 <= i' < Np.dim0 (Np.data g) /\ 0 <= j' < Np.dim1 (Np.data g)
      /\ Np.item (Np.data r) i j c = Np.item (Np.data g) i' j' c mod 256.
Proof.
  unfold resize_neighbour_array. intros E.
  set (a := Np.data g) in *.
  apply bind_ok in E as (red & Ered & E).
  apply bind_ok in E as (green & Egreen & E).
  apply bind_ok in E as (blue & Eblue & E).
  apply bind_ok in E as (z0 & Ez & E).
  apply bind_ok in E as (xs & _ & E). apply bind_ok in E as (ys & _ & E).
  apply bind_ok in E as (ix & _ & E). apply bind_ok in E as (iy & _ & E).
  apply bind_ok in E as (r1 & Er1 & E). apply bind_ok in E as (r2 & Er2 & E).
  apply bind_ok in E as (z1 & Ez1 & E).
  apply bind_ok in E as (g1 & Eg1 & E). apply bind_ok in E as (g2 & Eg2 & E).
  apply bind_ok in E as (z2 & Ez2 & E).
  apply bind_ok in E as (b1 & Eb1 & E). apply bind_ok in E as (b2 & Eb2 & E).
  apply bind_ok in E as (z3 & Ez3 & E).
  inversion E; subst r. cbn [Np.data]. clear E.
  assert (Hz0 : Np.has_shape width height (Np.dim2 a) z0).
  { unfold Np.zeros in Ez.
    destruct ((width <? 0) || (height <? 0) || (Np.dim2 a <? 0));
      [discriminate|]. inversion Ez. repeat split. }
  destruct Hz0 as (Z00 & Z01 & Z02).
  apply set_plane_source in Ez1 as ((S10 & S11 & S12) & _ & At1 & Other1);
    [|lia].
  apply set_plane_source in Ez2 as ((S20 & S21 & S22) & _ & At2 & Other2);
    [|lia].
  apply set_plane_source in Ez3 as ((S30 & S31 & S32) & _ & At3 & Other3);
    [|lia].
  assert (Hplane : forall c p,
            0 <= c -> Np.plane a c = Ok p ->
            Np.rows p = Np.dim0 a /\ Np.cols p = Np.dim1 a
            /\ forall x y, Np.item2 p x y = Np.item a x y c).
  { intros c p Hc Ep. unfold Np.plane in Ep.
    apply bind_ok in Ep as (c' & Ec & Ep).
    apply index_ok_nonneg in Ec as (-> & _); [|exact Hc].
    inversion Ep. cbn. auto. }
  assert (Hsel : forall c p p1 p2,
            0 <= c -> Np.plane a c = Ok p ->
            Np.take_rows p ix = Ok p1 -> Np.take_cols p1 iy = Ok p2 ->
            forall x y, 0 <= x < Np.rows p2 -> 0 <= y < Np.cols p2 ->
              exists i' j',
                0 <= i' < Np.dim0 a /\ 0 <= j' < Np.dim1 a
                /\ Np.item2 p2 x y = Np.item a i' j' c).
  { intros c p p1 p2 Hc Ep E1 E2 x y Hx Hy.
    destruct (Hplane c p Hc Ep) as (Pr & Pc & Pi).
    apply take_rows_source in E1 as (C1 & R1).
    apply take_cols_source in E2 as (C2 & R2).
    destruct (R2 x y Hy) as (j' & Hj' & Ej').
    destruct (R1 x j' ltac:(lia)) as (i' & Hi' & Ei').
    exists i', j'. split; [lia|]. split; [lia|].
    now rewrite Ej', Ei', Pi. }
  intros i j c Hi Hj Hc.
  assert (c = 0 \/ c = 1 \/ c = 2) as [-> | [-> | ->]] by lia.
  - rewrite Other3, Other2 by lia.
    destruct (At1 i j ltac:(lia) ltac:(lia)) as (x & y & Hx & Hy & ->).
    destruct (Hsel 0 red r1 r2 ltac:(lia) Ered Er1 Er2 x y Hx Hy)
      as (i' & j' & Hi' & Hj' & ->).
    exists i', j'. auto.
  - rewrite Other3 by lia.
    destruct (At2 i j ltac:(lia) ltac:(lia)) as (x & y & Hx & Hy & ->).
    destruct (Hsel 1 green g1 g2 ltac:(lia) Egreen Eg1 Eg2 x y Hx Hy)
      as (i' & j' & Hi' & Hj' & ->).
    exists i', j'. auto.
  - destruct (At3 i j ltac:(lia) ltac:(lia)) as (x & y & Hx & Hy & ->).
    destruct (Hsel 2 blue b1 b2 ltac:(lia) Eblue Eb1 Eb2 x y Hx Hy)
      as (i' & j' & Hi' & Hj' & ->).
    exists i', j'. auto.
Qed.

(** ** Bilinear: what each pass writes *)

Lemma range_NoDup (n : Z) : NoDup (range n).
Proof.
  unfold range. generalize (seq_NoDup (Z.to_nat n) 0).
  induction 1 as [|k l Hk _ IH]; simpl; constructor; [|exact IH].
  intros H. apply in_map_iff in H as (k' & E & Hk').
  apply Nat2Z.inj in E. subst k'. contradiction.
Qed.

(** In a loop over distinct items where pass [x] establishes [Q x] and
    no other pass disturbs it, every [Q x] holds at the end. *)
Lemma for_each_written {S X : Type} (Q : X -> S -> Prop) (l : list X)
  (f : S -> X -> result S) :
  (forall s x s', In x l -> f s x = Ok s' -> Q x s') ->
  (forall s y s' x, In y l -> x <> y -> Q x s -> f s y = Ok s' -> Q x s') ->
  NoDup l ->
  forall s s', for_each l f s = Ok s' -> forall x, In x l -> Q x s'.
Proof.
  induction l as [|y l IH]; intros Hset Hkeep Hnd s s' E x Hin;
    [destruct Hin|].
  simpl in E. apply bind_ok in E as (s1 & E1 & E2).
  inversion Hnd as [|? ? Hy Hnd']; subst.
  destruct Hin as [<- | Hin].
  - apply (for_each_invariant (Q y) l f) with (s := s1); [|eauto|exact E2].
    + intros t z t' Hz Ht Ez. apply (Hkeep t z t'); simpl; auto.
      intros <-. contradiction.
    + apply (Hset s y s1); simpl; auto.
  - apply (IH (fun t z t' Hz => Hset t z t' (or_intror Hz))
              (fun t z t' w Hz => Hkeep t z t' w (or_intror Hz))
              Hnd' s1 s' E2 x Hin).
Qed.

Lemma bilinear_step_sample (image resized : Np.array3 Z)
  (x_ratio y_ratio : Q) (i j : Z) :
  bilinear_step image x_ratio y_ratio i resized j
  = bind (bilinear_sample image x_ratio y_ratio i j)
         (fun pixel =>
            Np.set_pixel Np.float_to_uint8 resized i j (Np.dim2 image) pixel).
Proof.
  unfold bilinear_step, bilinear_sample.
  repeat (match goal with
          | |- context [bind (Np.get_pixel ?a ?y ?x) _] =>
              destruct (Np.get_pixel a y x); cbn [bind]
          end; try reflexivity).
Qed.

Lemma set_pixel_written {A B : Type} (cast : B -> A) (a a' : Np.array3 A)
  (i j n : Z) (pixel : Z -> B) :
  0 <= i -> 0 <= j ->
  Np.set_pixel cast a i j n pixel = Ok a' ->
  (forall z, Np.item a' i j z = cast (pixel (if n =? 1 then 0 else z)))
  /\ (forall x y z, x <> i \/ y <> j -> Np.item a' x y z = Np.item a x y z).
Proof.
  intros Hi Hj E. unfold Np.set_pixel in E.
  apply bind_ok in E as (i' & Ei & E). apply bind_ok in E as (j' & Ej & E).
  apply index_ok_nonneg in Ei as (-> & _); [|exact Hi].
  apply index_ok_nonneg in Ej as (-> & _); [|exact Hj].
  destruct (Np.broadcasts n (Np.dim2 a)); [|discriminate].
  inversion E; subst a'. cbn [Np.item]. split.
  - intros z. now rewrite !Z.eqb_refl.
  - intros x y z Hne.
    destruct (Z.eqb_spec x i); destruct (Z.eqb_spec y j); cbn [andb];
      try reflexivity. lia.
Qed.

(** Every pixel of the grid the bilinear resampler returns is the pixel
    computed for its position, written through the cast alone. *)
Lemma bilinear_resize_samples (g r : Np.ndarray) (height width : Z) :
  bilinear_resize_array g height width = Ok r ->
  forall i j, 0 <= i < height -> 0 <= j < width ->
    exists pixel,
      bilinear_sample (Np.data g) (ratio (Np.dim1 (Np.data g)) width)
        (ratio (Np.dim0 (Np.data g)) height) i j = Ok pixel
      /\ forall c,
           Np.item (Np.data r) i j c
           = Np.float_to_uint8
               (pixel (if Np.dim2 (Np.data g) =? 1 then 0 else c)).
Proof.
  unfold bilinear_resize_array. intros E.
  set (image := Np.data g) in *.
  set (xr := ratio (Np.dim1 image) width) in *.
  set (yr := ratio (Np.dim0 image) height) in *.
  apply bind_ok in E as (z0 & _ & E). apply bind_ok in E as (s' & E & Er).
  inversion Er; subst r. cbn [Np.data]. clear Er.
  set (Q := fun (i j : Z) (s : Np.array3 Z) =>
              exists pixel,
                bilinear_sample image xr yr i j = Ok pixel
                /\ forall c,
                     Np.item s i j c
                     = Np.float_to_uint8
                         (pixel (if Np.dim2 image =? 1 then 0 else c))).
  assert (Hset : forall i j s t, 0 <= i -> 0 <= j ->
            bilinear_step image xr yr i s j = Ok t -> Q i j t).
  { intros i j s t Hi Hj Et. rewrite bilinear_step_sample in Et.
    apply bind_ok in Et as (pixel & Ep & Et).
    apply set_pixel_written in Et as (At & _); [|lia|lia].
    exists pixel. split; [exact Ep|exact At]. }
  assert (Hkeep : forall i j i' j' s t, 0 <= i' -> 0 <= j' ->
            i <> i' \/ j <> j' -> Q i j s ->
            bilinear_step image xr yr i' s j' = Ok t -> Q i j t).
  { intros i j i' j' s t Hi Hj Hne (pixel & Ep & Hs) Et.
    rewrite bilinear_step_sample in Et.
    apply bind_ok in Et as (pixel' & _ & Et).
    apply set_pixel_written in Et as (_ & Other); [|lia|lia].
    exists pixel. split; [exact Ep|]. intros c.
    rewrite Other by exact Hne. apply Hs. }
  intros i j Hi Hj.
  apply (for_each_written (fun i s => forall j, 0 <= j < width -> Q i j s)
           (range height)
           (fun resized i =>
              for_each (range width) (bilinear_step image xr yr i) resized))
    with (s := z0) (x := i); [| |apply range_NoDup|exact E|
                              apply in_range; lia|exact Hj].
  - intros s i0 t Hi0 Et j0 Hj0. apply in_range in Hi0.
    apply (for_each_written (Q i0) (range width)
             (bilinear_step image xr yr i0)) with (s := s) (x := j0);
      [| |apply range_NoDup|exact Et|apply in_range; lia].
    + intros u j1 u' Hj1 Eu. apply in_range in Hj1.
      apply (Hset i0 j1 u u'); [lia|lia|exact Eu].
    + intros u j1 u' j2 Hj1 Hne Hq Eu. apply in_range in Hj1.
      apply (Hkeep i0 j2 i0 j1 u u'); [lia|lia|right; exact Hne
                                      |exact Hq|exact Eu].
  - intros s i1 t i0 Hi1 Hne Hq Et j0 Hj0. apply in_range in Hi1.
    apply (for_each_invariant (Q i0 j0) (range width)
             (bilinear_step image xr yr i1)) with (s := s);
      [|apply Hq; exact Hj0|exact Et].
    intros u j1 u' Hj1 Hu Eu. apply in_range in Hj1.
    apply (Hkeep i0 j0 i1 j1 u u'); [lia|lia|left; exact Hne
                                    |exact Hu|exact Eu].
Qed.

Lemma resample_uint8_shaped
  (padding : Np.array3 Z -> Z -> Z -> Z -> Np.array3 Q)
  (bicubic_kernel : Q -> Q -> Q -> Q) (lanczos_filter : Q -> Q)
  (k : resampler) (g r : Np.ndarray) (height width : Z) :
  resample_array padding bicubic_kernel lanczos_filter k g height width
  = Ok r ->
  Np.dt r = Np.uint8
  /\ match k with
     | Nearest =>
         Np.uint8_shaped width height (Np.dim2 (Np.data g)) (Np.data r)
     | _ => Np.uint8_shaped height width 3 (Np.data r)
     end.
Proof.
  destruct k; unfold resample_array, mitchell_array, lanczos_array;
    intros E.
  - exact (resize_neighbour_uint8_shaped _ _ _ _ E).
  - exact (bilinear_uint8_shaped _ _ _ _ E).
  - exact (four_tap_uint8_shaped _ _ _ _ _ _ E).
  - exact (four_tap_uint8_shaped _ _ _ _ _ _ E).
Qed.

(** C1, as amended: no resampler clamps.  Every sample of the grid
    produced lies in [0, 2^8 - 1] because it went through the down-cast
    to [uint8] and nothing else: the nearest-neighbour resampler writes a
    source sample modulo 2^8; the bilinear resampler writes the cast of
    the pixel it computed for the position, the cubic and the Lanczos
    resampler the cast of the value they computed in [dst].  The cast
    truncates toward zero and, when the truncation fits 32 bits, keeps
    the low eight bits; it gives 0 otherwise. *)
Theorem resampled_samples_wrap
  (padding : Np.array3 Z -> Z -> Z -> Z -> Np.array3 Q)
  (bicubic_kernel : Q -> Q -> Q -> Q) (lanczos_filter : Q -> Q)
  (k : resampler) (g r : Np.ndarray) (height width : Z) :
  resample_array padding bicubic_kernel lanczos_filter k g height width
  = Ok r ->
  (forall i j c, 0 <= Np.item (Np.data r) i j c <= 2 ^ Np.depth_of r - 1)
  /\ match k with
     | Nearest =>
         forall i j c,
           0 <= i < width -> 0 <= j < height -> 0 <= c < 3 ->
           exists i' j',
             0 <= i' < Np.dim0 (Np.data g) /\ 0 <= j' < Np.dim1 (Np.data g)
             /\ Np.item (Np.data r) i j c
                = Np.item (Np.data g) i' j' c mod 2 ^ 8
     | Bilinear =>
         forall i j,
           0 <= i < height -> 0 <= j < width ->
           exists pixel,
             bilinear_sample (Np.data g) (ratio (Np.width_of g) width)
               (ratio (Np.height_of g) height) i j = Ok pixel
             /\ forall c,
                  Np.item (Np.data r) i j c
                  = Np.float_to_uint8
                      (pixel (if Np.channels_of g =? 1 then 0 else c))
     | Cubic B_m C_m =>
         exists dst,
           four_tap_dst padding (fun x => bicubic_kernel x B_m C_m) g
             height width = Ok dst
           /\ forall i j c,
                Np.item (Np.data r) i j c
                = Np.float_to_uint8 (Np.item dst i j c)
     | Lanczos =>
         exists dst,
           four_tap_dst padding lanczos_filter g height width = Ok dst
           /\ forall i j c,
                Np.item (Np.data r) i j c
                = Np.float_to_uint8 (Np.item dst i j c)
     end
  /\ (forall x,
        Np.float_to_uint8 x
        = if (- 2 ^ 31 <=? F64.trunc x) && (F64.trunc x <? 2 ^ 31)
          then F64.trunc x mod 2 ^ 8 else 0).
Proof.
  intros E. split; [|split; [|reflexivity]].
  - apply resample_uint8_shaped in E as (Hdt & Hs).
    unfold Np.depth_of. rewrite Hdt. change (2 ^ Np.bits Np.uint8) with 256.
    intros i j c.
    assert (0 <= Np.item (Np.data r) i j c < 256); [|lia].
    destruct k; apply Hs.
  - assert (Hfour : forall kernel,
              four_tap_array padding kernel g height width = Ok r ->
              exists dst,
                four_tap_dst padding kernel g height width = Ok dst
                /\ forall i j c,
                     Np.item (Np.data r) i j c
                     = Np.float_to_uint8 (Np.item dst i j c)).
    { intros kernel E'. unfold four_tap_array in E'.
      apply bind_ok in E' as (dst & Ed & E').
      exists dst. split; [exact Ed|]. inversion E'; subst r. reflexivity. }
    destruct k; unfold resample_array in E.
    + exact (resize_neighbour_samples g r height width E).
    + exact (bilinear_resize_samples g r height width E).
    + apply Hfour. exact E.
    + apply Hfour. exact E.
Qed.

Lemma resampled_samples_wrap_witness :
  match
    resample_array ImageKernels.padding ImageKernels.bicubic_kernel
      (fun _ => 0%Q) (Cubic 0 (1 # 2)) grid_1x3 1 5
  with
  | Ok r =>
      (forall i j c, 0 <= Np.item (Np.data r) i j c <= 2 ^ Np.depth_of r - 1)
      /\ (exists dst,
            four_tap_dst ImageKernels.padding
              (fun x => ImageKernels.bicubic_kernel x 0 (1 # 2)) grid_1x3
              1 5 = Ok dst
            /\ forall i j c,
                 Np.item (Np.data r) i j c
                 = Np.float_to_uint8 (Np.item dst i j c))
      /\ (forall x,
            Np.float_to_uint8 x
            = if (- 2 ^ 31 <=? F64.trunc x) && (F64.trunc x <? 2 ^ 31)
              then F64.trunc x mod 2 ^ 8 else 0)
  | Raise _ => False
  end.
Proof.
  assert (Hok : is_ok (resample_array ImageKernels.padding
                         ImageKernels.bicubic_kernel (fun _ => 0%Q)
                         (Cubic 0 (1 # 2)) grid_1x3 1 5) = true)
    by (vm_compute; reflexivity).
  destruct (resample_array ImageKernels.padding ImageKernels.bicubic_kernel
              (fun _ => 0%Q) (Cubic 0 (1 # 2)) grid_1x3 1 5) as [r|e] eqn:E;
    [|discriminate Hok].
  exact (resampled_samples_wrap _ _ _ _ _ _ _ _ E).
Defined.

(** C1, as stated, fails: with B = 0 and C = 1/2 the cubic kernel
    overshoots between a white and a black pixel.  The computed value is
    4335/16 = 270.9375; clamped it would be written as 255, the grid
    holds 270 mod 256 = 14. *)
Lemma cubic_overshoot_is_not_clamped :
  match
    four_tap_dst ImageKernels.padding
      (fun x => ImageKernels.bicubic_kernel x 0 (1 # 2)) grid_1x3 1 5,
    mitchell_array ImageKernels.padding ImageKernels.bicubic_kernel
      grid_1x3 1 5 0 (1 # 2)
  with
  | Ok dst, Ok r =>
      Np.item dst 0 1 0 = (4335 # 16)%Q
      /\ Np.spec_clamped_cast 8 (Np.item dst 0 1 0) = 255
      /\ Np.item (Np.data r) 0 1 0 = 14
  | _, _ => False
  end.
Proof. vm_compute. repeat split. Qed.

(** C2, as amended: the bilinear, cubic and Lanczos resamplers produce
    [targetH] rows of [targetW] columns, always with three channels; the
    nearest-neighbour resampler keeps the channel count of the source;
    every resampler produces 8-bit samples, whatever the depth of the
    source. *)
Theorem resampled_grid_shape
  (padding : Np.array3 Z -> Z -> Z -> Z -> Np.array3 Q)
  (bicubic_kernel : Q -> Q -> Q -> Q) (lanczos_filter : Q -> Q)
  (k : resampler) (g r : Np.ndarray) (targetH targetW : Z) :
  1 <= targetW -> 1 <= targetH ->
  resample_array padding bicubic_kernel lanczos_filter k g targetH targetW
  = Ok r ->
  Np.depth_of r = 8
  /\ match k with
     | Nearest => Np.channels_of r = Np.channels_of g
     | _ =>
         Np.width_of r = targetW /\ Np.height_of r = targetH
         /\ Np.channels_of r = 3
     end.
Proof.
  intros _ _ E. apply resample_uint8_shaped in E as (Hdt & Hs).
  unfold Np.depth_of, Np.width_of, Np.height_of, Np.channels_of.
  rewrite Hdt. split; [reflexivity|].
  destruct k; destruct Hs as (H0 & H1 & H2 & _); auto.
Qed.

Lemma resampled_grid_shape_witness :
  match
    resample_array ImageKernels.padding ImageKernels.bicubic_kernel
      (fun _ => 0%Q) (Cubic (1 # 3) (1 # 3)) grid_2x3 3 4
  with
  | Ok r =>
      Np.depth_of r = 8
      /\ Np.width_of r = 4 /\ Np.height_of r = 3 /\ Np.channels_of r = 3
  | Raise _ => False
  end.
Proof.
  assert (Hok : is_ok (resample_array ImageKernels.padding
                         ImageKernels.bicubic_kernel (fun _ => 0%Q)
                         (Cubic (1 # 3) (1 # 3)) grid_2x3 3 4) = true)
    by (vm_compute; reflexivity).
  destruct (resample_array ImageKernels.padding ImageKernels.bicubic_kernel
              (fun _ => 0%Q) (Cubic (1 # 3) (1 # 3)) grid_2x3 3 4)
    as [r|e] eqn:E; [|discriminate Hok].
  exact (resampled_grid_shape _ _ _ _ _ _ 3 4 ltac:(lia) ltac:(lia) E).
Defined.

(** C2, as stated, fails twice: the nearest-neighbour resampler puts the
    requested width on the first axis, so that a request for 2 columns
    and 1 row yields 2 rows of 1 column; and a 16-bit source comes back
    with 8-bit samples. *)
Lemma resampled_grid_shape_counterexample :
  match
    resize_neighbour_array grid_1x1 1 2,
    bilinear_resize_array grid16_1x1 1 1
  with
  | Ok r, Ok r' =>
      (Np.width_of r = 1 /\ Np.height_of r = 2)
      /\ (Np.depth_of grid16_1x1 = 16 /\ Np.depth_of r' = 8)
  | _, _ => False
  end.
Proof. vm_compute. repeat split. Qed.

(** ** Requests without a usable size *)

Lemma zeros_negative {A : Type} (zero : A) (d0 d1 d2 : Z) :
  d0 < 0 \/ d1 < 0 -> Np.zeros zero d0 d1 d2 = Raise ValueError.
Proof.
  intros H. unfold Np.zeros.
  destruct (Z.ltb_spec d0 0); [reflexivity|].
  destruct (Z.ltb_spec d1 0); [reflexivity|lia].
Qed.

Lemma resample_array_negative
  (padding : Np.array3 Z -> Z -> Z -> Z -> Np.array3 Q)
  (bicubic_kernel : Q -> Q -> Q -> Q) (lanczos_filter : Q -> Q)
  (k : resampler) (g : Np.ndarray) (height width : Z) :
  width < 0 \/ height < 0 ->
  exists e,
    resample_array padding bicubic_kernel lanczos_filter k g height width
    = Raise e.
Proof.
  intros H.
  destruct k; unfold resample_array, mitchell_array, lanczos_array,
    four_tap_array, four_tap_dst.
  - unfold resize_neighbour_array.
    destruct (Np.plane (Np.data g) 0); [|cbn [bind]; eauto].
    destruct (Np.plane (Np.data g) 1); [|cbn [bind]; eauto].
    destruct (Np.plane (Np.data g) 2); [|cbn [bind]; eauto].
    cbn [bind]. rewrite zeros_negative by lia. cbn [bind]. eauto.
  - unfold bilinear_resize_array, image_new_rgb.
    destruct (Z.ltb_spec width 0); [cbn; eauto|].
    destruct (Z.ltb_spec height 0); [cbn; eauto|lia].
  - rewrite zeros_negative by lia. cbn [bind]. eauto.
  - rewrite zeros_negative by lia. cbn [bind]. eauto.
Qed.

(** C4, as amended: no resampler validates the request.  A negative
    target width or height makes the allocation of the destination fail
    (in the nearest-neighbour resampler, unless the channel slices fail
    first), the exception ends the transform and the current image stays
    as it was. *)
Theorem negative_target_leaves_image
  (padding : Np.array3 Z -> Z -> Z -> Z -> Np.array3 Q)
  (bicubic_kernel : Q -> Q -> Q -> Q) (lanczos_filter : Q -> Q)
  (k : resampler) (s : ImageObjectSingleton) (height width : Z) :
  width < 0 \/ height < 0 ->
  exists e,
    resample padding bicubic_kernel lanczos_filter k s height width
    = (Raise e, s).
Proof.
  intros H.
  destruct (resample_array_negative padding bicubic_kernel lanczos_filter
              k (img_array s) height width H) as (e & E).
  exists e.
  destruct k; unfold resample, resize_neighbour, bilinear_resize, mitchell,
    lanczos; unfold resample_array in E; rewrite E; reflexivity.
Qed.

Lemma negative_target_leaves_image_witness :
  exists e,
    resample ImageKernels.padding ImageKernels.bicubic_kernel (fun _ => 0%Q)
      Bilinear current_1x3 2 (- 1)
    = (Raise e, current_1x3).
Proof.
  apply (negative_target_leaves_image _ _ _ Bilinear current_1x3 2 (- 1)).
  left. lia.
Defined.

(** C4, as stated, fails at a target width of zero: the cubic resampler
    allocates an empty destination, runs no pass of its loops and replaces
    the current image by the empty grid. *)
Lemma zero_target_width_replaces_image :
  match
    mitchell ImageKernels.padding ImageKernels.bicubic_kernel
      current_1x3 1 0 0 (1 # 2)
  with
  | (Ok _, s') =>
      Np.width_of (img_array current_1x3) = 3
      /\ Np.width_of (img_array s') = 0
  | (Raise _, _) => False
  end.
Proof. vm_compute. split; reflexivity. Qed.

(** ** Bilinear: the upper neighbour *)

(** C9: the upper neighbour [ceil(x_ratio * j)] is not clamped.  For a
    well-formed source of one row of four RGB pixels resampled to width
    188, the ratio is the binary64 nearest to 3/187; at the last column
    its product with 187 is the binary64 just above 3, whose floor 3 is
    the last valid column and whose ceiling 4 is the source width.  The
    fetch of the lower neighbour succeeds, the fetch of the upper one
    raises [IndexError]; so does the pass, whatever has been written
    before, and the resampler, which leaves the current image. *)
Theorem bilinear_upper_neighbour_out_of_bounds :
  exists (image : Np.ndarray) (height width j : Z),
    Np.well_formed image = true
    /\ 1 <= Np.height_of image /\ 1 <= Np.width_of image
    /\ Np.channels_of image = 3
    /\ 1 <= height /\ 1 <= width /\ 0 <= j < width
    /\ (let x :=
          F64.mul (ratio (Np.width_of image) width) (F64.of_int j) in
        F64.floor x = Np.width_of image - 1
        /\ F64.ceil x = Np.width_of image
        /\ is_ok (Np.get_pixel (Np.data image) 0 (F64.floor x)) = true
        /\ Np.get_pixel (Np.data image) 0 (F64.ceil x) = Raise IndexError)
    /\ (forall resized,
          bilinear_step (Np.data image) (ratio (Np.width_of image) width)
            (ratio (Np.height_of image) height) 0 resized j
          = Raise IndexError)
    /\ bilinear_resize (mk_singleton image) height width
       = (Raise IndexError, mk_singleton image).
Proof.
  exists grid_1x4, 1, 188, 187.
  split; [reflexivity|]. split; [vm_compute; discriminate|].
  split; [vm_compute; discriminate|]. split; [reflexivity|].
  split; [lia|]. split; [lia|]. split; [lia|].
  split; [repeat split; vm_compute; reflexivity|].
  split; [intros resized; vm_compute; reflexivity|].
  vm_compute. reflexivity.
Qed.

(** The machine's binary64 arithmetic gives the same product. *)
Example bilinear_ratio_on_hardware :
  F64.of_hw (PrimFloat.mul
               (PrimFloat.div (F64.hw_of_int 3) (F64.hw_of_int 187))
               (F64.hw_of_int 187))
  = Some (F64.mul (ratio 4 188) (F64.of_int 187))
  /\ F64.mul (ratio 4 188) (F64.of_int 187)
     = (6755399441055745 # 2251799813685248)%Q.
Proof. split; vm_compute; reflexivity. Qed.

(** * Further properties *)

(** ** Edge behaviour of the resamplers *)

Lemma for_each_const {S X : Type} (l : list X) (f : S -> X -> result S)
  (s : S) :
  (forall x, In x l -> f s x = Ok s) -> for_each l f s = Ok s.
Proof.
  induction l as [|x l IH]; intros H; simpl; [reflexivity|].
  rewrite H by (simpl; auto). simpl. apply IH. intros; apply H; simpl; auto.
Qed.

Lemma range_nonpositive (n : Z) : n <= 0 -> range n = [].
Proof.
  intros H. unfold range. replace (Z.to_nat n) with 0%nat by lia. reflexivity.
Qed.

Lemma range_head (n : Z) : 1 <= n -> exists tl, range n = 0 :: tl.
Proof.
  intros H. unfold range.
  destruct (Z.to_nat n) as [|k] eqn:E; [lia|]. simpl. eauto.
Qed.

Lemma index_out_of_bounds (n i : Z) :
  0 <= n <= i -> Np.index n i = Raise IndexError.
Proof.
  intros H. unfold Np.index.
  destruct (Z.ltb_spec i n); [lia|]. rewrite andb_false_r.
  destruct (Z.ltb_spec i 0); [lia|]. now rewrite andb_false_r.
Qed.

Lemma plane_out_of_bounds {A : Type} (a : Np.array3 A) (c : Z) :
  0 <= Np.dim2 a <= c -> Np.plane a c = Raise IndexError.
Proof.
  intros H. unfold Np.plane. now rewrite index_out_of_bounds.
Qed.

(** X1.  The nearest-neighbour resampler slices the channels 0, 1 and 2 before
    anything else: a source of fewer than three channels raises
    [IndexError] whatever the target size, and the current image stays. *)
Theorem resize_neighbour_needs_three_channels (s : ImageObjectSingleton)
  (height width : Z) :
  0 <= Np.channels_of (img_array s) < 3 ->
  resize_neighbour s height width = (Raise IndexError, s).
Proof.
  unfold Np.channels_of. intros H.
  unfold resize_neighbour, resize_neighbour_array.
  set (a := Np.data (img_array s)) in *.
  assert (C : Np.dim2 a = 0 \/ Np.dim2 a = 1 \/ Np.dim2 a = 2) by lia.
  destruct C as [C | [C | C]].
  - rewrite plane_out_of_bounds by lia. reflexivity.
  - rewrite plane_in_bounds by lia. cbn [bind].
    rewrite plane_out_of_bounds by lia. reflexivity.
  - rewrite !plane_in_bounds by lia. cbn [bind].
    rewrite plane_out_of_bounds by lia. reflexivity.
Qed.

Lemma resize_neighbour_needs_three_channels_witness :
  resize_neighbour current_1x1_grey 4 4 = (Raise IndexError, current_1x1_grey).
Proof.
  apply (resize_neighbour_needs_three_channels current_1x1_grey 4 4).
  unfold Np.channels_of. simpl. lia.
Defined.

Lemma py_truediv_zero (a : Z) : py_truediv a 0 = Raise ZeroDivisionError.
Proof. reflexivity. Qed.

(** X2.  A target width or height of zero is not refused by the allocation:
    the nearest-neighbour resampler allocates the empty destination and
    then divides by the zero size; the [ZeroDivisionError] leaves the
    current image as it was. *)
Theorem resize_neighbour_zero_size (s : ImageObjectSingleton)
  (height width : Z) :
  3 <= Np.channels_of (img_array s) ->
  0 <= height -> 0 <= width -> height = 0 \/ width = 0 ->
  resize_neighbour s height width = (Raise ZeroDivisionError, s).
Proof.
  unfold Np.channels_of. intros Hc Hh Hw Hz.
  unfold resize_neighbour, resize_neighbour_array.
  set (a := Np.data (img_array s)) in *.
  rewrite !plane_in_bounds by lia. cbn [bind].
  rewrite zeros_ok by lia. cbn [bind].
  destruct (Z.eq_dec width 0) as [->|Hw0].
  - rewrite py_truediv_zero. reflexivity.
  - assert (height = 0) by lia. subst height.
    unfold py_truediv at 1. destruct (Z.eqb_spec width 0); [lia|].
    cbn [bind]. rewrite py_truediv_zero. reflexivity.
Qed.

Lemma resize_neighbour_zero_size_witness :
  resize_neighbour current_1x3 5 0 = (Raise ZeroDivisionError, current_1x3).
Proof.
  apply (resize_neighbour_zero_size current_1x3 5 0);
    [unfold Np.channels_of; simpl; lia | lia | lia | right; reflexivity].
Defined.

(** X4.  The bilinear resampler accepts a target width or height of zero: no
    pass of its loops runs and the current image is replaced by an empty
    grid of [height] rows and [width] columns. *)
Theorem bilinear_resize_zero_size (s : ImageObjectSingleton)
  (height width : Z) :
  0 <= height -> 0 <= width -> height = 0 \/ width = 0 ->
  bilinear_resize s height width
  = (Ok tt,
     mk_singleton
       (Np.mk_ndarray Np.uint8
          (Np.mk_array3 height width 3 (fun _ _ _ => 0)))).
Proof.
  intros Hh Hw Hz. unfold bilinear_resize, bilinear_resize_array.
  unfold image_new_rgb.
  destruct (Z.ltb_spec width 0); [lia|]. destruct (Z.ltb_spec height 0); [lia|].
  cbn [orb]. rewrite zeros_ok by lia. cbn [bind].
  rewrite for_each_const; [reflexivity|].
  intros i Hi. destruct Hz as [->| ->].
  - rewrite range_nonpositive in Hi by lia. contradiction.
  - rewrite (range_nonpositive 0) by lia. reflexivity.
Qed.

Lemma bilinear_resize_zero_size_witness :
  bilinear_resize current_1x3 2 0
  = (Ok tt,
     mk_singleton
       (Np.mk_ndarray Np.uint8 (Np.mk_array3 2 0 3 (fun _ _ _ => 0)))).
Proof.
  apply (bilinear_resize_zero_size current_1x3 2 0);
    [lia | lia | right; reflexivity].
Defined.

(** X8.  The cubic and the Lanczos resampler accept a target width or height
    of zero as well, whatever the kernel and the padding: the current
    image is replaced by an empty grid. *)
Theorem four_tap_zero_size
  (padding : Np.array3 Z -> Z -> Z -> Z -> Np.array3 Q)
  (bicubic_kernel : Q -> Q -> Q -> Q) (lanczos_filter : Q -> Q)
  (s : ImageObjectSingleton) (height width : Z) (B_m C_m : Q) :
  0 <= height -> 0 <= width -> height = 0 \/ width = 0 ->
  let empty :=
    mk_singleton
      (Np.astype_uint8 (Np.mk_array3 height width 3 (fun _ _ _ => 0%Q))) in
  mitchell padding bicubic_kernel s height width B_m C_m = (Ok tt, empty)
  /\ lanczos padding lanczos_filter s height width = (Ok tt, empty)
  /\ Np.height_of (img_array empty) = height
  /\ Np.width_of (img_array empty) = width.
Proof.
  intros Hh Hw Hz empty.
  assert (E : forall kernel,
             four_tap_array padding kernel (img_array s) height width
             = Ok (img_array empty)).
  { intros kernel. unfold four_tap_array, four_tap_dst.
    rewrite zeros_ok by lia. cbn [bind].
    rewrite for_each_const; [reflexivity|].
    intros c _. apply for_each_const. intros j Hj.
    destruct Hz as [Hz|Hz]; subst.
    - rewrite range_nonpositive in Hj by lia. contradiction.
    - rewrite (range_nonpositive 0) by lia. reflexivity. }
  unfold mitchell, lanczos, mitchell_array, lanczos_array.
  rewrite !E. repeat split.
Qed.

Lemma four_tap_zero_size_witness :
  let empty :=
    mk_singleton
      (Np.astype_uint8 (Np.mk_array3 0 7 3 (fun _ _ _ => 0%Q))) in
  mitchell ImageKernels.padding ImageKernels.bicubic_kernel current_1x3 0 7
    (1 # 3) (1 # 3) = (Ok tt, empty)
  /\ lanczos ImageKernels.padding (fun _ => 0%Q) current_1x3 0 7
     = (Ok tt, empty)
  /\ Np.height_of (img_array empty) = 0
  /\ Np.width_of (img_array empty) = 7.
Proof.
  apply (four_tap_zero_size ImageKernels.padding ImageKernels.bicubic_kernel
           (fun _ => 0%Q) current_1x3 0 7 (1 # 3) (1 # 3));
    [lia | lia | left; reflexivity].
Defined.

(** ** Bilinear resampling at integer source positions *)

(** A loop whose every pass succeeds and extends an invariant indexed by
    the items already visited. *)
Lemma for_each_progress {S X : Type} (P : list X -> S -> Prop) (l : list X)
  (f : S -> X -> result S) :
  (forall done x s, In x l -> P done s ->
     exists s', f s x = Ok s' /\ P (done ++ [x]) s') ->
  forall s, P [] s -> exists s', for_each l f s = Ok s' /\ P l s'.
Proof.
  intros Hf.
  assert (G : forall rest done s,
             (forall x, In x rest -> In x l) -> P done s ->
             exists s', for_each rest f s = Ok s' /\ P (done ++ rest) s').
  { induction rest as [|x rest IH]; intros done s Hin Hs; simpl.
    - rewrite app_nil_r. eauto.
    - destruct (Hf done x s (Hin x (or_introl eq_refl)) Hs) as (s1 & E1 & P1).
      rewrite E1. cbn [bind].
      destruct (IH (done ++ [x]) s1 (fun y Hy => Hin y (or_intror Hy)) P1)
        as (s' & E' & P').
      exists s'. split; [exact E'|]. now rewrite <- app_assoc in P'. }
  intros s Hs. exact (G l [] s (fun x Hx => Hx) Hs).
Qed.

Lemma mul_zero_r (x : Q) : F64.mul x 0 = 0%Q.
Proof.
  unfold F64.mul. rewrite (rnd_compat _ 0%Q) by ring. reflexivity.
Qed.

Lemma mul_zero_l (x : Q) : F64.mul 0 x = 0%Q.
Proof.
  unfold F64.mul. rewrite (rnd_compat _ 0%Q) by ring. reflexivity.
Qed.

Lemma ratio_same_mul (n j : Z) :
  1 <= n < 2 ^ 53 -> 0 <= j < n ->
  F64.mul (ratio n n) (F64.of_int j) = inject_Z j.
Proof.
  intros Hn Hj. unfold ratio.
  destruct (Z.ltb_spec 1 n) as [H1|H1].
  - rewrite !of_int_exact by lia.
    unfold F64.div. rewrite (rnd_compat _ (inject_Z 1)).
    + rewrite rnd_inject_Z by lia. rewrite mul_int_exact by lia.
      f_equal. lia.
    + change (inject_Z 1) with 1%Q. apply Qmult_inv_r.
      unfold Qeq; simpl. lia.
  - assert (j = 0) by lia. subst j. rewrite mul_zero_l. reflexivity.
Qed.

Lemma ratio_to_one_mul (n : Z) :
  F64.mul (ratio n 1) (F64.of_int 0) = inject_Z 0.
Proof. unfold ratio. cbn [Z.ltb Z.compare Pos.compare]. apply mul_zero_l. Qed.

Lemma bilinear_pixel_at_sample (a b c d : Z) :
  Z.abs a < 2 ^ 53 -> bilinear_pixel 0 0 a b c d = inject_Z a.
Proof.
  intros Ha. unfold bilinear_pixel.
  assert (E1 : F64.sub 1 0 = inject_Z 1) by (vm_compute; reflexivity).
  rewrite E1, !mul_zero_r, mul_zero_l, of_int_exact by lia.
  rewrite !mul_int_exact by lia.
  change 0%Q with (inject_Z 0). rewrite !add_int_exact by lia.
  f_equal. lia.
Qed.

Lemma get_pixel_in_bounds {A : Type} (a : Np.array3 A) (i j : Z) :
  0 <= i < Np.dim0 a -> 0 <= j < Np.dim1 a ->
  Np.get_pixel a i j = Ok (fun k => Np.item a i j k).
Proof.
  intros Hi Hj. unfold Np.get_pixel. now rewrite !index_in_bounds.
Qed.

(** One pass of the bilinear loops whose source coordinates are the
    integers [(yi, xj)] copies the pixel found there. *)
Lemma bilinear_step_copy (image resized : Np.array3 Z) (x_ratio y_ratio : Q)
  (i j yi xj : Z) :
  F64.mul x_ratio (F64.of_int j) = inject_Z xj ->
  F64.mul y_ratio (F64.of_int i) = inject_Z yi ->
  0 <= xj < Np.dim1 image -> 0 <= yi < Np.dim0 image ->
  Np.dim1 image < 2 ^ 53 -> Np.dim0 image < 2 ^ 53 ->
  (forall k, 0 <= k < Np.dim2 image ->
     0 <= Np.item image yi xj k < 2 ^ 31) ->
  0 <= i < Np.dim0 resized -> 0 <= j < Np.dim1 resized ->
  Np.broadcasts (Np.dim2 image) (Np.dim2 resized) = true ->
  exists s',
    bilinear_step image x_ratio y_ratio i resized j = Ok s'
    /\ Np.has_shape (Np.dim0 resized) (Np.dim1 resized) (Np.dim2 resized) s'
    /\ (forall z, 0 <= z < Np.dim2 resized ->
          Np.item s' i j z
          = Np.item image yi xj (if Np.dim2 image =? 1 then 0 else z)
            mod 256)
    /\ (forall x y z, x <> i \/ y <> j ->
          Np.item s' x y z = Np.item resized x y z).
Proof.
  intros Ex Ey Hx Hy Hw Hh Hs Hi Hj Hb.
  unfold bilinear_step. rewrite Ex, Ey.
  rewrite !floor_inject_Z, !ceil_inject_Z, !of_int_exact by lia.
  assert (E0 : forall z, F64.sub (inject_Z z) (inject_Z z) = 0%Q).
  { intros z. unfold F64.sub. rewrite (rnd_compat _ 0%Q) by ring.
    reflexivity. }
  rewrite !E0, !get_pixel_in_bounds by lia. cbn [bind].
  unfold Np.set_pixel. rewrite !index_in_bounds by lia. cbn [bind].
  rewrite Hb. eexists. split; [reflexivity|].
  split; [repeat split|]. split.
  - intros z Hz. cbn [Np.item]. rewrite !Z.eqb_refl. cbn [andb].
    assert (Hk : 0 <= (if Np.dim2 image =? 1 then 0 else z)
                 < Np.dim2 image).
    { unfold Np.broadcasts in Hb.
      destruct (Z.eqb_spec (Np.dim2 image) 1); [lia|].
      destruct (Z.eqb_spec (Np.dim2 image) (Np.dim2 resized));
        [lia|discriminate]. }
    specialize (Hs _ Hk).
    rewrite bilinear_pixel_at_sample by lia.
    apply float_to_uint8_int. lia.
  - intros x y z Hne. cbn [Np.item].
    destruct (Z.eqb_spec x i); destruct (Z.eqb_spec y j); cbn [andb];
      try reflexivity. lia.
Qed.

(** The bilinear resampler, when every target row and column falls on an
    integer source row [yi i] and column [xj j]. *)
Lemma bilinear_copy (g : Np.ndarray) (height width : Z) (yi xj : Z -> Z) :
  0 <= height -> 0 <= width ->
  Np.dim0 (Np.data g) < 2 ^ 53 -> Np.dim1 (Np.data g) < 2 ^ 53 ->
  (forall i, 0 <= i < height ->
     F64.mul (ratio (Np.dim0 (Np.data g)) height) (F64.of_int i)
     = inject_Z (yi i)
     /\ 0 <= yi i < Np.dim0 (Np.data g)) ->
  (forall j, 0 <= j < width ->
     F64.mul (ratio (Np.dim1 (Np.data g)) width) (F64.of_int j)
     = inject_Z (xj j)
     /\ 0 <= xj j < Np.dim1 (Np.data g)) ->
  (forall i j k,
     0 <= i < Np.dim0 (Np.data g) -> 0 <= j < Np.dim1 (Np.data g) ->
     0 <= k < Np.dim2 (Np.data g) ->
     0 <= Np.item (Np.data g) i j k < 2 ^ 31) ->
  Np.broadcasts (Np.dim2 (Np.data g)) 3 = true ->
  exists r,
    bilinear_resize_array g height width = Ok r
    /\ Np.dt r = Np.uint8
    /\ Np.has_shape height width 3 (Np.data r)
    /\ forall i j k,
         0 <= i < height -> 0 <= j < width -> 0 <= k < 3 ->
         Np.item (Np.data r) i j k
         = Np.item (Np.data g) (yi i) (xj j)
             (if Np.dim2 (Np.data g) =? 1 then 0 else k) mod 256.
Proof.
  intros Hh Hw HH HW Hy Hx Hs Hb.
  set (image := Np.data g) in *.
  set (F := fun i j k =>
              Np.item image (yi i) (xj j)
                (if Np.dim2 image =? 1 then 0 else k) mod 256).
  unfold bilinear_resize_array. fold image. unfold image_new_rgb.
  destruct (Z.ltb_spec width 0); [lia|]. destruct (Z.ltb_spec height 0); [lia|].
  cbn [orb]. rewrite zeros_ok by lia. cbn [bind].
  set (rows_done := fun (done : list Z) (s : Np.array3 Z) =>
         Np.has_shape height width 3 s
         /\ forall i j k, In i done -> 0 <= j < width -> 0 <= k < 3 ->
              Np.item s i j k = F i j k).
  destruct (for_each_progress rows_done (range height)
              (fun resized i =>
                 for_each (range width)
                   (bilinear_step image (ratio (Np.dim1 image) width)
                      (ratio (Np.dim0 image) height) i) resized))
    with (s := Np.mk_array3 height width 3 (fun _ _ _ => 0))
    as (s' & E & (Hshape & Hitems)).
  - intros done i s Hi (Hshape & Hrows). apply in_range in Hi.
    set (cols_done := fun (dj : list Z) (t : Np.array3 Z) =>
           Np.has_shape height width 3 t
           /\ (forall i' j k, In i' done -> 0 <= j < width -> 0 <= k < 3 ->
                 Np.item t i' j k = F i' j k)
           /\ forall j k, In j dj -> 0 <= k < 3 ->
                Np.item t i j k = F i j k).
    destruct (for_each_progress cols_done (range width)
                (bilinear_step image (ratio (Np.dim1 image) width)
                   (ratio (Np.dim0 image) height) i)) with (s := s)
      as (t' & Et & (Htshape & Htrows & Htcols)).
    + intros dj j t Hj (Htshape & Htrows & Htcols). apply in_range in Hj.
      destruct Htshape as (T0 & T1 & T2).
      destruct (Hx j Hj) as (Exj & Bxj). destruct (Hy i Hi) as (Eyi & Byi).
      assert (Hsamp : forall k, 0 <= k < Np.dim2 image ->
                        0 <= Np.item image (yi i) (xj j) k < 2 ^ 31)
        by (intros k Hk; apply Hs; lia).
      assert (Hi' : 0 <= i < Np.dim0 t) by lia.
      assert (Hj' : 0 <= j < Np.dim1 t) by lia.
      assert (Hb' : Np.broadcasts (Np.dim2 image) (Np.dim2 t) = true)
        by (now rewrite T2).
      destruct (bilinear_step_copy image t (ratio (Np.dim1 image) width)
                  (ratio (Np.dim0 image) height) i j (yi i) (xj j)
                  Exj Eyi Bxj Byi HW HH Hsamp Hi' Hj' Hb')
        as (t1 & E1 & S1 & At & Other).
      exists t1. split; [exact E1|]. rewrite T0, T1, T2 in S1.
      split; [exact S1|]. split.
      * intros i' j' k Hin' Hjw Hk.
        destruct (Z.eq_dec i' i) as [->|Hne];
          [destruct (Z.eq_dec j' j) as [->|Hne]|].
        -- rewrite At by lia. reflexivity.
        -- rewrite Other by lia. now apply Htrows.
        -- rewrite Other by lia. now apply Htrows.
      * intros j' k Hin Hk. apply in_app_or in Hin as [Hin|[<-|[]]].
        -- destruct (Z.eq_dec j' j) as [->|Hne].
           ++ rewrite At by lia. reflexivity.
           ++ rewrite Other by lia. now apply Htcols.
        -- rewrite At by lia. reflexivity.
    + split; [exact Hshape|]. split; [exact Hrows|]. intros j k [].
    + exists t'. split; [exact Et|]. split; [exact Htshape|].
      intros i' j k Hin Hj Hk. apply in_app_or in Hin as [Hin|[<-|[]]].
      * now apply Htrows.
      * apply Htcols; [apply in_range; lia|lia].
  - split; [repeat split|]. intros i j k [].
  - rewrite E. cbn [bind]. eexists. split; [reflexivity|].
    split; [reflexivity|]. split; [exact Hshape|].
    intros i j k Hi Hj Hk. cbn [Np.data]. apply Hitems; auto.
    apply in_range. lia.
Qed.

(** X5.  Resampled to its own size by the bilinear resampler, an 8-bit RGB
    grid comes back sample for sample: every target coordinate falls on
    an integer source coordinate, where all the weight is on one pixel. *)
Theorem bilinear_resize_same_size (g : Np.ndarray) :
  Np.dt g = Np.uint8 ->
  Np.well_formed g = true ->
  Np.channels_of g = 3 ->
  1 <= Np.height_of g < 2 ^ 53 ->
  1 <= Np.width_of g < 2 ^ 53 ->
  exists r,
    bilinear_resize_array g (Np.height_of g) (Np.width_of g) = Ok r
    /\ Np.dt r = Np.uint8
    /\ Np.has_shape (Np.height_of g) (Np.width_of g) 3 (Np.data r)
    /\ forall i j k,
         0 <= i < Np.height_of g -> 0 <= j < Np.width_of g -> 0 <= k < 3 ->
         Np.item (Np.data r) i j k = Np.item (Np.data g) i j k.
Proof.
  unfold Np.channels_of, Np.height_of, Np.width_of.
  intros Hdt Hwf Hc Hh Hw.
  pose proof (well_formed_spec g Hwf) as Hs. rewrite Hdt in Hs.
  change (2 ^ Np.bits Np.uint8) with 256 in Hs.
  destruct (bilinear_copy g (Np.dim0 (Np.data g)) (Np.dim1 (Np.data g))
              (fun i => i) (fun j => j))
    as (r & E & Hr & Hshape & Hitems); try lia.
  - intros i Hi. split; [apply ratio_same_mul|]; lia.
  - intros j Hj. split; [apply ratio_same_mul|]; lia.
  - intros i j k Hi Hj Hk. specialize (Hs i j k Hi Hj Hk). lia.
  - rewrite Hc. reflexivity.
  - exists r. split; [exact E|]. split; [exact Hr|]. split; [exact Hshape|].
    intros i j k Hi Hj Hk. rewrite Hitems by lia. rewrite Hc.
    cbn [Z.eqb Pos.eqb]. apply Z.mod_small. apply Hs; lia.
Qed.

Lemma bilinear_resize_same_size_witness :
  exists r,
    bilinear_resize_array grid_2x3 2 3 = Ok r
    /\ Np.dt r = Np.uint8
    /\ Np.has_shape 2 3 3 (Np.data r)
    /\ forall i j k,
         0 <= i < 2 -> 0 <= j < 3 -> 0 <= k < 3 ->
         Np.item (Np.data r) i j k = 100 * i + 10 * j + k.
Proof.
  apply (bilinear_resize_same_size grid_2x3);
    [reflexivity | reflexivity | reflexivity
    | unfold Np.height_of; simpl; lia | unfold Np.width_of; simpl; lia].
Defined.

(** X6.  Resampled to one pixel, an 8-bit RGB grid gives its top-left pixel:
    both ratios are 0, so every weight but the first is 0 and no other
    pixel of the source contributes. *)
Theorem bilinear_resize_to_one_pixel (g : Np.ndarray) :
  Np.dt g = Np.uint8 ->
  Np.well_formed g = true ->
  Np.channels_of g = 3 ->
  1 <= Np.height_of g < 2 ^ 53 ->
  1 <= Np.width_of g < 2 ^ 53 ->
  exists r,
    bilinear_resize_array g 1 1 = Ok r
    /\ Np.has_shape 1 1 3 (Np.data r)
    /\ forall k, 0 <= k < 3 ->
         Np.item (Np.data r) 0 0 k = Np.item (Np.data g) 0 0 k.
Proof.
  unfold Np.channels_of, Np.height_of, Np.width_of.
  intros Hdt Hwf Hc Hh Hw.
  pose proof (well_formed_spec g Hwf) as Hs. rewrite Hdt in Hs.
  change (2 ^ Np.bits Np.uint8) with 256 in Hs.
  destruct (bilinear_copy g 1 1 (fun _ => 0) (fun _ => 0))
    as (r & E & Hr & Hshape & Hitems); try lia.
  - intros i Hi. assert (i = 0) by lia. subst i.
    split; [apply ratio_to_one_mul|lia].
  - intros j Hj. assert (j = 0) by lia. subst j.
    split; [apply ratio_to_one_mul|lia].
  - intros i j k Hi Hj Hk. specialize (Hs i j k Hi Hj Hk). lia.
  - rewrite Hc. reflexivity.
  - exists r. split; [exact E|]. split; [exact Hshape|].
    intros k Hk. rewrite Hitems by lia. rewrite Hc.
    cbn [Z.eqb Pos.eqb]. apply Z.mod_small. apply Hs; lia.
Qed.

(** The 2 x 2 grid with the rows [0, 0] and [0, 255] in every channel. *)
Lemma bilinear_resize_to_one_pixel_witness :
  exists r,
    bilinear_resize_array grid_2x2_corner 1 1 = Ok r
    /\ Np.has_shape 1 1 3 (Np.data r)
    /\ forall k, 0 <= k < 3 -> Np.item (Np.data r) 0 0 k = 0.
Proof.
  apply (bilinear_resize_to_one_pixel grid_2x2_corner);
    [reflexivity | reflexivity | reflexivity
    | unfold Np.height_of; simpl; lia | unfold Np.width_of; simpl; lia].
Defined.

(** X7.  The destination of the bilinear resampler has three channels and a
    source pixel is assigned to it whole: a non-empty source whose channel
    count is neither 3 nor 1 fails at the first assignment with
    [ValueError], and the current image stays. *)
Theorem bilinear_resize_channel_mismatch (s : ImageObjectSingleton)
  (height width : Z) :
  1 <= Np.height_of (img_array s) -> 1 <= Np.width_of (img_array s) ->
  Np.channels_of (img_array s) <> 3 -> Np.channels_of (img_array s) <> 1 ->
  1 <= height -> 1 <= width ->
  bilinear_resize s height width = (Raise ValueError, s).
Proof.
  unfold Np.channels_of, Np.height_of, Np.width_of.
  intros HH HW H3 H1 Hh Hw.
  unfold bilinear_resize, bilinear_resize_array, image_new_rgb.
  set (image := Np.data (img_array s)) in *.
  destruct (Z.ltb_spec width 0); [lia|]. destruct (Z.ltb_spec height 0); [lia|].
  cbn [orb]. rewrite zeros_ok by lia. cbn [bind].
  destruct (range_head height Hh) as (tlh & ->).
  destruct (range_head width Hw) as (tlw & ->).
  cbn [for_each]. unfold bilinear_step at 1.
  change (F64.of_int 0) with 0%Q. rewrite !mul_zero_r.
  change (F64.floor 0) with 0. change (F64.ceil 0) with 0.
  rewrite !get_pixel_in_bounds by lia. cbn [bind].
  unfold Np.set_pixel. cbn [Np.dim0 Np.dim1 Np.dim2].
  rewrite !index_in_bounds by lia. cbn [bind].
  unfold Np.broadcasts.
  destruct (Z.eqb_spec (Np.dim2 image) 3); [contradiction|].
  destruct (Z.eqb_spec (Np.dim2 image) 1); [contradiction|].
  reflexivity.
Qed.

Lemma bilinear_resize_channel_mismatch_witness :
  bilinear_resize current_rgba 3 3 = (Raise ValueError, current_rgba).
Proof.
  apply (bilinear_resize_channel_mismatch current_rgba 3 3);
    unfold Np.channels_of, Np.height_of, Np.width_of; simpl; lia.
Defined.

(** ** Nearest neighbour: where the samples come from *)

(** X3.  Whatever the target size, every sample the nearest-neighbour
    resampler writes is a sample of the same channel of the source
    (reduced to eight bits): it never produces a value that is absent
    from the source. *)
Theorem resize_neighbour_copies_samples (g r : Np.ndarray)
  (height width : Z) :
  resize_neighbour_array g height width = Ok r ->
  forall i j c,
    0 <= i < width -> 0 <= j < height -> 0 <= c < 3 ->
    exists i' j',
      0 <= i' < Np.dim0 (Np.data g) /\ 0 <= j' < Np.dim1 (Np.data g)
      /\ Np.item (Np.data r) i j c = Np.item (Np.data g) i' j' c mod 256.
Proof. exact (resize_neighbour_samples g r height width). Qed.

Lemma resize_neighbour_copies_samples_witness :
  match resize_neighbour_array grid_2x3 7 5 with
  | Ok r =>
      forall i j c,
        0 <= i < 5 -> 0 <= j < 7 -> 0 <= c < 3 ->
        exists i' j',
          0 <= i' < 2 /\ 0 <= j' < 3
          /\ Np.item (Np.data r) i j c = (100 * i' + 10 * j' + c) mod 256
  | Raise _ => False
  end.
Proof.
  assert (Hok : is_ok (resize_neighbour_array grid_2x3 7 5) = true)
    by (vm_compute; reflexivity).
  destruct (resize_neighbour_array grid_2x3 7 5) as [r|e] eqn:E;
    [|discriminate Hok].
  exact (resize_neighbour_copies_samples grid_2x3 r 7 5 E).
Defined.

(** X22.  The nearest-neighbour resampler puts the requested width on the
    first axis and the requested height on the second: a grid it returns
    has [width] rows and [height] columns, with the channel count of the
    source and 8-bit samples. *)
Theorem resize_neighbour_axes (g r : Np.ndarray) (height width : Z) :
  resize_neighbour_array g height width = Ok r ->
  Np.height_of r = width /\ Np.width_of r = height
  /\ Np.channels_of r = Np.channels_of g /\ Np.depth_of r = 8.
Proof.
  intros E. apply resize_neighbour_uint8_shaped in E as (Hdt & H0 & H1 & H2 & _).
  unfold Np.height_of, Np.width_of, Np.channels_of, Np.depth_of.
  rewrite Hdt. auto.
Qed.

Lemma resize_neighbour_axes_witness :
  match resize_neighbour_array grid_2x3 7 5 with
  | Ok r =>
      Np.height_of r = 5 /\ Np.width_of r = 7
      /\ Np.channels_of r = 3 /\ Np.depth_of r = 8
  | Raise _ => False
  end.
Proof.
  assert (Hok : is_ok (resize_neighbour_array grid_2x3 7 5) = true)
    by (vm_compute; reflexivity).
  destruct (resize_neighbour_array grid_2x3 7 5) as [r|e] eqn:E;
    [|discriminate Hok].
  exact (resize_neighbour_axes grid_2x3 r 7 5 E).
Defined.

(** ** [get_pixel] *)

Lemma index_spec (n i : Z) :
  0 <= n ->
  Np.index n i
  = if (- n <=? i) && (i <? n) then Ok (i mod n) else Raise IndexError.
Proof.
  intros Hn. unfold Np.index.
  destruct (Z.leb_spec 0 i); destruct (Z.ltb_spec i n);
    destruct (Z.leb_spec (- n) i); destruct (Z.ltb_spec i 0);
    cbn [andb]; try lia; try reflexivity.
  - now rewrite Z.mod_small by lia.
  - f_equal. apply Z.mod_unique with (q := - 1); lia.
Qed.

(** X9.  [get_pixel(source, col, row)] reads along the first axis with [col]
    and along the second with [row].  It returns the three samples as
    floats when [col] lies in [-H, H) and [row] in [-W, W), a negative
    index counting from the end, and raises [IndexError] otherwise. *)
Theorem get_pixel_spec (source : Np.ndarray) (col row : Z) :
  Np.well_formed source = true ->
  3 <= Np.channels_of source ->
  let H := Np.dim0 (Np.data source) in
  let W := Np.dim1 (Np.data source) in
  ImgFormatTransformerMore.get_pixel source col row
  = if (- H <=? col) && (col <? H) && ((- W <=? row) && (row <? W)) then
      Ok (inject_Z (Np.item (Np.data source) (col mod H) (row mod W) 0),
          inject_Z (Np.item (Np.data source) (col mod H) (row mod W) 1),
          inject_Z (Np.item (Np.data source) (col mod H) (row mod W) 2))
    else Raise IndexError.
Proof.
  intros Hwf Hc H W. unfold Np.channels_of in Hc.
  pose proof (well_formed_spec source Hwf) as Hs.
  assert (Hdims : 0 <= H /\ 0 <= W).
  { unfold Np.well_formed in Hwf. rewrite !andb_true_iff in Hwf.
    unfold H, W. lia. }
  assert (Hbits : 2 ^ Np.bits (Np.dt source) <= 2 ^ 16).
  { destruct (Np.dt source); simpl; lia. }
  unfold ImgFormatTransformerMore.get_pixel.
  rewrite !plane_in_bounds by lia. cbn [bind].
  unfold ImgFormatTransformerMore.item_at. cbn [Np.rows Np.cols Np.item2].
  fold H W. rewrite !(index_spec H col), !(index_spec W row) by lia.
  destruct ((- H <=? col) && (col <? H)) eqn:Ec; cbn [andb bind];
    [|reflexivity].
  destruct ((- W <=? row) && (row <? W)) eqn:Er; cbn [bind]; [|reflexivity].
  rewrite andb_true_iff in Ec, Er.
  assert (Hi : 0 <= col mod H < H) by (apply Z.mod_pos_bound; lia).
  assert (Hj : 0 <= row mod W < W) by (apply Z.mod_pos_bound; lia).
  rewrite !of_int_exact; [reflexivity| | |];
    match goal with
    | |- Z.abs (Np.item _ _ _ ?k) < _ =>
        specialize (Hs (col mod H) (row mod W) k Hi Hj ltac:(lia)); lia
    end.
Qed.

Lemma get_pixel_spec_witness :
  ImgFormatTransformerMore.get_pixel grid_2x3 (- 1) 1
  = Ok (inject_Z 110, inject_Z 111, inject_Z 112).
Proof.
  apply (get_pixel_spec grid_2x3 (- 1) 1);
    [reflexivity | unfold Np.channels_of; simpl; lia].
Defined.

(** ** The histogram shown by [create_hist_plot] *)

Lemma plane_uint8 (g : Np.ndarray) (c : Z) :
  Np.dt g = Np.uint8 -> Np.well_formed g = true ->
  0 <= c < Np.dim2 (Np.data g) ->
  uint8_plane
    (Np.mk_array2 (Np.dim0 (Np.data g)) (Np.dim1 (Np.data g))
       (fun i j => Np.item (Np.data g) i j c)) = true.
Proof.
  intros Hdt Hwf Hc.
  pose proof (well_formed_spec g Hwf) as Hs. rewrite Hdt in Hs.
  change (2 ^ Np.bits Np.uint8) with 256 in Hs.
  unfold Np.well_formed in Hwf. rewrite !andb_true_iff in Hwf.
  unfold uint8_plane. cbn [Np.rows Np.cols].
  rewrite !andb_true_iff. split; [lia|].
  apply forallb_forall. intros v Hv. unfold samples in Hv.
  cbn [Np.rows Np.cols Np.item2] in Hv.
  apply in_flat_map in Hv as (i & Hi & Hv).
  apply in_map_iff in Hv as (j & <- & Hj).
  apply in_range in Hi, Hj. specialize (Hs i j c Hi Hj Hc).
  rewrite andb_true_iff. lia.
Qed.

Import ImageHistPlotterMore.

Lemma prefix_sums_from_bounds (acc : Z) (l : list Z) :
  Forall (fun c => 0 <= c) l ->
  Forall (fun p => acc <= p <= acc + sum_Z l) (prefix_sums_from acc l).
Proof.
  revert acc. induction l as [|x l IH]; intros acc Hl; simpl; [constructor|].
  inversion Hl as [|? ? Hx Hl']; subst.
  assert (0 <= sum_Z l).
  { clear - Hl'. induction Hl'; simpl; lia. }
  constructor; [lia|].
  eapply Forall_impl; [|apply IH; exact Hl']. simpl. intros p Hp. lia.
Qed.

Lemma cumsum_f64_from_int (acc : Z) (l : list Z) :
  Forall (fun c => 0 <= c) l -> 0 <= acc -> acc + sum_Z l < 2 ^ 53 ->
  cumsum_f64_from (inject_Z acc) (map inject_Z l)
  = map inject_Z (prefix_sums_from acc l).
Proof.
  revert acc. induction l as [|x l IH]; intros acc Hl Hacc Hsum; simpl;
    [reflexivity|].
  inversion Hl as [|? ? Hx Hl']; subst. simpl in Hsum.
  assert (0 <= sum_Z l).
  { clear - Hl'. induction Hl'; simpl; lia. }
  rewrite add_int_exact by lia. f_equal. apply IH; auto; lia.
Qed.

Lemma cumsum_f64_int (l : list Z) :
  Forall (fun c => 0 <= c) l -> sum_Z l < 2 ^ 53 ->
  cumsum_f64 (map inject_Z l) = map inject_Z (prefix_sums l).
Proof.
  intros Hl Hsum. destruct l as [|x l]; [reflexivity|].
  inversion Hl as [|? ? Hx Hl']; subst. simpl in Hsum.
  unfold cumsum_f64, prefix_sums. cbn [map prefix_sums_from].
  rewrite Z.add_0_l. f_equal. apply cumsum_f64_from_int; auto; lia.
Qed.

Lemma sum_Z_nonneg (l : list Z) :
  Forall (fun c => 0 <= c) l -> 0 <= sum_Z l.
Proof. induction 1; simpl; lia. Qed.

Lemma prefix_sums_from_nth (acc : Z) (l : list Z) (k : nat) (d : Z) :
  (k < length l)%nat ->
  nth k (prefix_sums_from acc l) d = acc + sum_Z (firstn (S k) l).
Proof.
  revert acc k. induction l as [|x l IH]; intros acc k Hk; simpl in Hk;
    [lia|].
  destruct k as [|k].
  - simpl. destruct l; simpl; lia.
  - cbn [prefix_sums_from nth]. rewrite IH by lia.
    change (firstn (S (S k)) (x :: l)) with (x :: firstn (S k) l).
    simpl. lia.
Qed.

Lemma sum_Z_firstn_nonneg (l : list Z) (k : nat) :
  Forall (fun c => 0 <= c) l -> 0 <= sum_Z (firstn k l).
Proof.
  intros Hl. revert k. induction Hl as [|x l Hx Hl IH]; intros k.
  - rewrite firstn_nil. simpl. lia.
  - destruct k as [|k]; simpl; [lia|]. specialize (IH k). lia.
Qed.

Lemma sum_Z_firstn_le (l : list Z) (k1 k2 : nat) :
  Forall (fun c => 0 <= c) l -> (k1 <= k2)%nat ->
  sum_Z (firstn k1 l) <= sum_Z (firstn k2 l).
Proof.
  intros Hl. revert k1 k2.
  induction Hl as [|x l Hx Hl IH]; intros k1 k2 Hk.
  - rewrite !firstn_nil. lia.
  - destruct k1 as [|k1].
    + change (firstn 0 (x :: l)) with (@nil Z). simpl sum_Z at 1.
      apply sum_Z_firstn_nonneg. constructor; auto.
    + destruct k2 as [|k2]; [lia|]. simpl.
      specialize (IH k1 k2 ltac:(lia)). lia.
Qed.

Lemma counts_nonneg (image : Np.array2 Z) :
  Forall (fun c => 0 <= c) (counts image).
Proof.
  apply Forall_forall. intros c Hc. apply in_counts in Hc as (v & _ & ->).
  unfold occurrences. lia.
Qed.

(** X10.  [create_hist_plot] on a channel of an 8-bit image: the cumulative
    sum it hands to the plot (the curve of the second plot) is the running
    sum of the true bucket counts; it never decreases, gives at [v] the
    number of samples not above [v] and ends at [height * width]. *)
Theorem create_hist_plot_cumulative (img_array : Np.ndarray) (channel : Z) :
  Np.dt img_array = Np.uint8 ->
  Np.well_formed img_array = true ->
  0 <= channel < Np.channels_of img_array ->
  Np.height_of img_array * Np.width_of img_array < 2 ^ 53 ->
  exists plane,
    Np.plane (Np.data img_array) channel = Ok plane
    /\ create_hist_plot_data img_array channel
       = Ok (plane, map inject_Z (prefix_sums (counts plane)))
    /\ (forall v, 0 <= v < 256 ->
          nth (Z.to_nat v) (prefix_sums (counts plane)) 0
          = sum_Z (firstn (S (Z.to_nat v)) (counts plane)))
    /\ (forall u v, 0 <= u <= v -> v < 256 ->
          nth (Z.to_nat u) (prefix_sums (counts plane)) 0
          <= nth (Z.to_nat v) (prefix_sums (counts plane)) 0)
    /\ nth 255 (prefix_sums (counts plane)) 0
       = Np.height_of img_array * Np.width_of img_array.
Proof.
  unfold Np.channels_of, Np.height_of, Np.width_of.
  intros Hdt Hwf Hc Hsize.
  pose proof (plane_uint8 img_array channel Hdt Hwf Hc) as Hp.
  set (plane := Np.mk_array2 _ _ _) in Hp.
  exists plane. split; [now apply plane_in_bounds|]. split.
  - unfold create_hist_plot_data. rewrite plane_in_bounds by exact Hc.
    cbn [bind]. fold plane.
    rewrite compute_hist_counts by (auto; exact Hsize). cbn [bind].
    rewrite cumsum_f64_int; [reflexivity|apply counts_nonneg|].
    rewrite counts_sum by exact Hp. exact Hsize.
  - assert (Hnth : forall v, 0 <= v < 256 ->
              nth (Z.to_nat v) (prefix_sums (counts plane)) 0
              = sum_Z (firstn (S (Z.to_nat v)) (counts plane))).
    { intros v Hv. unfold prefix_sums.
      rewrite prefix_sums_from_nth by (rewrite counts_length; lia). lia. }
    split; [exact Hnth|]. split.
    + intros u v Hu Hv. rewrite !Hnth by lia.
      apply sum_Z_firstn_le; [apply counts_nonneg|lia].
    + change 255%nat with (Z.to_nat 255). rewrite Hnth by lia.
      rewrite firstn_all2 by (rewrite counts_length; simpl; lia).
      now rewrite counts_sum.
Qed.

Lemma create_hist_plot_cumulative_witness :
  exists plane,
    Np.plane (Np.data grid_2x3) 1 = Ok plane
    /\ create_hist_plot_data grid_2x3 1
       = Ok (plane, map inject_Z (prefix_sums (counts plane)))
    /\ (forall v, 0 <= v < 256 ->
          nth (Z.to_nat v) (prefix_sums (counts plane)) 0
          = sum_Z (firstn (S (Z.to_nat v)) (counts plane)))
    /\ (forall u v, 0 <= u <= v -> v < 256 ->
          nth (Z.to_nat u) (prefix_sums (counts plane)) 0
          <= nth (Z.to_nat v) (prefix_sums (counts plane)) 0)
    /\ nth 255 (prefix_sums (counts plane)) 0
       = Np.height_of grid_2x3 * Np.width_of grid_2x3.
Proof.
  apply (create_hist_plot_cumulative grid_2x3 1);
    [reflexivity | reflexivity | unfold Np.channels_of; simpl; lia
    | unfold Np.height_of, Np.width_of; simpl; lia].
Defined.

(** ** The lookup table of [image_channel_from_hist] *)

Lemma uint8_plane_item (p : Np.array2 Z) (x y : Z) :
  uint8_plane p = true -> 0 <= x < Np.rows p -> 0 <= y < Np.cols p ->
  0 <= Np.item2 p x y < 256.
Proof.
  intros H Hx Hy. apply uint8_plane_spec in H as (_ & _ & Hs).
  rewrite Forall_forall in Hs. apply Hs. unfold samples.
  apply in_flat_map. exists x. split; [now apply in_range|].
  apply in_map_iff. exists y. split; [reflexivity|now apply in_range].
Qed.

Lemma fold_left_min_spec (l : list Z) (x : Z) :
  let m := fold_left Z.min l x in
  m <= x /\ Forall (fun v => m <= v) l /\ (m = x \/ In m l).
Proof.
  revert x. induction l as [|y l IH]; intros x; simpl.
  - split; [lia|]. split; [constructor|auto].
  - destruct (IH (Z.min x y)) as (H1 & H2 & H3).
    set (m := fold_left Z.min l (Z.min x y)) in *.
    split; [lia|]. split; [constructor; [lia|exact H2]|].
    destruct H3 as [H3|H3]; [|auto].
    destruct (Z.min_spec x y) as [[_ E]|[_ E]]; 
      [left; lia|right; left; lia].
Qed.

Lemma fold_left_max_spec (l : list Z) (x : Z) :
  let m := fold_left Z.max l x in
  x <= m /\ Forall (fun v => v <= m) l /\ (m = x \/ In m l).
Proof.
  revert x. induction l as [|y l IH]; intros x; simpl.
  - split; [lia|]. split; [constructor|auto].
  - destruct (IH (Z.max x y)) as (H1 & H2 & H3).
    set (m := fold_left Z.max l (Z.max x y)) in *.
    split; [lia|]. split; [constructor; [lia|exact H2]|].
    destruct H3 as [H3|H3]; [|auto].
    destruct (Z.max_spec x y) as [[_ E]|[_ E]]; 
      [right; left; lia|left; lia].
Qed.

Lemma py_min_spec (l : list Z) (m : Z) :
  py_min l = Ok m -> In m l /\ Forall (fun v => m <= v) l.
Proof.
  destruct l as [|x l]; [discriminate|]. intros E. inversion E as [E'].
  destruct (fold_left_min_spec l x) as (H1 & H2 & H3). split.
  - destruct H3 as [-> | H3]; simpl; auto.
  - constructor; auto.
Qed.

Lemma py_max_spec (l : list Z) (m : Z) :
  py_max l = Ok m -> In m l /\ Forall (fun v => v <= m) l.
Proof.
  destruct l as [|x l]; [discriminate|]. intros E. inversion E as [E'].
  destruct (fold_left_max_spec l x) as (H1 & H2 & H3). split.
  - destruct H3 as [-> | H3]; simpl; auto.
  - constructor; auto.
Qed.

Lemma py_min_nonempty (l : list Z) : l <> [] -> exists m, py_min l = Ok m.
Proof. destruct l; [congruence|simpl; eauto]. Qed.

Lemma py_max_nonempty (l : list Z) : l <> [] -> exists m, py_max l = Ok m.
Proof. destruct l; [congruence|simpl; eauto]. Qed.

Lemma cumsum_from_length (acc : Z) (l : list Z) :
  length (cumsum_from acc l) = length l.
Proof.
  revert acc. induction l as [|x l IH]; intros acc; simpl; auto.
Qed.

Lemma tone_curve_ok (hist : list Z) :
  hist <> [] ->
  exists cs, tone_curve hist = Ok cs /\ length cs = length hist.
Proof.
  intros Hne. unfold tone_curve.
  assert (Hc : cumsum hist <> []).
  { intros E. apply (f_equal (@length Z)) in E. unfold cumsum in E.
    rewrite cumsum_from_length in E. destruct hist; [congruence|discriminate]. }
  destruct (py_min_nonempty _ Hc) as (lo & ->).
  destruct (py_max_nonempty _ Hc) as (hi & ->). cbn [bind].
  eexists. split; [reflexivity|].
  rewrite length_map. apply cumsum_from_length.
Qed.

Lemma lookup_ok (cs : list Z) (img_channel : Np.array2 Z) :
  length cs = 256%nat -> uint8_plane img_channel = true ->
  exists out,
    lookup cs img_channel = Ok out
    /\ Np.rows out = Np.rows img_channel
    /\ Np.cols out = Np.cols img_channel
    /\ forall x y, 0 <= x < Np.rows img_channel ->
         0 <= y < Np.cols img_channel ->
         Np.item2 out x y = nth (Z.to_nat (Np.item2 img_channel x y)) cs 0.
Proof.
  intros Hlen Hp. unfold lookup. rewrite Hlen.
  rewrite for_each_const.
  - cbn [bind]. eexists. split; [reflexivity|].
    cbn [Np.rows Np.cols Np.item2]. split; [reflexivity|].
    split; [reflexivity|]. intros x y Hx Hy.
    pose proof (uint8_plane_item _ x y Hp Hx Hy) as Hv.
    rewrite index_in_bounds by (simpl; lia). reflexivity.
  - intros x Hx. apply in_range in Hx. apply for_each_const.
    intros y Hy. apply in_range in Hy.
    pose proof (uint8_plane_item _ x y Hp Hx Hy) as Hv.
    rewrite index_in_bounds by (simpl; lia). reflexivity.
Qed.

Lemma image_channel_from_hist_table (hist : list Z)
  (img_channel : Np.array2 Z) :
  length hist = 256%nat -> uint8_plane img_channel = true ->
  exists table out,
    length table = 256%nat
    /\ Forall (fun t => 0 <= t < 256) table
    /\ image_channel_from_hist hist img_channel = Ok out
    /\ Np.rows out = Np.rows img_channel
    /\ Np.cols out = Np.cols img_channel
    /\ forall x y, 0 <= x < Np.rows img_channel ->
         0 <= y < Np.cols img_channel ->
         Np.item2 out x y
         = nth (Z.to_nat (Np.item2 img_channel x y)) table 0.
Proof.
  intros Hlen Hp. unfold image_channel_from_hist.
  destruct (tone_curve_ok hist) as (cs & -> & Hcs).
  { intros ->. discriminate. }
  cbn [bind]. set (table := map float64_to_uint8 cs).
  assert (Htl : length table = 256%nat).
  { unfold table. rewrite length_map. congruence. }
  destruct (lookup_ok table img_channel Htl Hp) as (out & E & Hr & Hc & Hi).
  exists table, out. split; [exact Htl|]. split; [|auto].
  apply Forall_forall. intros t Ht. unfold table in Ht.
  apply in_map_iff in Ht as (f & <- & _).
  destruct f; simpl; [apply float_to_uint8_range|lia|lia].
Qed.

(** X11.  [image_channel_from_hist] never fails on an 8-bit plane and a
    histogram of 256 buckets, whatever the buckets hold: a zero divisor is
    not refused.  The result has the plane's shape and every sample is the
    entry of one 256-entry table of 8-bit values at the source sample. *)
Theorem image_channel_from_hist_total (hist : list Z)
  (img_channel : Np.array2 Z) :
  length hist = 256%nat -> uint8_plane img_channel = true ->
  exists table out,
    length table = 256%nat
    /\ Forall (fun t => 0 <= t < 256) table
    /\ image_channel_from_hist hist img_channel = Ok out
    /\ Np.rows out = Np.rows img_channel
    /\ Np.cols out = Np.cols img_channel
    /\ forall x y, 0 <= x < Np.rows img_channel ->
         0 <= y < Np.cols img_channel ->
         Np.item2 out x y
         = nth (Z.to_nat (Np.item2 img_channel x y)) table 0.
Proof. exact (image_channel_from_hist_table hist img_channel). Qed.

Lemma image_channel_from_hist_total_witness :
  exists table out,
    length table = 256%nat
    /\ Forall (fun t => 0 <= t < 256) table
    /\ image_channel_from_hist (repeat 0 256) plane_2x3 = Ok out
    /\ Np.rows out = Np.rows plane_2x3
    /\ Np.cols out = Np.cols plane_2x3
    /\ forall x y, 0 <= x < Np.rows plane_2x3 ->
         0 <= y < Np.cols plane_2x3 ->
         Np.item2 out x y
         = nth (Z.to_nat (Np.item2 plane_2x3 x y)) table 0.
Proof.
  apply (image_channel_from_hist_total (repeat 0 256) plane_2x3);
    reflexivity.
Defined.

(** ** The two ends of the tone curve, and the flat histogram *)

Lemma sum_Z_uint8_bound (l : list Z) :
  Forall (fun h => 0 <= h < 256) l ->
  0 <= sum_Z l <= 255 * Z.of_nat (length l).
Proof. induction 1; simpl length; simpl sum_Z; lia. Qed.

Lemma cumsum_from_no_wrap (acc : Z) (l : list Z) :
  Forall (fun c => 0 <= c) l -> 0 <= acc -> acc + sum_Z l < 2 ^ 64 ->
  cumsum_from acc l = prefix_sums_from acc l.
Proof.
  revert acc. induction l as [|x l IH]; intros acc Hl Hacc Hsum; simpl;
    [reflexivity|].
  inversion Hl as [|? ? Hx Hl']; subst. simpl in Hsum.
  pose proof (sum_Z_nonneg l Hl').
  rewrite Z.mod_small by lia. f_equal. apply IH; auto; lia.
Qed.

(** The raw cumulative sum, its minimum and its maximum for a histogram
    of 8-bit buckets. *)
Lemma cumsum_uint8 (h0 : Z) (tl : list Z) :
  Forall (fun h => 0 <= h < 256) (h0 :: tl) ->
  length (h0 :: tl) = 256%nat ->
  cumsum (h0 :: tl) = prefix_sums (h0 :: tl)
  /\ py_min (prefix_sums (h0 :: tl)) = Ok h0
  /\ py_max (prefix_sums (h0 :: tl)) = Ok (h0 + sum_Z tl)
  /\ Forall (fun c => h0 <= c <= h0 + sum_Z tl) (prefix_sums (h0 :: tl)).
Proof.
  intros Hh Hlen.
  pose proof (sum_Z_uint8_bound _ Hh) as Hb. rewrite Hlen in Hb.
  assert (Hnn : Forall (fun c => 0 <= c) (h0 :: tl)).
  { eapply Forall_impl; [|exact Hh]. simpl. intros; lia. }
  inversion Hh as [|? ? H0 Htl]; subst.
  inversion Hnn as [|? ? _ Hnn']; subst.
  pose proof (sum_Z_nonneg tl Hnn') as Hs. simpl sum_Z in Hb.
  assert (Hall : Forall (fun c => h0 <= c <= h0 + sum_Z tl)
                   (prefix_sums (h0 :: tl))).
  { unfold prefix_sums. cbn [prefix_sums_from]. rewrite Z.add_0_l.
    constructor; [lia|]. now apply prefix_sums_from_bounds. }
  split; [|split; [|split; [|exact Hall]]].
  - unfold cumsum. apply cumsum_from_no_wrap; auto; simpl; lia.
  - destruct (py_min_nonempty (prefix_sums (h0 :: tl))) as (m & E).
    { unfold prefix_sums. simpl. discriminate. }
    rewrite E. f_equal. apply py_min_spec in E as (Hin & Hle).
    rewrite Forall_forall in Hall, Hle. apply Hall in Hin.
    assert (In h0 (prefix_sums (h0 :: tl))).
    { unfold prefix_sums. simpl. auto. }
    specialize (Hle h0 H). lia.
  - destruct (py_max_nonempty (prefix_sums (h0 :: tl))) as (m & E).
    { unfold prefix_sums. simpl. discriminate. }
    rewrite E. f_equal. apply py_max_spec in E as (Hin & Hle).
    rewrite Forall_forall in Hall, Hle. apply Hall in Hin.
    assert (In (h0 + sum_Z tl) (prefix_sums (h0 :: tl))).
    { replace (h0 + sum_Z tl)
        with (nth 255 (prefix_sums (h0 :: tl)) 0).
      - apply nth_In. unfold prefix_sums.
        assert (L : forall a l, length (prefix_sums_from a l) = length l).
        { intros a l. revert a. induction l; intros; simpl; auto. }
        rewrite L, Hlen. lia.
      - unfold prefix_sums. rewrite prefix_sums_from_nth by (rewrite Hlen; lia).
        rewrite firstn_all2 by (rewrite Hlen; lia). simpl. lia. }
    specialize (Hle _ H). lia.
Qed.

(** The table [image_channel_from_hist] looks the samples up in. *)
Lemma tone_curve_uint8 (h0 : Z) (tl : list Z) :
  Forall (fun h => 0 <= h < 256) (h0 :: tl) ->
  length (h0 :: tl) = 256%nat ->
  tone_curve (h0 :: tl)
  = Ok (map (fun c => true_divide ((c - h0) * 255) (sum_Z tl))
          (prefix_sums (h0 :: tl))).
Proof.
  intros Hh Hlen.
  destruct (cumsum_uint8 h0 tl Hh Hlen) as (Ec & Emin & Emax & Hall).
  pose proof (sum_Z_uint8_bound _ Hh) as Hb. rewrite Hlen in Hb.
  inversion Hh as [|? ? H0 Htl]; subst. simpl sum_Z in Hb.
  unfold tone_curve. rewrite Ec, Emin, Emax. cbn [bind]. f_equal.
  apply map_ext_in. intros c Hc. rewrite Forall_forall in Hall.
  apply Hall in Hc.
  replace (h0 + sum_Z tl - h0) with (sum_Z tl) by lia.
  rewrite (Z.mod_small (c - h0)) by lia.
  rewrite (Z.mod_small ((c - h0) * 255)) by nia.
  rewrite (Z.mod_small (sum_Z tl)) by lia. reflexivity.
Qed.

Lemma prefix_sums_length (l : list Z) : length (prefix_sums l) = length l.
Proof.
  unfold prefix_sums. generalize 0.
  induction l; intros; simpl; auto.
Qed.

Lemma table_nth (h0 : Z) (tl : list Z) (k : nat) :
  (k < 256)%nat -> length (h0 :: tl) = 256%nat ->
  nth k (map float64_to_uint8
           (map (fun c => true_divide ((c - h0) * 255) (sum_Z tl))
              (prefix_sums (h0 :: tl)))) 0
  = float64_to_uint8
      (true_divide ((h0 + sum_Z (firstn k tl) - h0) * 255) (sum_Z tl)).
Proof.
  intros Hk Hlen. rewrite map_map.
  set (g := fun c => float64_to_uint8
                       (true_divide ((c - h0) * 255) (sum_Z tl))).
  rewrite (nth_indep _ 0 (g 0)) by (rewrite length_map, prefix_sums_length; lia).
  rewrite map_nth. unfold g, prefix_sums.
  rewrite prefix_sums_from_nth by lia.
  change (firstn (S k) (h0 :: tl)) with (h0 :: firstn k tl).
  simpl sum_Z. reflexivity.
Qed.

Lemma div_zero_num (d : Z) :
  0 < d < 2 ^ 53 ->
  float64_to_uint8 (true_divide 0 d) = 0.
Proof.
  intros Hd. unfold true_divide.
  destruct (Z.eqb_spec d 0); [lia|]. simpl float64_to_uint8.
  unfold F64.div.
  rewrite (rnd_compat _ (inject_Z 0)).
  - rewrite rnd_inject_Z by (simpl; lia). apply float_to_uint8_int. lia.
  - rewrite !of_int_exact by lia. unfold Qdiv. ring.
Qed.

Lemma div_full_scale (d : Z) :
  0 < d < 2 ^ 40 ->
  float64_to_uint8 (true_divide (d * 255) d) = 255.
Proof.
  intros Hd. unfold true_divide.
  destruct (Z.eqb_spec d 0); [lia|]. simpl float64_to_uint8.
  unfold F64.div.
  rewrite (rnd_compat _ (inject_Z 255)).
  - rewrite rnd_inject_Z by (simpl; lia). apply float_to_uint8_int. lia.
  - rewrite !of_int_exact by lia. rewrite inject_Z_mult.
    field. intros E. apply (inject_Z_injective d 0) in E. lia.
Qed.

(** The two ends of the table: the sample 0 goes to 0 and the sample 255
    to 255 as soon as some bucket after the first is not zero. *)
Lemma image_channel_from_hist_ends (hist : list Z)
  (img_channel : Np.array2 Z) :
  length hist = 256%nat ->
  Forall (fun h => 0 <= h < 256) hist ->
  0 < sum_Z (tl hist) ->
  uint8_plane img_channel = true ->
  exists out,
    image_channel_from_hist hist img_channel = Ok out
    /\ forall x y, 0 <= x < Np.rows img_channel ->
         0 <= y < Np.cols img_channel ->
         (Np.item2 img_channel x y = 0 -> Np.item2 out x y = 0)
         /\ (Np.item2 img_channel x y = 255 -> Np.item2 out x y = 255).
Proof.
  intros Hlen Hh Hs Hp. destruct hist as [|h0 tl]; [discriminate|].
  cbn [List.tl] in Hs.
  pose proof (sum_Z_uint8_bound _ Hh) as Hb. rewrite Hlen in Hb.
  inversion Hh as [|? ? H0 Htl]; subst. simpl sum_Z in Hb.
  unfold image_channel_from_hist.
  rewrite tone_curve_uint8 by assumption. cbn [bind].
  match goal with |- context [lookup ?t _] => set (table := t) end.
  assert (Htl' : length table = 256%nat).
  { unfold table. rewrite !length_map, prefix_sums_length. exact Hlen. }
  destruct (lookup_ok table img_channel Htl' Hp) as (out & E & _ & _ & Hi).
  exists out. split; [exact E|]. intros x y Hx Hy.
  rewrite (Hi x y Hx Hy). split; intros ->.
  - change (Z.to_nat 0) with 0%nat. unfold table.
    rewrite table_nth by (auto; lia). simpl firstn. simpl sum_Z.
    replace ((h0 + 0 - h0) * 255) with 0 by lia.
    apply div_zero_num. lia.
  - change (Z.to_nat 255) with 255%nat. unfold table.
    rewrite table_nth by (auto; lia).
    rewrite firstn_all2 by (simpl in Hlen; lia).
    replace ((h0 + sum_Z tl - h0) * 255) with (sum_Z tl * 255) by lia.
    apply div_full_scale. lia.
Qed.

(** X12.  When some bucket other than the first is not zero, the table sends
    the sample 0 to 0 and the sample 255 to 255: so does
    [image_channel_from_hist] with every such sample of the plane. *)
Theorem image_channel_from_hist_endpoints (hist : list Z)
  (img_channel : Np.array2 Z) :
  length hist = 256%nat ->
  Forall (fun h => 0 <= h < 256) hist ->
  0 < sum_Z (tl hist) ->
  uint8_plane img_channel = true ->
  exists out,
    image_channel_from_hist hist img_channel = Ok out
    /\ forall x y, 0 <= x < Np.rows img_channel ->
         0 <= y < Np.cols img_channel ->
         (Np.item2 img_channel x y = 0 -> Np.item2 out x y = 0)
         /\ (Np.item2 img_channel x y = 255 -> Np.item2 out x y = 255).
Proof.
  exact (image_channel_from_hist_ends hist img_channel).
Qed.

Lemma image_channel_from_hist_endpoints_witness :
  exists out,
    image_channel_from_hist hist_ones plane_0_255 = Ok out
    /\ forall x y, 0 <= x < Np.rows plane_0_255 ->
         0 <= y < Np.cols plane_0_255 ->
         (Np.item2 plane_0_255 x y = 0 -> Np.item2 out x y = 0)
         /\ (Np.item2 plane_0_255 x y = 255 -> Np.item2 out x y = 255).
Proof.
  apply (image_channel_from_hist_endpoints hist_ones plane_0_255);
    [reflexivity | | vm_compute; reflexivity | reflexivity].
  constructor; [lia|]. apply Forall_forall. intros h Hh.
  apply repeat_spec in Hh. lia.
Defined.

(** X13.  When every bucket but the first is zero, the stretch divides zero by
    zero; nothing is raised, and every sample of the result is 0. *)
Theorem image_channel_from_hist_flat (hist : list Z)
  (img_channel : Np.array2 Z) :
  length hist = 256%nat ->
  Forall (fun h => 0 <= h < 256) hist ->
  sum_Z (tl hist) = 0 ->
  uint8_plane img_channel = true ->
  exists out,
    image_channel_from_hist hist img_channel = Ok out
    /\ Np.rows out = Np.rows img_channel
    /\ Np.cols out = Np.cols img_channel
    /\ forall x y, 0 <= x < Np.rows img_channel ->
         0 <= y < Np.cols img_channel -> Np.item2 out x y = 0.
Proof.
  intros Hlen Hh Hs Hp. destruct hist as [|h0 tl]; [discriminate|].
  cbn [List.tl] in Hs.
  unfold image_channel_from_hist.
  rewrite tone_curve_uint8 by assumption. cbn [bind].
  match goal with |- context [lookup ?t _] => set (table := t) end.
  assert (Htl' : length table = 256%nat).
  { unfold table. rewrite !length_map, prefix_sums_length. exact Hlen. }
  destruct (lookup_ok table img_channel Htl' Hp) as (out & E & Hr & Hc & Hi).
  exists out. split; [exact E|]. split; [exact Hr|]. split; [exact Hc|].
  intros x y Hx Hy. rewrite (Hi x y Hx Hy).
  pose proof (uint8_plane_item _ x y Hp Hx Hy) as Hv.
  unfold table. rewrite table_nth by (auto; lia).
  assert (Hk : sum_Z (firstn (Z.to_nat (Np.item2 img_channel x y)) tl) = 0).
  { inversion Hh as [|? ? _ Htl]; subst.
    assert (Hnn : Forall (fun c => 0 <= c) tl).
    { eapply Forall_impl; [|exact Htl]. simpl. intros; lia. }
    pose proof (sum_Z_firstn_nonneg tl
                  (Z.to_nat (Np.item2 img_channel x y)) Hnn).
    pose proof (sum_Z_firstn_le tl
                  (Z.to_nat (Np.item2 img_channel x y)) (length tl) Hnn).
    rewrite firstn_all in H0. simpl in Hlen. lia. }
  rewrite Hk, Hs.
  replace ((h0 + 0 - h0) * 255) with 0 by lia. reflexivity.
Qed.

Lemma image_channel_from_hist_flat_witness :
  exists out,
    image_channel_from_hist hist_first_only plane_0_255 = Ok out
    /\ Np.rows out = Np.rows plane_0_255
    /\ Np.cols out = Np.cols plane_0_255
    /\ forall x y, 0 <= x < Np.rows plane_0_255 ->
         0 <= y < Np.cols plane_0_255 -> Np.item2 out x y = 0.
Proof.
  apply (image_channel_from_hist_flat hist_first_only plane_0_255);
    [reflexivity | | vm_compute; reflexivity | reflexivity].
  constructor; [lia|]. apply Forall_forall. intros h Hh.
  apply repeat_spec in Hh. lia.
Defined.

(** ** [apply_contrast_correction] *)

Lemma for_each_fails {S X : Type} (l : list X) (f : S -> X -> result S)
  (x : X) :
  In x l -> (forall s, is_ok (f s x) = false) ->
  forall s, is_ok (for_each l f s) = false.
Proof.
  induction l as [|y l IH]; intros Hin Hf s; [destruct Hin|].
  simpl. destruct Hin as [-> | Hin].
  - specialize (Hf s). destruct (f s x); [discriminate|reflexivity].
  - destruct (f s y); [|reflexivity]. simpl. now apply IH.
Qed.

Lemma set_plane_same_shape (a : Np.array3 Z) (c : Z) (p : Np.array2 Z) :
  0 <= c < Np.dim2 a -> Np.rows p = Np.dim0 a -> Np.cols p = Np.dim1 a ->
  exists a',
    Np.set_plane Np.int_to_uint8 a c p = Ok a'
    /\ (forall i j, 0 <= i < Np.dim0 a -> 0 <= j < Np.dim1 a ->
          Np.item a' i j c = Np.int_to_uint8 (Np.item2 p i j))
    /\ (forall i j k, k <> c -> Np.item a' i j k = Np.item a i j k).
Proof.
  intros Hc Hr Hcol. unfold Np.set_plane.
  rewrite index_in_bounds by exact Hc. cbn [bind].
  unfold Np.broadcasts. rewrite Hr, Hcol, !Z.eqb_refl. cbn [orb andb].
  eexists. split; [reflexivity|]. cbn [Np.item]. split.
  - intros i j Hi Hj. rewrite Z.eqb_refl.
    destruct (Z.eqb_spec (Np.dim0 a) 1) as [E0|_];
      destruct (Z.eqb_spec (Np.dim1 a) 1) as [E1|_];
      repeat f_equal; lia.
  - intros i j k Hk. destruct (Z.eqb_spec k c); [contradiction|reflexivity].
Qed.

(** X14.  With fewer than three channels the loop over 'r', 'g', 'b' slices a
    channel that is not there: the function raises whatever the ignore
    range, and the current image stays. *)
Theorem apply_contrast_correction_needs_three_channels
  (s : ImageObjectSingleton) (ignore_range : option Q) :
  0 <= Np.channels_of (img_array s) < 3 ->
  exists e, apply_contrast_correction s ignore_range = (Raise e, s).
Proof.
  unfold Np.channels_of. intros H.
  unfold apply_contrast_correction.
  assert (G : is_ok (apply_contrast_correction_array (img_array s)
                       ignore_range) = false).
  { unfold apply_contrast_correction_array.
    destruct (Np.zeros 0 _ _ _) as [z|]; [|reflexivity]. cbn [bind].
    match goal with
    | |- is_ok (bind (for_each ?l ?f _) _) = false =>
        assert (F' : forall z', is_ok (for_each l f z') = false)
    end.
    { apply for_each_fails with (x := Np.dim2 (Np.data (img_array s))).
      - simpl. lia.
      - intros z'. cbv beta. rewrite plane_out_of_bounds by lia.
        reflexivity. }
    specialize (F' z).
    destruct (for_each _ _ z); [discriminate|reflexivity]. }
  destruct (apply_contrast_correction_array _ _) as [a|e]; [discriminate|].
  exists e. reflexivity.
Qed.

Lemma apply_contrast_correction_needs_three_channels_witness :
  exists e,
    apply_contrast_correction current_1x1_grey (Some (1 # 4))
    = (Raise e, current_1x1_grey).
Proof.
  apply (apply_contrast_correction_needs_three_channels current_1x1_grey);
    unfold Np.channels_of; simpl; lia.
Defined.

Lemma correct_channel_without_clip (img_c : Np.array2 Z)
  (ignore_range : option Q) :
  truthy ignore_range = false ->
  uint8_plane img_c = true -> Np.rows img_c * Np.cols img_c < 2 ^ 31 ->
  correct_channel img_c ignore_range
  = image_channel_from_hist (map (fun n => n mod 256) (counts img_c)) img_c.
Proof.
  intros Ht Hp Hsize. unfold correct_channel, auto_contrast_correction.
  rewrite hist_uint8_counts by assumption. cbn [bind].
  destruct ignore_range as [r|]; [rewrite Ht|]; reflexivity.
Qed.

Lemma counts_mod_length (p : Np.array2 Z) :
  length (map (fun n => n mod 256) (counts p)) = 256%nat.
Proof. rewrite length_map. apply counts_length. Qed.

(** X15.  With no ignore range (the dialog cancelled) or the ignore range 0, the
    correction of an 8-bit image of at least three channels and fewer than
    [2^31] pixels never fails.  The new image is 8-bit and has the shape of
    the old one; each of its channels 0, 1 and 2 is what
    [image_channel_from_hist] makes of the old channel and its bucket
    counts modulo 256, and every further channel is zero. *)
Theorem apply_contrast_correction_without_clip (img_array : Np.ndarray)
  (ignore_range : option Q) :
  truthy ignore_range = false ->
  Np.dt img_array = Np.uint8 ->
  Np.well_formed img_array = true ->
  3 <= Np.channels_of img_array ->
  Np.height_of img_array * Np.width_of img_array < 2 ^ 31 ->
  exists new_img,
    apply_contrast_correction_array img_array ignore_range
    = Ok (Np.mk_ndarray Np.uint8 new_img)
    /\ Np.uint8_shaped (Np.height_of img_array) (Np.width_of img_array)
         (Np.channels_of img_array) new_img
    /\ (forall c, 0 <= c < 3 -> equalised (Np.data img_array) new_img c)
    /\ (forall i j k, 3 <= k -> Np.item new_img i j k = 0).
Proof.
  unfold Np.channels_of, Np.height_of, Np.width_of.
  intros Ht Hdt Hwf Hc Hsize.
  set (a := Np.data img_array) in *.
  assert (Hd : 0 <= Np.dim0 a /\ 0 <= Np.dim1 a).
  { unfold Np.well_formed in Hwf. fold a in Hwf.
    rewrite !andb_true_iff in Hwf. lia. }
  unfold apply_contrast_correction_array. fold a.
  rewrite zeros_ok by lia. cbn [bind].
  set (P := fun (done : list Z) (s : Np.array3 Z) =>
              Np.uint8_shaped (Np.dim0 a) (Np.dim1 a) (Np.dim2 a) s
              /\ (forall i j k, ~ In k done -> Np.item s i j k = 0)
              /\ (forall c, In c done -> equalised a s c)).
  match goal with
  | |- context [for_each ?l ?f ?z] =>
      destruct (for_each_progress P l f) with (s := z)
        as (new_img & E & Hshape & Hzero & Heq)
  end.
  - intros done c s Hin (Hs & Hz & He).
    assert (Hc3 : 0 <= c < 3) by (simpl in Hin; lia).
    rewrite plane_in_bounds by lia. cbn [bind].
    set (p := Np.mk_array2 _ _ _).
    assert (Hp : uint8_plane p = true)
      by (apply plane_uint8; auto; fold a; lia).
    rewrite correct_channel_without_clip by (auto; exact Hsize).
    destruct (image_channel_from_hist_table _ p (counts_mod_length p) Hp)
      as (table & out & Htl & Htab & Eo & Hr & Hcol & Hi).
    rewrite Eo. cbn [bind].
    destruct Hs as (S0 & S1 & S2 & Sr).
    destruct (set_plane_same_shape s c out) as (s' & Es & Hnew & Hold).
    { lia. } { rewrite Hr, S0. reflexivity. } { rewrite Hcol, S1. reflexivity. }
    exists s'. split; [exact Es|]. split; [|split].
    + eapply set_plane_uint8_shaped; [|exact Es].
      exact (conj S0 (conj S1 (conj S2 Sr))).
    + intros i j k Hk. rewrite Hold; [apply Hz|]; intros ?; apply Hk;
        apply in_or_app; [left; assumption|right; left; congruence].
    + intros c' Hc'. destruct (Z.eq_dec c' c) as [->|Hne].
      * exists p, out. split; [apply plane_in_bounds; lia|].
        split; [exact Eo|]. intros i j Hi' Hj'.
        rewrite Hnew by lia. apply int_to_uint8_id.
        rewrite Hi by assumption.
        rewrite Forall_forall in Htab. apply Htab. apply nth_In.
        pose proof (uint8_plane_item p i j Hp Hi' Hj'). lia.
      * apply in_app_or in Hc' as [Hc'|[Hc'|[]]]; [|congruence].
        destruct (He c' Hc') as (p' & out' & E1 & E2 & E3).
        exists p', out'. split; [exact E1|]. split; [exact E2|].
        intros i j Hi' Hj'. rewrite Hold by exact Hne. now apply E3.
  - split; [repeat split; simpl; lia|]. split; [reflexivity|].
    intros c [].
  - exists new_img. rewrite E. cbn [bind]. split; [reflexivity|].
    split; [exact Hshape|]. split.
    + intros c Hc3. apply Heq. simpl. lia.
    + intros i j k Hk. apply Hzero. simpl. lia.
Qed.

Lemma apply_contrast_correction_without_clip_witness :
  exists new_img,
    apply_contrast_correction_array grid_rgba_2x2 (Some 0%Q)
    = Ok (Np.mk_ndarray Np.uint8 new_img)
    /\ Np.uint8_shaped (Np.height_of grid_rgba_2x2)
         (Np.width_of grid_rgba_2x2) (Np.channels_of grid_rgba_2x2) new_img
    /\ (forall c, 0 <= c < 3 -> equalised (Np.data grid_rgba_2x2) new_img c)
    /\ (forall i j k, 3 <= k -> Np.item new_img i j k = 0).
Proof.
  apply (apply_contrast_correction_without_clip grid_rgba_2x2 (Some 0%Q));
    [reflexivity | reflexivity | reflexivity
    | unfold Np.channels_of; simpl; lia
    | unfold Np.height_of, Np.width_of; simpl; lia].
Defined.

(** ** The percentile clip of [auto_contrast_correction] *)

Lemma trunc_int_bounds (x : Q) (a b : Z) :
  0 <= a -> (inject_Z a <= x <= inject_Z b)%Q -> a <= F64.trunc x <= b.
Proof.
  intros Ha [Hlo Hhi]. unfold F64.trunc.
  assert (H0 : (0 <= x)%Q).
  { apply Qle_trans with (inject_Z a); [|exact Hlo].
    change 0%Q with (inject_Z 0). rewrite <- Zle_Qle. exact Ha. }
  apply Qle_bool_iff in H0. rewrite H0.
  apply Qfloor_resp_le in Hlo, Hhi. rewrite Qfloor_Z in Hlo, Hhi. lia.
Qed.

Lemma linear_branch_in_range (a_min a_max a_low a_high pixel : Z) :
  0 <= a_min -> a_min <= a_max < 256 ->
  0 <= a_low -> a_low < a_high -> a_high < 256 ->
  a_low <= pixel <= a_high ->
  exists q,
    add_int a_min
      (true_divide ((pixel - a_low) * ((a_max - a_min) mod 256))
                   ((a_high - a_low) mod 256)) = Finite q
    /\ (inject_Z a_min <= q <= inject_Z a_max)%Q.
Proof.
  intros Hmin Hmax Hlow Hlt Hhigh Hp.
  rewrite !Z.mod_small by lia. unfold true_divide.
  destruct (Z.eqb_spec (a_high - a_low) 0); [lia|].
  cbn [add_int]. eexists. split; [reflexivity|].
  set (X := (pixel - a_low) * (a_max - a_min)).
  set (Y := a_high - a_low) in *.
  assert (HX : 0 <= X <= Y * (a_max - a_min)) by (unfold X, Y; nia).
  assert (HXb : X < 2 ^ 53) by (unfold X; nia).
  rewrite !of_int_exact by lia.
  assert (Hq : (inject_Z 0 <= inject_Z X / inject_Z Y
                <= inject_Z (a_max - a_min))%Q).
  { assert (HY : (0 < inject_Z Y)%Q).
    { change 0%Q with (inject_Z 0). rewrite <- Zlt_Qlt. lia. }
    split.
    - apply Qle_shift_div_l; [exact HY|].
      rewrite <- inject_Z_mult, <- Zle_Qle. lia.
    - apply Qle_shift_div_r; [exact HY|].
      rewrite <- inject_Z_mult, <- Zle_Qle. lia. }
  apply rnd_int_bounds in Hq; [|simpl; lia|lia].
  unfold F64.div, F64.add. apply rnd_int_bounds; [lia|lia|].
  destruct Hq as [Hq1 Hq2]. split.
  - rewrite <- (Qplus_0_r (inject_Z a_min)) at 1.
    apply Qplus_le_compat; [apply Qle_refl|exact Hq1].
  - apply Qle_trans with (inject_Z a_min + inject_Z (a_max - a_min))%Q.
    + apply Qplus_le_compat; [apply Qle_refl|exact Hq2].
    + rewrite <- inject_Z_plus, <- Zle_Qle. lia.
Qed.

Lemma formula_in_range (a_min a_max a_low a_high pixel : Z) :
  0 <= a_min -> a_min <= a_max < 256 ->
  0 <= a_low -> a_low < a_high -> a_high < 256 ->
  exists v,
    object_to_uint8 (formula a_min a_max a_low a_high pixel) = v
    /\ float64_to_uint8 (to_float64 (formula a_min a_max a_low a_high pixel))
       = v
    /\ a_min <= v <= a_max.
Proof.
  intros Hmin Hmax Hlow Hlt Hhigh. unfold formula.
  destruct (Z.ltb_spec pixel a_low).
  - exists a_min. cbn. rewrite of_int_exact, float_to_uint8_int by lia.
    rewrite Z.mod_small by lia. repeat split; lia.
  - destruct (Z.leb_spec a_low pixel); [|lia].
    destruct (Z.leb_spec pixel a_high); cbn [andb].
    + destruct (linear_branch_in_range a_min a_max a_low a_high pixel)
        as (q & -> & Hq); try lia.
      pose proof (trunc_int_bounds q a_min a_max Hmin Hq) as Ht.
      exists (F64.trunc q). cbn. unfold Np.float_to_uint8.
      destruct (Z.leb_spec (- 2 ^ 31) (F64.trunc q)); [|lia].
      destruct (Z.ltb_spec (F64.trunc q) (2 ^ 31)); [|lia]. cbn [andb].
      rewrite Z.mod_small by lia. repeat split; lia.
    + exists a_max. cbn. rewrite of_int_exact, float_to_uint8_int by lia.
      rewrite Z.mod_small by lia. repeat split; lia.
Qed.

Lemma bounds_spec (hist : list Z) (q_low q_high : Q)
  (a_min a_max a_low a_high : Z) :
  bounds hist q_low q_high = Ok (a_min, a_max, a_low, a_high) ->
  (In a_min hist /\ Forall (fun h => a_min <= h) hist)
  /\ (In a_max hist /\ Forall (fun h => h <= a_max) hist)
  /\ In a_low hist /\ In a_high hist.
Proof.
  unfold bounds. intros E.
  apply bind_ok in E as (lo & Elo & E). apply bind_ok in E as (hi & Ehi & E).
  apply bind_ok in E as (l & El & E). apply bind_ok in E as (h & Eh & E).
  inversion E; subst.
  apply py_min_spec in Elo, El. apply py_max_spec in Ehi, Eh.
  destruct El as [El _], Eh as [Eh _].
  apply filter_In in El as [El _]. apply filter_In in Eh as [Eh _].
  auto.
Qed.

(** X16.  When the clip's inner bounds differ ([a_low < a_high]), the clip of a
    histogram of 8-bit buckets never fails, keeps the number of buckets,
    and every bucket of the result lies between the smallest and the
    largest bucket of the histogram. *)
Theorem clip_within_histogram_range (hist : list Z) (ignore_range : Q)
  (q : Q * Q) (a_min a_max a_low a_high : Z) :
  Forall (fun h => 0 <= h < 256) hist ->
  quantiles hist ignore_range = Ok q ->
  bounds hist (fst q) (snd q) = Ok (a_min, a_max, a_low, a_high) ->
  a_low < a_high ->
  exists out,
    clip hist ignore_range = Ok out
    /\ length out = length hist
    /\ Forall (fun v => a_min <= v <= a_max) out.
Proof.
  intros Hh Eq Eb Hlt. unfold clip. rewrite Eq. cbn [bind]. rewrite Eb.
  cbn [bind].
  apply bounds_spec in Eb as ((Imin & Fmin) & (Imax & Fmax) & Ilow & Ihigh).
  rewrite Forall_forall in Hh, Fmin, Fmax.
  pose proof (Hh _ Imin). pose proof (Hh _ Imax).
  pose proof (Hh _ Ilow). pose proof (Hh _ Ihigh).
  pose proof (Fmin _ Imax).
  assert (Hf : forall pixel, exists v,
             object_to_uint8 (formula a_min a_max a_low a_high pixel) = v
             /\ float64_to_uint8
                  (to_float64 (formula a_min a_max a_low a_high pixel)) = v
             /\ a_min <= v <= a_max).
  { intros pixel. apply formula_in_range; lia. }
  unfold vectorize_astype_uint8.
  destruct hist as [|first rest]; [destruct Imin|].
  destruct (formula a_min a_max a_low a_high first) as [u8|f64].
  - eexists. split; [reflexivity|]. split; [now rewrite !length_map|].
    apply Forall_forall. intros v Hv. rewrite map_map in Hv.
    apply in_map_iff in Hv as (pixel & <- & _).
    destruct (Hf pixel) as (v & -> & _ & Hv). exact Hv.
  - eexists. split; [reflexivity|]. split; [now rewrite !length_map|].
    apply Forall_forall. intros v Hv. rewrite map_map in Hv.
    apply in_map_iff in Hv as (pixel & <- & _).
    destruct (Hf pixel) as (v & _ & -> & Hv). exact Hv.
Qed.

Lemma clip_within_histogram_range_witness :
  exists out,
    clip hist_ramp (1 # 4) = Ok out
    /\ length out = length hist_ramp
    /\ Forall (fun v => 0 <= v <= 60) out.
Proof.
  apply (clip_within_histogram_range hist_ramp (1 # 4)
           (inject_Z 10, inject_Z 50) 0 60 10 50);
    [ | vm_compute; reflexivity | vm_compute; reflexivity | lia].
  apply Forall_forall. intros h Hh. unfold hist_ramp in Hh.
  apply in_map_iff in Hh as (k & <- & _).
  pose proof (Z.mod_pos_bound k 7). lia.
Defined.

Lemma formula_without_divisor (a_min a_max a_low a_high pixel : Z) :
  a_high <= a_low ->
  formula a_min a_max a_low a_high pixel
  = if pixel <? a_low then U8 a_min
    else if pixel <=? a_high then F64v Nan else U8 a_max.
Proof.
  intros Hle. unfold formula. destruct (Z.ltb_spec pixel a_low); [reflexivity|].
  destruct (Z.leb_spec a_low pixel); [|lia]. cbn [andb].
  destruct (Z.leb_spec pixel a_high); [|reflexivity].
  assert (pixel = a_low) by lia. assert (a_high = a_low) by lia. subst.
  rewrite !Z.sub_diag, Z.mul_0_l. reflexivity.
Qed.

(** Without a usable divisor ([a_high <= a_low]) the vectorised formula
    still returns: the buckets that meet both bounds become 0. *)
Lemma vectorize_without_divisor (a_min a_max a_low a_high : Z)
  (hist : list Z) :
  hist <> [] -> 0 <= a_min < 256 -> 0 <= a_max < 256 -> a_high <= a_low ->
  vectorize_astype_uint8 (formula a_min a_max a_low a_high) hist
  = Ok (map (fun h => if h <? a_low then a_min
                      else if h <=? a_high then 0 else a_max) hist).
Proof.
  intros Hne Hmin Hmax Hle. unfold vectorize_astype_uint8.
  destruct hist as [|first rest]; [congruence|].
  destruct (formula a_min a_max a_low a_high first) as [u8|f64].
  - f_equal. rewrite map_map. apply map_ext. intros h.
    rewrite formula_without_divisor by exact Hle.
    destruct (h <? a_low); [|destruct (h <=? a_high)]; reflexivity.
  - f_equal. rewrite map_map. apply map_ext. intros h.
    rewrite formula_without_divisor by exact Hle.
    destruct (h <? a_low); [|destruct (h <=? a_high)]; cbn;
      try reflexivity;
      rewrite of_int_exact, float_to_uint8_int by lia;
      apply Z.mod_small; lia.
Qed.

Lemma bounds_degenerate (hist : list Z) (m : Z) :
  In m hist ->
  exists a_min a_max,
    py_min hist = Ok a_min /\ py_max hist = Ok a_max
    /\ bounds hist (inject_Z m) (inject_Z m) = Ok (a_min, a_max, m, m).
Proof.
  intros Hm. unfold bounds.
  destruct (py_min_nonempty hist) as (a_min & Emin);
    [intros ->; destruct Hm|].
  destruct (py_max_nonempty hist) as (a_max & Emax);
    [intros ->; destruct Hm|].
  exists a_min, a_max. rewrite Emin, Emax. cbn [bind].
  split; [reflexivity|]. split; [reflexivity|].
  set (above := filter (fun h => Qle_bool (inject_Z m) (inject_Z h)) hist).
  set (below := filter (fun h => Qle_bool (inject_Z h) (inject_Z m)) hist).
  assert (Ia : In m above).
  { apply filter_In. split; [exact Hm|]. apply Qle_bool_iff, Qle_refl. }
  assert (Ib : In m below).
  { apply filter_In. split; [exact Hm|]. apply Qle_bool_iff, Qle_refl. }
  destruct (py_min_nonempty above) as (lo & Elo);
    [intros E; rewrite E in Ia; destruct Ia|].
  destruct (py_max_nonempty below) as (hi & Ehi);
    [intros E; rewrite E in Ib; destruct Ib|].
  rewrite Elo, Ehi. cbn [bind].
  apply py_min_spec in Elo as (Hlo & Flo).
  apply py_max_spec in Ehi as (Hhi & Fhi).
  rewrite Forall_forall in Flo, Fhi.
  specialize (Flo m Ia). specialize (Fhi m Ib).
  apply filter_In in Hlo as (_ & Hlo). apply filter_In in Hhi as (_ & Hhi).
  apply Qle_bool_iff in Hlo, Hhi. rewrite <- Zle_Qle in Hlo, Hhi.
  repeat f_equal; lia.
Qed.

(** X17.  When both percentiles are the same bucket count [m] of the
    histogram, [a_high - a_low] is zero and the stretch of a bucket equal
    to [m] is 0/0.  Nothing is raised: the clip returns, every bucket
    equal to [m] becomes 0 (the nan cast to [uint8]), the buckets below
    [m] become the smallest bucket and those above the largest. *)
Theorem clip_zero_divisor (hist : list Z) (ignore_range : Q) (m : Z) :
  Forall (fun h => 0 <= h < 256) hist ->
  quantiles hist ignore_range = Ok (inject_Z m, inject_Z m) ->
  In m hist ->
  exists a_min a_max,
    py_min hist = Ok a_min /\ py_max hist = Ok a_max
    /\ clip hist ignore_range
       = Ok (map (fun h => if h <? m then a_min
                           else if h =? m then 0 else a_max) hist).
Proof.
  intros Hh Eq Hm.
  destruct (bounds_degenerate hist m Hm) as (a_min & a_max & Emin & Emax & Eb).
  exists a_min, a_max. split; [exact Emin|]. split; [exact Emax|].
  unfold clip. rewrite Eq. cbn [bind fst snd]. rewrite Eb. cbn [bind].
  apply py_min_spec in Emin as (Imin & _).
  apply py_max_spec in Emax as (Imax & _).
  rewrite Forall_forall in Hh.
  rewrite vectorize_without_divisor;
    [|intros ->; destruct Hm|apply Hh, Imin|apply Hh, Imax|lia].
  f_equal. apply map_ext. intros h.
  destruct (Z.ltb_spec h m); [reflexivity|].
  destruct (Z.leb_spec h m); destruct (Z.eqb_spec h m); try reflexivity; lia.
Qed.

Lemma clip_zero_divisor_witness :
  exists a_min a_max,
    py_min hist_sparse = Ok a_min /\ py_max hist_sparse = Ok a_max
    /\ clip hist_sparse (1 # 2)
       = Ok (map (fun h => if h <? 0 then a_min
                           else if h =? 0 then 0 else a_max) hist_sparse).
Proof.
  apply (clip_zero_divisor hist_sparse (1 # 2) 0);
    [ | vm_compute; reflexivity | right; left; reflexivity].
  apply Forall_forall. intros h Hh. unfold hist_sparse in Hh.
  destruct Hh as [<- | Hh]; [lia|].
  apply in_app_or in Hh as [Hh | [<- | []]]; [|lia].
  apply repeat_spec in Hh. lia.
Defined.

(** ** The ignore range *)

Lemma percentile_rank_ok (a : list Z) (k : Z) :
  0 <= k <= 100 -> exists q, percentile a (inject_Z k) = Ok q.
Proof.
  intros Hk. unfold percentile.
  assert (H0 : Qle_bool 0 (inject_Z k) = true).
  { apply Qle_bool_iff. change 0%Q with (inject_Z 0).
    rewrite <- Zle_Qle. lia. }
  assert (H1 : Qle_bool (inject_Z k) 100 = true).
  { apply Qle_bool_iff. change 100%Q with (inject_Z 100).
    rewrite <- Zle_Qle. lia. }
  rewrite H0, H1. cbn [andb].
  destruct (_ <=? _); eauto.
Qed.

Lemma percentile_rank_refused (a : list Z) (k : Z) :
  k < 0 \/ 100 < k -> percentile a (inject_Z k) = Raise ValueError.
Proof.
  intros Hk. unfold percentile.
  destruct (Qle_bool 0 (inject_Z k)) eqn:H0;
    destruct (Qle_bool (inject_Z k) 100) eqn:H1; try reflexivity.
  apply Qle_bool_iff in H0, H1.
  change 0%Q with (inject_Z 0) in H0. change 100%Q with (inject_Z 100) in H1.
  rewrite <- Zle_Qle in H0, H1. lia.
Qed.

Lemma py_int_small (x : Q) (a b : Z) :
  0 <= a -> b <= 100 -> (inject_Z a <= x <= inject_Z b)%Q ->
  exists k, py_int x = Ok k /\ a <= k <= b.
Proof.
  intros Ha Hb Hx. unfold py_int.
  assert (Hno : F64.overflows x = false).
  { unfold F64.overflows.
    destruct (Qle_bool (inject_Z (2 ^ 1024)) (Qabs x)) eqn:E;
      [|reflexivity].
    apply Qle_bool_iff in E. destruct Hx as [Hlo Hhi].
    assert (H0 : (0 <= x)%Q).
    { apply Qle_trans with (inject_Z a); [|exact Hlo].
      change 0%Q with (inject_Z 0). rewrite <- Zle_Qle. exact Ha. }
    rewrite Qabs_pos in E by exact H0.
    assert (Hbig : (inject_Z (2 ^ 1024) <= inject_Z b)%Q)
      by (eapply Qle_trans; eassumption).
    rewrite <- Zle_Qle in Hbig.
    assert (2 ^ 7 <= 2 ^ 1024) by (apply Z.pow_le_mono_r; lia).
    change (2 ^ 7) with 128 in H. lia. }
  rewrite Hno. eexists. split; [reflexivity|].
  now apply trunc_int_bounds.
Qed.

Lemma persentile_ranks_in_range (r : Q) :
  (0 <= r <= 1)%Q ->
  (exists k, persentile_min r = Ok k /\ 0 <= k <= 100)
  /\ (exists k, persentile_max r = Ok k /\ 0 <= k <= 100).
Proof.
  intros [Hlo Hhi]. unfold persentile_min, persentile_max. split.
  - apply py_int_small; [lia|lia|]. unfold F64.mul.
    apply rnd_int_bounds; [simpl; lia|simpl; lia|]. split.
    + change (inject_Z 0) with (0 * 100)%Q.
      apply Qmult_le_compat_r; [exact Hlo|discriminate].
    + change (inject_Z 100) with (1 * 100)%Q.
      apply Qmult_le_compat_r; [exact Hhi|discriminate].
  - apply py_int_small; [lia|lia|]. unfold F64.mul, F64.sub.
    assert (Hs : (inject_Z 0 <= F64.rnd (1 - r) <= inject_Z 1)%Q).
    { apply rnd_int_bounds; [simpl; lia|simpl; lia|]. split.
      - change (inject_Z 0) with 0%Q. rewrite <- (Qplus_opp_r r).
        apply Qplus_le_compat; [exact Hhi|apply Qle_refl].
      - change (inject_Z 1) with 1%Q. rewrite <- (Qplus_0_r 1) at 2.
        apply Qplus_le_compat; [apply Qle_refl|].
        change 0%Q with (- 0)%Q. now apply Qopp_le_compat. }
    destruct Hs as [Hs0 Hs1].
    apply rnd_int_bounds; [simpl; lia|simpl; lia|]. split.
    + change (inject_Z 0) with (0 * 100)%Q.
      apply Qmult_le_compat_r; [exact Hs0|discriminate].
    + change (inject_Z 100) with (1 * 100)%Q.
      apply Qmult_le_compat_r; [exact Hs1|discriminate].
Qed.

(** X18.  For an ignore range between 0 and 1 both percentile ranks
    [int(ignore_range * 100)] and [int((1 - ignore_range) * 100)] lie in
    [0, 100], so [np.percentile] accepts them on the 256 buckets. *)
Theorem quantiles_defined (hist : list Z) (ignore_range : Q) :
  length hist = 256%nat ->
  (0 <= ignore_range <= 1)%Q ->
  exists q, quantiles hist ignore_range = Ok q.
Proof.
  intros _ Hr.
  destruct (persentile_ranks_in_range ignore_range Hr)
    as [(k1 & E1 & H1) (k2 & E2 & H2)].
  unfold quantiles. rewrite E1, E2. cbn [bind].
  destruct (percentile_rank_ok hist _ H1) as (q1 & ->).
  destruct (percentile_rank_ok hist _ H2) as (q2 & ->).
  cbn [bind]. eauto.
Qed.

Lemma quantiles_defined_witness :
  exists q, quantiles hist_ramp (1 # 4) = Ok q.
Proof.
  apply (quantiles_defined hist_ramp (1 # 4)); [reflexivity|].
  split; discriminate.
Defined.

Lemma persentile_min_zero (r : Q) : (r == 0)%Q -> persentile_min r = Ok 0.
Proof.
  intros H. unfold persentile_min, F64.mul.
  rewrite (rnd_compat _ (inject_Z 0)) by (rewrite H; reflexivity).
  reflexivity.
Qed.

Lemma truthy_nonzero_rank (r : Q) :
  persentile_min r <> Ok 0 -> truthy (Some r) = true.
Proof.
  intros H. unfold truthy.
  destruct (Qeq_bool r 0) eqn:E; [|reflexivity].
  apply Qeq_bool_iff, persentile_min_zero in E. contradiction.
Qed.

(** X19.  The ignore range is not validated.  When [ignore_range * 100]
    is finite and its integer part [int(ignore_range * 100)] is negative
    or above 100, both ranks are computed, [np.percentile] refuses them
    and [auto_contrast_correction] raises [ValueError]. *)
Theorem auto_contrast_correction_rank_refused (img : Np.array2 Z)
  (ignore_range : Q) (p_min p_max : Z) :
  uint8_plane img = true -> Np.rows img * Np.cols img < 2 ^ 31 ->
  persentile_min ignore_range = Ok p_min ->
  persentile_max ignore_range = Ok p_max ->
  p_min < 0 \/ 100 < p_min ->
  auto_contrast_correction img (Some ignore_range) = Raise ValueError.
Proof.
  intros Hp Hsize E1 E2 Hk. unfold auto_contrast_correction.
  rewrite hist_uint8_counts by assumption. cbn [bind].
  rewrite truthy_nonzero_rank
    by (rewrite E1; intros E; inversion E; lia).
  unfold clip, quantiles. rewrite E1, E2. cbn [bind].
  rewrite percentile_rank_refused by exact Hk. reflexivity.
Qed.

Lemma auto_contrast_correction_rank_refused_witness :
  auto_contrast_correction plane_2x3 (Some 2%Q) = Raise ValueError.
Proof.
  apply (auto_contrast_correction_rank_refused plane_2x3 2 200 (- 100));
    [reflexivity | simpl; lia | vm_compute; reflexivity
    | vm_compute; reflexivity | right; lia].
Defined.

(** X21.  When [ignore_range * 100] is beyond the finite floats,
    [int(ignore_range * 100)] raises [OverflowError] before
    [np.percentile] is reached. *)
Theorem auto_contrast_correction_rank_overflow (img : Np.array2 Z)
  (ignore_range : Q) :
  uint8_plane img = true -> Np.rows img * Np.cols img < 2 ^ 31 ->
  F64.overflows (F64.mul ignore_range 100) = true ->
  auto_contrast_correction img (Some ignore_range) = Raise OverflowError.
Proof.
  intros Hp Hsize Ho. unfold auto_contrast_correction.
  rewrite hist_uint8_counts by assumption. cbn [bind].
  assert (E : persentile_min ignore_range = Raise OverflowError).
  { unfold persentile_min, py_int. now rewrite Ho. }
  rewrite truthy_nonzero_rank by (rewrite E; discriminate).
  unfold clip, quantiles. rewrite E. reflexivity.
Qed.

Lemma auto_contrast_correction_rank_overflow_witness :
  auto_contrast_correction plane_2x3 (Some (inject_Z (2 ^ 1020)))
  = Raise OverflowError.
Proof.
  apply (auto_contrast_correction_rank_overflow plane_2x3
           (inject_Z (2 ^ 1020)));
    [reflexivity | simpl; lia | vm_compute; reflexivity].
Defined.

(** ** The channels of the cubic and the Lanczos resampler *)

Lemma for_each_reaches {S X : Type} (P : S -> Prop) (l : list X)
  (f : S -> X -> result S) (x : X) :
  (forall s y s', In y l -> P s -> f s y = Ok s' -> P s') ->
  In x l ->
  forall s s', P s -> for_each l f s = Ok s' ->
  exists s1 s2, P s1 /\ f s1 x = Ok s2.
Proof.
  induction l as [|y l IH]; intros Hf Hin s s' Hs E; [destruct Hin|].
  simpl in E. apply bind_ok in E as (s1 & E1 & E2).
  destruct Hin as [-> | Hin]; [eauto|].
  apply (IH (fun s y s' Hy => Hf s y s' (or_intror Hy)) Hin s1 s');
    [|exact E2].
  apply (Hf s y s1); simpl; auto.
Qed.

Lemma set_channel_out_of_bounds {A : Type} (a : Np.array3 A) (i j k : Z)
  (v : A) :
  0 <= Np.dim2 a <= k -> is_ok (Np.set a i j k v) = false.
Proof.
  intros H. unfold Np.set.
  destruct (Np.index (Np.dim0 a) i); [|reflexivity]. cbn [bind].
  destruct (Np.index (Np.dim1 a) j); [|reflexivity]. cbn [bind].
  rewrite index_out_of_bounds by exact H. reflexivity.
Qed.

Lemma four_tap_row_shape (kernel : Q -> Q) (img : Np.array3 Q)
  (h_x h_y : Q) (c j d0 d1 d2 : Z) (l : list Z) (u u' : Np.array3 Q) :
  Np.has_shape d0 d1 d2 u ->
  for_each l (four_tap_step kernel img h_x h_y c j) u = Ok u' ->
  Np.has_shape d0 d1 d2 u'.
Proof.
  intros Hu E.
  eapply (for_each_invariant (Np.has_shape d0 d1 d2)); [|exact Hu|exact E].
  intros s i s' _ Hs Es. eapply four_tap_step_shape; eauto.
Qed.

Lemma four_tap_dst_fourth_channel
  (padding : Np.array3 Z -> Z -> Z -> Z -> Np.array3 Q) (kernel : Q -> Q)
  (g : Np.ndarray) (height width : Z) :
  4 <= Np.dim2 (Np.data g) -> 1 <= height -> 1 <= width ->
  is_ok (four_tap_dst padding kernel g height width) = false.
Proof.
  intros HC Hh Hw.
  destruct (four_tap_dst padding kernel g height width) as [dst|] eqn:E;
    [exfalso|reflexivity].
  unfold four_tap_dst in E. rewrite zeros_ok in E by lia. cbn [bind] in E.
  set (shape := Np.has_shape height width 3 (A := Q)) in *.
  eapply (for_each_reaches shape) with (x := 3) in E.
  - destruct E as (s1 & s2 & Hs1 & E). cbv beta in E.
    eapply (for_each_reaches shape) with (x := 0) in E.
    + destruct E as (s3 & s4 & Hs3 & E). cbv beta in E.
      eapply (for_each_reaches shape) with (x := 0) in E.
      * destruct E as (s5 & s6 & Hs5 & E).
        rewrite <- four_tap_step_unfold in E.
        apply bind_ok in E as (v & _ & E).
        destruct Hs5 as (_ & _ & D2).
        pose proof (set_channel_out_of_bounds s5 0 0 3 v) as F.
        rewrite E in F. rewrite D2 in F. specialize (F ltac:(lia)).
        discriminate.
      * intros s i s' _ Hs Es. eapply four_tap_step_shape; eauto.
      * apply in_range. lia.
      * exact Hs3.
    + intros s j s' _ Hs Es. cbv beta in Es.
      eapply four_tap_row_shape; eauto.
    + apply in_range. lia.
    + exact Hs1.
  - intros s c s' _ Hs Es. cbv beta in Es.
    eapply (for_each_invariant shape); [|exact Hs|exact Es].
    intros t j t' _ Ht Et. cbv beta in Et.
    eapply four_tap_row_shape; eauto.
  - apply in_range. lia.
  - repeat split.
Qed.

(** X20.  The destination of the cubic and of the Lanczos resampler has
    three channels while the loop runs over every channel of the source:
    on a source of four or more channels and a target that is not empty,
    both raise when the fourth channel is written (if not before), for
    any kernel and padding, and the current image stays. *)
Theorem four_tap_fourth_channel
  (padding : Np.array3 Z -> Z -> Z -> Z -> Np.array3 Q)
  (bicubic_kernel : Q -> Q -> Q -> Q) (lanczos_filter : Q -> Q)
  (s : ImageObjectSingleton) (height width : Z) (B_m C_m : Q) :
  4 <= Np.channels_of (img_array s) -> 1 <= height -> 1 <= width ->
  (exists e,
     mitchell padding bicubic_kernel s height width B_m C_m = (Raise e, s))
  /\ (exists e,
        lanczos padding lanczos_filter s height width = (Raise e, s)).
Proof.
  unfold Np.channels_of. intros HC Hh Hw.
  unfold mitchell, lanczos, mitchell_array, lanczos_array, four_tap_array.
  split.
  - pose proof (four_tap_dst_fourth_channel padding
                  (fun x => bicubic_kernel x B_m C_m) (img_array s)
                  height width HC Hh Hw) as F.
    destruct (four_tap_dst _ _ _ _ _) as [dst|e]; [discriminate|].
    exists e. reflexivity.
  - pose proof (four_tap_dst_fourth_channel padding lanczos_filter
                  (img_array s) height width HC Hh Hw) as F.
    destruct (four_tap_dst _ _ _ _ _) as [dst|e]; [discriminate|].
    exists e. reflexivity.
Qed.

Lemma four_tap_fourth_channel_witness :
  (exists e,
     mitchell ImageKernels.padding ImageKernels.bicubic_kernel current_rgba
       5 5 (1 # 3) (1 # 3) = (Raise e, current_rgba))
  /\ (exists e,
        lanczos ImageKernels.padding (fun _ => 0%Q) current_rgba 5 5
        = (Raise e, current_rgba)).
Proof.
  apply (four_tap_fourth_channel ImageKernels.padding
           ImageKernels.bicubic_kernel (fun _ => 0%Q) current_rgba 5 5
           (1 # 3) (1 # 3));
    [unfold Np.channels_of; simpl; lia | lia | lia].
Defined.

(** * The contrast correction: zero divisors and the ignore range 0 *)

(** C5, as amended: the degenerate bounds are not guarded.  When
    [a_high <= a_low] the clip still returns; a bucket that meets both
    bounds (which needs [a_high = a_low], the zero divisor) is stretched
    to 0/0, a nan that the cast to [uint8] writes as 0; the buckets below
    [a_low] become [a_min] and the others [a_max]. *)
Theorem degenerate_bounds_are_not_guarded (hist : list Z)
  (ignore_range : Q) (q : Q * Q) (a_min a_max a_low a_high : Z) :
  Forall (fun h => 0 <= h < 256) hist ->
  quantiles hist ignore_range = Ok q ->
  bounds hist (fst q) (snd q) = Ok (a_min, a_max, a_low, a_high) ->
  a_high <= a_low ->
  clip hist ignore_range
  = Ok (map (fun h => if h <? a_low then a_min
                      else if h <=? a_high then 0 else a_max) hist)
  /\ (a_high = a_low ->
      formula a_min a_max a_low a_high a_low = F64v Nan
      /\ object_to_uint8 (F64v Nan) = 0).
Proof.
  intros Hh Eq Eb Hle. split.
  - unfold clip. rewrite Eq. cbn [bind]. rewrite Eb. cbn [bind].
    apply bounds_spec in Eb as ((Imin & _) & (Imax & _) & _).
    rewrite Forall_forall in Hh.
    apply vectorize_without_divisor;
      [intros ->; destruct Imin|apply Hh, Imin|apply Hh, Imax|exact Hle].
  - intros ->. split; [|reflexivity].
    rewrite formula_without_divisor by lia.
    now rewrite Z.ltb_irrefl, Z.leb_refl.
Qed.

Lemma degenerate_bounds_are_not_guarded_witness :
  clip hist_sparse (1 # 2)
  = Ok (map (fun h => if h <? 0 then 0
                      else if h <=? 0 then 0 else 4) hist_sparse)
  /\ (0 = 0 ->
      formula 0 4 0 0 0 = F64v Nan /\ object_to_uint8 (F64v Nan) = 0).
Proof.
  apply (degenerate_bounds_are_not_guarded hist_sparse (1 # 2)
           (inject_Z 0, inject_Z 0) 0 4 0 0);
    [ | vm_compute; reflexivity | vm_compute; reflexivity | lia].
  apply Forall_forall. intros h Hh. unfold hist_sparse in Hh.
  destruct Hh as [<- | Hh]; [lia|].
  apply in_app_or in Hh as [Hh | [<- | []]]; [|lia].
  apply repeat_spec in Hh. lia.
Defined.

(** C5, as stated, fails.  On the plane [plane_2x3] and the ignore range
    1/2 both percentiles are 0, so [a_low = a_high = 0] and the divisor is
    zero; the stretch of an empty bucket is nan, nothing is raised, and
    the function returns the histogram with 0 in those buckets and
    [a_max = 3] in the others. *)
Lemma zero_divisor_is_not_refused :
  match hist_uint8 plane_2x3 with
  | Ok hist =>
      match quantiles hist (1 # 2) with
      | Ok q => bounds hist (fst q) (snd q) = Ok (0, 3, 0, 0)
      | Raise _ => False
      end
      /\ formula 0 3 0 0 0 = F64v Nan
      /\ auto_contrast_correction plane_2x3 (Some (1 # 2))
         = Ok (map (fun h => if h =? 0 then 0 else 3) hist)
  | Raise _ => False
  end.
Proof. vm_compute. repeat split. Qed.

(** C8, as amended: with the ignore range 0 (or none) the clip is
    skipped and the tone curve is built from the bucket counts modulo
    256.  When the number of samples of value 255 is not a multiple of
    256, the corrected plane has 0 wherever the source has 0 and 255
    wherever the source has 255. *)
Theorem equalisation_keeps_black_and_white (image : Np.array2 Z)
  (ignore_range : option Q) :
  truthy ignore_range = false ->
  uint8_plane image = true ->
  Np.rows image * Np.cols image < 2 ^ 31 ->
  occurrences image 255 mod 256 <> 0 ->
  let hist := map (fun c => c mod 256) (counts image) in
  auto_contrast_correction image ignore_range = Ok hist
  /\ exists out,
       correct_channel image ignore_range = Ok out
       /\ image_channel_from_hist hist image = Ok out
       /\ forall x y, 0 <= x < Np.rows image -> 0 <= y < Np.cols image ->
            (Np.item2 image x y = 0 -> Np.item2 out x y = 0)
            /\ (Np.item2 image x y = 255 -> Np.item2 out x y = 255).
Proof.
  intros Ht Hp Hsize H255 hist. split.
  - unfold auto_contrast_correction.
    rewrite hist_uint8_counts by assumption. cbn [bind].
    destruct ignore_range as [r|]; [rewrite Ht|]; reflexivity.
  - rewrite correct_channel_without_clip by assumption. fold hist.
    assert (Hlen : length hist = 256%nat) by apply counts_mod_length.
    assert (Hh : Forall (fun h => 0 <= h < 256) hist).
    { apply Forall_forall. intros h Hin. unfold hist in Hin.
      apply in_map_iff in Hin as (c & <- & _).
      apply Z.mod_pos_bound. lia. }
    assert (Hs : 0 < sum_Z (tl hist)).
    { assert (Hnn : Forall (fun c => 0 <= c) (tl hist)).
      { destruct hist as [|h0 tl0]; [constructor|].
        inversion Hh as [|? ? _ Htl]; subst. cbn [tl].
        eapply Forall_impl; [|exact Htl]. simpl. intros; lia. }
      assert (Hlast : nth 254 (tl hist) 0 = occurrences image 255 mod 256).
      { unfold hist, counts. rewrite map_map.
        change (nth 254 (tl (map ?f (range 256))) 0)
          with (nth 255 (map f (range 256)) 0).
        change 255%nat with (Z.to_nat 255).
        rewrite nth_map_range by lia. reflexivity. }
      pose proof (Z.mod_pos_bound (occurrences image 255) 256 ltac:(lia)).
      assert (Hin : In (nth 254 (tl hist) 0) (tl hist)).
      { apply nth_In. destruct hist as [|h0 tl0]; [discriminate|].
        cbn [tl]. simpl in Hlen. lia. }
      assert (G : forall l v, Forall (fun c => 0 <= c) l -> In v l ->
                    v <= sum_Z l).
      { induction l as [|c l IH]; intros v Hl [].
        - subst. inversion Hl; subst. pose proof (sum_Z_nonneg l H3).
          simpl. lia.
        - inversion Hl; subst. specialize (IH v H4 H0). simpl. lia. }
      specialize (G _ _ Hnn Hin). lia. }
    destruct (image_channel_from_hist_ends hist image Hlen Hh Hs Hp)
      as (out & E & Hout).
    exists out. auto.
Qed.

Lemma equalisation_keeps_black_and_white_witness :
  let hist := map (fun c => c mod 256) (counts plane_0_255) in
  auto_contrast_correction plane_0_255 (Some 0%Q) = Ok hist
  /\ exists out,
       correct_channel plane_0_255 (Some 0%Q) = Ok out
       /\ image_channel_from_hist hist plane_0_255 = Ok out
       /\ forall x y,
            0 <= x < Np.rows plane_0_255 -> 0 <= y < Np.cols plane_0_255 ->
            (Np.item2 plane_0_255 x y = 0 -> Np.item2 out x y = 0)
            /\ (Np.item2 plane_0_255 x y = 255 -> Np.item2 out x y = 255).
Proof.
  apply (equalisation_keeps_black_and_white plane_0_255 (Some 0%Q));
    [reflexivity | reflexivity | simpl; lia | vm_compute; discriminate].
Defined.

(** C8, as stated, fails when the samples of value 255 number a multiple
    of 256: their bucket is 0 modulo 256, the cumulative sum is constant,
    the stretch is 0/0 and the whole plane comes back as 0. *)
Lemma equalisation_loses_white :
  match correct_channel plane_1x257 (Some 0%Q) with
  | Ok out =>
      occurrences plane_1x257 0 = 1
      /\ occurrences plane_1x257 255 = 256
      /\ Np.item2 plane_1x257 0 1 = 255
      /\ Np.item2 out 0 1 = 0
  | Raise _ => False
  end.
Proof. vm_compute. repeat split. Qed.

(** * The percentile clip, step by step *)

Lemma insert_sorted_in (x y : Z) (l : list Z) :
  In x (insert_sorted y l) -> x = y \/ In x l.
Proof.
  induction l as [|z l IH]; simpl; [intuition|].
  destruct (y <=? z); simpl; [intuition|].
  intros [<- | H]; [auto|]. destruct (IH H); auto.
Qed.

Lemma insert_sorted_length (y : Z) (l : list Z) :
  length (insert_sorted y l) = S (length l).
Proof.
  induction l as [|z l IH]; simpl; [reflexivity|].
  destruct (y <=? z); simpl; [reflexivity|]. now rewrite IH.
Qed.

Lemma sorted_in (x : Z) (l : list Z) : In x (sorted l) -> In x l.
Proof.
  induction l as [|y l IH]; simpl; [auto|].
  intros H. apply insert_sorted_in in H as [->|H]; auto.
Qed.

Lemma sorted_length (l : list Z) : length (sorted l) = length l.
Proof.
  induction l as [|y l IH]; simpl; [reflexivity|].
  now rewrite insert_sorted_length, IH.
Qed.

Lemma nth_sorted_bounds (a : list Z) (lo hi : Z) (k : nat) :
  Forall (fun h => lo <= h <= hi) a -> (k < length a)%nat ->
  lo <= nth k (sorted a) 0 <= hi.
Proof.
  intros Ha Hk. rewrite Forall_forall in Ha. apply Ha, sorted_in, nth_In.
  now rewrite sorted_length.
Qed.

Lemma inject_Z_le (a b : Z) : a <= b -> (inject_Z a <= inject_Z b)%Q.
Proof. intros H. now rewrite <- Zle_Qle. Qed.

(** A product with a factor between 0 and 1 stays between 0 and the
    other factor, also after rounding. *)
Lemma mul_fraction_bounds (d : Z) (s : Q) :
  Z.abs d < 2 ^ 53 -> (0 <= s <= 1)%Q ->
  (inject_Z (Z.min 0 d) <= F64.mul (inject_Z d) s <= inject_Z (Z.max 0 d))%Q.
Proof.
  intros Hd [Hs0 Hs1]. unfold F64.mul.
  apply rnd_int_bounds; [lia|lia|].
  destruct (Z.le_ge_cases 0 d) as [Hpos|Hneg].
  - rewrite Z.min_l, Z.max_r by lia. split.
    + change (inject_Z 0) with 0%Q. apply Qmult_le_0_compat; [|exact Hs0].
      change 0%Q with (inject_Z 0). now apply inject_Z_le.
    + rewrite <- (Qmult_1_r (inject_Z d)) at 2.
      rewrite (Qmult_comm (inject_Z d) s), (Qmult_comm (inject_Z d) 1).
      apply Qmult_le_compat_r; [exact Hs1|].
      change 0%Q with (inject_Z 0). now apply inject_Z_le.
  - rewrite Z.min_r, Z.max_l by lia.
    assert (Hn : (0 <= - inject_Z d)%Q).
    { change 0%Q with (- 0)%Q. apply Qopp_le_compat.
      change 0%Q with (inject_Z 0). now apply inject_Z_le. }
    assert (Hs : (0 <= 1 + - s)%Q) by (now apply Qle_minus_iff in Hs1).
    split.
    + apply Qle_minus_iff.
      setoid_replace (inject_Z d * s + - inject_Z d)%Q
        with ((- inject_Z d) * (1 + - s))%Q by ring.
      now apply Qmult_le_0_compat.
    + apply Qle_minus_iff.
      setoid_replace (inject_Z 0 + - (inject_Z d * s))%Q
        with ((- inject_Z d) * s)%Q by ring.
      now apply Qmult_le_0_compat.
Qed.

Lemma Qsub_int_bounds (b l u : Z) (m : Q) :
  (inject_Z l <= m <= inject_Z u)%Q ->
  (inject_Z (b - u) <= inject_Z b - m <= inject_Z (b - l))%Q.
Proof.
  intros [Hl Hu]. unfold Z.sub. rewrite !inject_Z_plus, !inject_Z_opp.
  split; (apply Qplus_le_compat; [apply Qle_refl|now apply Qopp_le_compat]).
Qed.

Lemma Qadd_int_bounds (a l u : Z) (m : Q) :
  (inject_Z l <= m <= inject_Z u)%Q ->
  (inject_Z (a + l) <= inject_Z a + m <= inject_Z (a + u))%Q.
Proof.
  intros [Hl Hu]. rewrite !inject_Z_plus.
  split; (apply Qplus_le_compat; [apply Qle_refl|assumption]).
Qed.

Lemma Qle_between (x : Q) (l l' u u' : Z) :
  l' <= l -> u <= u' -> (inject_Z l <= x <= inject_Z u)%Q ->
  (inject_Z l' <= x <= inject_Z u')%Q.
Proof.
  intros Hl Hu [H1 H2]. split.
  - eapply Qle_trans; [apply inject_Z_le; exact Hl|exact H1].
  - eapply Qle_trans; [exact H2|apply inject_Z_le; exact Hu].
Qed.

Lemma one_minus_fraction (t : Q) :
  (0 <= t <= 1)%Q -> (inject_Z 0 <= F64.sub 1 t <= inject_Z 1)%Q.
Proof.
  intros [H0 H1]. unfold F64.sub.
  apply rnd_int_bounds; [simpl; lia|simpl; lia|]. split.
  - change (inject_Z 0) with 0%Q. rewrite <- (Qplus_opp_r t).
    apply Qplus_le_compat; [exact H1|apply Qle_refl].
  - change (inject_Z 1) with 1%Q. rewrite <- (Qplus_0_r 1) at 2.
    apply Qplus_le_compat; [apply Qle_refl|].
    change 0%Q with (- 0)%Q. now apply Qopp_le_compat.
Qed.

(** The interpolation of NumPy's quantile code stays between the two
    values it interpolates, also after rounding. *)
Lemma lerp_bounds (a b lo hi : Z) (t : Q) :
  0 <= lo -> hi < 2 ^ 52 -> lo <= a <= hi -> lo <= b <= hi ->
  (0 <= t <= 1)%Q ->
  (inject_Z lo <= lerp a b t <= inject_Z hi)%Q.
Proof.
  intros Hlo Hhi Ha Hb Ht. unfold lerp.
  assert (H52 : 2 ^ 52 < 2 ^ 53) by (apply Z.pow_lt_mono_r; lia).
  rewrite !of_int_exact by lia.
  destruct (Qle_bool (1 # 2) t).
  - pose proof (one_minus_fraction t Ht) as Hs.
    pose proof (mul_fraction_bounds (b - a) (F64.sub 1 t) ltac:(lia) Hs)
      as Hm.
    unfold F64.sub at 1. apply rnd_int_bounds; [lia|lia|].
    apply (Qsub_int_bounds b) in Hm.
    eapply Qle_between; [| |exact Hm]; lia.
  - pose proof (mul_fraction_bounds (b - a) t ltac:(lia) Ht) as Hm.
    unfold F64.add. apply rnd_int_bounds; [lia|lia|].
    apply (Qadd_int_bounds a) in Hm.
    eapply Qle_between; [| |exact Hm]; lia.
Qed.

Lemma rank_fraction (k : Z) :
  0 <= k <= 100 ->
  (0 <= F64.div (inject_Z k) 100 <= 1)%Q.
Proof.
  intros Hk. unfold F64.div.
  apply (rnd_int_bounds _ 0 1); [simpl; lia|simpl; lia|]. split.
  - apply Qle_shift_div_l; [reflexivity|].
    change (inject_Z 0 * 100)%Q with (inject_Z 0). apply inject_Z_le. lia.
  - apply Qle_shift_div_r; [reflexivity|].
    change (inject_Z 1 * 100)%Q with (inject_Z 100). apply inject_Z_le. lia.
Qed.

Lemma fraction_of_floor (x : Q) :
  Z.abs (Qfloor x) < 2 ^ 53 ->
  (0 <= F64.sub x (F64.of_int (F64.floor x)) <= 1)%Q.
Proof.
  intros Hf. unfold F64.floor. rewrite of_int_exact by exact Hf.
  unfold F64.sub. apply (rnd_int_bounds _ 0 1); [simpl; lia|simpl; lia|].
  pose proof (Qfloor_le x) as H1. pose proof (Qlt_floor x) as H2.
  rewrite inject_Z_plus in H2. split.
  - apply Qle_minus_iff in H1. exact H1.
  - apply Qlt_le_weak. apply Qlt_minus_iff in H2. apply Qlt_minus_iff.
    setoid_replace (inject_Z 1 + - (x - inject_Z (Qfloor x)))%Q
      with (inject_Z (Qfloor x) + inject_Z 1 + - x)%Q by ring.
    exact H2.
Qed.

(** A percentile of a list lies between the bounds of its items. *)
Lemma percentile_bounds (a : list Z) (k lo hi : Z) :
  a <> [] -> Z.of_nat (length a) < 2 ^ 52 ->
  0 <= lo -> hi < 2 ^ 52 ->
  Forall (fun h => lo <= h <= hi) a ->
  0 <= k <= 100 ->
  exists q,
    percentile a (inject_Z k) = Ok q
    /\ (inject_Z lo <= q <= inject_Z hi)%Q.
Proof.
  intros Hne Hlen Hlo Hhi Ha Hk.
  assert (H52 : 2 ^ 52 < 2 ^ 53) by (apply Z.pow_lt_mono_r; lia).
  assert (Hn : 1 <= Z.of_nat (length a)).
  { destruct a; [congruence|simpl length; lia]. }
  unfold percentile.
  assert (H0 : Qle_bool 0 (inject_Z k) = true).
  { apply Qle_bool_iff. change 0%Q with (inject_Z 0).
    apply inject_Z_le. lia. }
  assert (H1 : Qle_bool (inject_Z k) 100 = true).
  { apply Qle_bool_iff. change 100%Q with (inject_Z 100).
    apply inject_Z_le. lia. }
  rewrite H0, H1. cbn [andb].
  set (n := Z.of_nat (length a)) in *.
  rewrite (of_int_exact (n - 1)) by lia.
  set (vi := F64.mul (inject_Z (n - 1)) (F64.div (inject_Z k) 100)).
  assert (Hvi : (inject_Z 0 <= vi <= inject_Z (n - 1))%Q).
  { pose proof (mul_fraction_bounds (n - 1) _ ltac:(lia) (rank_fraction k Hk))
      as Hm.
    rewrite Z.min_l, Z.max_r in Hm by lia. exact Hm. }
  assert (Hfl : 0 <= F64.floor vi <= n - 1).
  { destruct Hvi as [V0 V1]. unfold F64.floor.
    apply Qfloor_resp_le in V0, V1. rewrite Qfloor_Z in V0, V1. lia. }
  destruct (Z.leb_spec (n - 1) (F64.floor vi)).
  - eexists. split; [reflexivity|].
    pose proof (nth_sorted_bounds a lo hi (Z.to_nat (n - 1)) Ha
                  ltac:(unfold n; lia)) as Hb.
    rewrite of_int_exact by lia.
    split; apply inject_Z_le; lia.
  - eexists. split; [reflexivity|].
    apply lerp_bounds; try assumption.
    + apply nth_sorted_bounds; [exact Ha|unfold n in *; lia].
    + apply nth_sorted_bounds; [exact Ha|unfold n in *; lia].
    + apply fraction_of_floor. unfold F64.floor in Hfl. lia.
Qed.

Lemma filter_above_spec (hist : list Z) (q : Q) (a_max : Z) :
  In a_max hist -> (q <= inject_Z a_max)%Q ->
  exists a_low,
    py_min (filter (fun h => Qle_bool q (inject_Z h)) hist) = Ok a_low
    /\ In a_low hist /\ (q <= inject_Z a_low)%Q
    /\ forall h, In h hist -> (q <= inject_Z h)%Q -> a_low <= h.
Proof.
  intros Hin Hq.
  set (above := filter (fun h => Qle_bool q (inject_Z h)) hist).
  assert (Ia : In a_max above).
  { apply filter_In. split; [exact Hin|now apply Qle_bool_iff]. }
  destruct (py_min_nonempty above) as (lo & E);
    [intros E; rewrite E in Ia; destruct Ia|].
  exists lo. split; [exact E|]. apply py_min_spec in E as (Hlo & Flo).
  apply filter_In in Hlo as (Hlo & Hq'). apply Qle_bool_iff in Hq'.
  split; [exact Hlo|]. split; [exact Hq'|].
  intros h Hh Hqh. rewrite Forall_forall in Flo. apply Flo.
  apply filter_In. split; [exact Hh|now apply Qle_bool_iff].
Qed.

Lemma filter_below_spec (hist : list Z) (q : Q) (a_min : Z) :
  In a_min hist -> (inject_Z a_min <= q)%Q ->
  exists a_high,
    py_max (filter (fun h => Qle_bool (inject_Z h) q) hist) = Ok a_high
    /\ In a_high hist /\ (inject_Z a_high <= q)%Q
    /\ forall h, In h hist -> (inject_Z h <= q)%Q -> h <= a_high.
Proof.
  intros Hin Hq.
  set (below := filter (fun h => Qle_bool (inject_Z h) q) hist).
  assert (Ib : In a_min below).
  { apply filter_In. split; [exact Hin|now apply Qle_bool_iff]. }
  destruct (py_max_nonempty below) as (hi & E);
    [intros E; rewrite E in Ib; destruct Ib|].
  exists hi. split; [exact E|]. apply py_max_spec in E as (Hhi & Fhi).
  apply filter_In in Hhi as (Hhi & Hq'). apply Qle_bool_iff in Hq'.
  split; [exact Hhi|]. split; [exact Hq'|].
  intros h Hh Hqh. rewrite Forall_forall in Fhi. apply Fhi.
  apply filter_In. split; [exact Hh|now apply Qle_bool_iff].
Qed.

(** With [a_low < a_high] the formula, cast to [uint8] either way, is the
    piecewise-linear stretch truncated to an integer. *)
Lemma formula_remap (a_min a_max a_low a_high pixel : Z) :
  0 <= a_min -> a_min <= a_max < 256 ->
  0 <= a_low -> a_low < a_high -> a_high < 256 ->
  object_to_uint8 (formula a_min a_max a_low a_high pixel)
  = remap a_min a_max a_low a_high pixel
  /\ float64_to_uint8 (to_float64 (formula a_min a_max a_low a_high pixel))
     = remap a_min a_max a_low a_high pixel.
Proof.
  intros Hmin Hmax Hlow Hlt Hhigh. unfold formula, remap.
  destruct (Z.ltb_spec pixel a_low).
  - cbn. rewrite of_int_exact, float_to_uint8_int by lia.
    rewrite Z.mod_small by lia. auto.
  - destruct (Z.leb_spec a_low pixel); [|lia].
    destruct (Z.leb_spec pixel a_high); cbn [andb].
    + destruct (linear_branch_in_range a_min a_max a_low a_high pixel)
        as (q & Eq & Hq); try lia.
      rewrite Eq. revert Eq. rewrite !Z.mod_small by lia.
      unfold true_divide. destruct (Z.eqb_spec (a_high - a_low) 0); [lia|].
      cbn [add_int]. intros Eq. inversion Eq as [Eq']. rewrite Eq'.
      pose proof (trunc_int_bounds q a_min a_max Hmin Hq) as Ht.
      cbn. unfold Np.float_to_uint8.
      destruct (Z.leb_spec (- 2 ^ 31) (F64.trunc q)); [|lia].
      destruct (Z.ltb_spec (F64.trunc q) (2 ^ 31)); [|lia]. cbn [andb].
      rewrite Z.mod_small by lia. auto.
    + cbn. rewrite of_int_exact, float_to_uint8_int by lia.
      rewrite Z.mod_small by lia. auto.
Qed.

Lemma vectorize_remap (a_min a_max a_low a_high : Z) (hist : list Z) :
  hist <> [] ->
  0 <= a_min -> a_min <= a_max < 256 ->
  0 <= a_low -> a_low < a_high -> a_high < 256 ->
  vectorize_astype_uint8 (formula a_min a_max a_low a_high) hist
  = Ok (map (remap a_min a_max a_low a_high) hist).
Proof.
  intros Hne Hmin Hmax Hlow Hlt Hhigh. unfold vectorize_astype_uint8.
  destruct hist as [|first rest]; [congruence|].
  destruct (formula a_min a_max a_low a_high first) as [u8|f64];
    f_equal; rewrite map_map; apply map_ext; intros h;
    apply formula_remap; assumption.
Qed.

(** C6, as amended.  For a plane of 8-bit samples and an ignore range in
    (0, 1/2] the clip works on the bucket counts modulo 256.  The two
    percentiles are taken at the ranks [int(ignore_range * 100)] and
    [int((1 - ignore_range) * 100)], whole numbers; [a_min] and [a_max]
    are the smallest and the largest bucket, [a_low] the smallest bucket
    not below the lower percentile and [a_high] the largest bucket not
    above the upper one; and when [a_low < a_high] every bucket is
    replaced by its piecewise-linear stretch, truncated to an integer. *)
Theorem clip_remaps_bucket_counts (image : Np.array2 Z) (ignore_range : Q) :
  uint8_plane image = true ->
  Np.rows image * Np.cols image < 2 ^ 31 ->
  (0 < ignore_range)%Q -> (ignore_range <= 1 # 2)%Q ->
  let hist := map (fun c => c mod 256) (counts image) in
  exists p_min p_max q_low q_high a_min a_max a_low a_high,
    hist_uint8 image = Ok hist
    /\ persentile_min ignore_range = Ok p_min
    /\ persentile_max ignore_range = Ok p_max
    /\ percentile hist (inject_Z p_min) = Ok q_low
    /\ percentile hist (inject_Z p_max) = Ok q_high
    /\ (In a_min hist /\ Forall (fun h => a_min <= h) hist)
    /\ (In a_max hist /\ Forall (fun h => h <= a_max) hist)
    /\ (In a_low hist /\ (q_low <= inject_Z a_low)%Q
        /\ forall h, In h hist -> (q_low <= inject_Z h)%Q -> a_low <= h)
    /\ (In a_high hist /\ (inject_Z a_high <= q_high)%Q
        /\ forall h, In h hist -> (inject_Z h <= q_high)%Q -> h <= a_high)
    /\ (a_low < a_high ->
        auto_contrast_correction image (Some ignore_range)
        = Ok (map (remap a_min a_max a_low a_high) hist)).
Proof.
  intros Hp Hsize Hr0 Hr1 hist.
  assert (Hr : (0 <= ignore_range <= 1)%Q).
  { split; [now apply Qlt_le_weak|].
    eapply Qle_trans; [exact Hr1|discriminate]. }
  destruct (persentile_ranks_in_range ignore_range Hr)
    as [(p_min & E1 & H1) (p_max & E2 & H2)].
  assert (Hlen : length hist = 256%nat) by apply counts_mod_length.
  assert (Hne : hist <> []) by (intros E; rewrite E in Hlen; discriminate).
  assert (Hh : Forall (fun h => 0 <= h < 256) hist).
  { apply Forall_forall. intros h Hin. unfold hist in Hin.
    apply in_map_iff in Hin as (c & <- & _). apply Z.mod_pos_bound. lia. }
  destruct (py_min_nonempty hist Hne) as (a_min & Emin).
  destruct (py_max_nonempty hist Hne) as (a_max & Emax).
  pose proof (py_min_spec _ _ Emin) as (Imin & Fmin).
  pose proof (py_max_spec _ _ Emax) as (Imax & Fmax).
  assert (Hrange : Forall (fun h => a_min <= h <= a_max) hist).
  { rewrite Forall_forall in Fmin, Fmax |- *. intros h Hin.
    split; [now apply Fmin|now apply Fmax]. }
  pose proof (proj1 (Forall_forall _ _) Hh _ Imin) as Bmin.
  pose proof (proj1 (Forall_forall _ _) Hh _ Imax) as Bmax.
  cbv beta in Bmin, Bmax.
  assert (H52 : 2 ^ 8 < 2 ^ 52) by (apply Z.pow_lt_mono_r; lia).
  change (2 ^ 8) with 256 in H52.
  assert (Hlen52 : Z.of_nat (length hist) < 2 ^ 52) by (rewrite Hlen; simpl; lia).
  destruct (percentile_bounds hist p_min a_min a_max Hne Hlen52
              ltac:(lia) ltac:(lia) Hrange H1) as (q_low & Eql & Hql).
  destruct (percentile_bounds hist p_max a_min a_max Hne Hlen52
              ltac:(lia) ltac:(lia) Hrange H2) as (q_high & Eqh & Hqh).
  destruct (filter_above_spec hist q_low a_max Imax (proj2 Hql))
    as (a_low & Elow & Ilow & Qlow & Mlow).
  destruct (filter_below_spec hist q_high a_min Imin (proj1 Hqh))
    as (a_high & Ehigh & Ihigh & Qhigh & Mhigh).
  exists p_min, p_max, q_low, q_high, a_min, a_max, a_low, a_high.
  split; [now apply hist_uint8_counts|].
  split; [exact E1|]. split; [exact E2|]. split; [exact Eql|].
  split; [exact Eqh|]. split; [auto|]. split; [auto|].
  split; [auto|]. split; [auto|].
  intros Hlt. unfold auto_contrast_correction.
  rewrite hist_uint8_counts by assumption. cbn [bind]. fold hist.
  assert (Ht : truthy (Some ignore_range) = true).
  { unfold truthy. destruct (Qeq_bool ignore_range 0) eqn:E; [|reflexivity].
    apply Qeq_bool_iff in E. rewrite E in Hr0. discriminate. }
  rewrite Ht. unfold clip, quantiles, bounds.
  rewrite E1, E2. cbn [bind]. rewrite Eql, Eqh. cbn [bind fst snd].
  rewrite Emin, Emax. cbn [bind]. rewrite Elow, Ehigh. cbn [bind].
  pose proof (proj1 (Forall_forall _ _) Hh _ Ilow) as Blow.
  pose proof (proj1 (Forall_forall _ _) Hh _ Ihigh) as Bhigh.
  pose proof (proj1 (Forall_forall _ _) Fmin _ Imax) as Hmm.
  cbv beta in Blow, Bhigh, Hmm.
  apply vectorize_remap; try assumption; lia.
Qed.

Lemma clip_remaps_bucket_counts_witness :
  let hist := map (fun c => c mod 256) (counts plane_1x10) in
  exists p_min p_max q_low q_high a_min a_max a_low a_high,
    hist_uint8 plane_1x10 = Ok hist
    /\ persentile_min (1 # 256) = Ok p_min
    /\ persentile_max (1 # 256) = Ok p_max
    /\ percentile hist (inject_Z p_min) = Ok q_low
    /\ percentile hist (inject_Z p_max) = Ok q_high
    /\ (In a_min hist /\ Forall (fun h => a_min <= h) hist)
    /\ (In a_max hist /\ Forall (fun h => h <= a_max) hist)
    /\ (In a_low hist /\ (q_low <= inject_Z a_low)%Q
        /\ forall h, In h hist -> (q_low <= inject_Z h)%Q -> a_low <= h)
    /\ (In a_high hist /\ (inject_Z a_high <= q_high)%Q
        /\ forall h, In h hist -> (inject_Z h <= q_high)%Q -> h <= a_high)
    /\ (a_low < a_high ->
        auto_contrast_correction plane_1x10 (Some (1 # 256))
        = Ok (map (remap a_min a_max a_low a_high) hist)).
Proof.
  apply (clip_remaps_bucket_counts plane_1x10 (1 # 256));
    [reflexivity | simpl; lia | reflexivity | discriminate].
Defined.

(** C6, as stated, fails: the ranks are truncated.  On [plane_1x10] and
    the ignore range 1/256 the upper rank is 99 and not 99.609375; the
    upper percentile is about 1.45 and not 3.00390625, so [a_high] is 1 and
    not 3, and a bucket holding 1 is stretched to 4 where the stretch
    between the untruncated percentiles gives 1. *)
Lemma percentile_ranks_are_truncated :
  persentile_max (1 # 256) = Ok 99
  /\ match hist_uint8 plane_1x10 with
     | Ok hist =>
         match quantiles hist (1 # 256), spec_quantiles hist (1 # 256) with
         | Ok q, Ok q' =>
             (1 < snd q)%Q /\ (snd q < 2)%Q /\ snd q' = (769 # 256)%Q
             /\ bounds hist (fst q) (snd q) = Ok (0, 4, 0, 1)
             /\ bounds hist (fst q') (snd q') = Ok (0, 4, 0, 3)
         | _, _ => False
         end
         /\ nth 10 hist 0 = 1
         /\ remap 0 4 0 3 1 = 1
         /\ match auto_contrast_correction plane_1x10 (Some (1 # 256)) with
            | Ok out => nth 10 out 0 = 4
            | Raise _ => False
            end
     | Raise _ => False
     end.
Proof. vm_compute. repeat split. Qed.
